(** * WhatsApp template validator: schema refinements, rule engine and
      position mapper

    A shallow embedding of
      - [src/lib/validators/template-schema.ts] (the Zod schema: the data
        model and the refinement callbacks), and
      - [src/lib/parsers/template-parser.ts] ([TemplateParser] followed by
        [TemplateValidator]),
    with the properties of the validation report proved over it.

    Conventions of the embedding.
      - A JS string is a [string]; [.length] is [String.length].
      - Array indices and lengths are [nat]; placeholder numbers read by
        [parseInt] are [N], the exact value of the digits. A JS number is
        a double: below 2^53 it is that value and prints as its decimal
        digits, from 2^53 on it is rounded. The embedding is the program
        on texts whose placeholder numbers are below 2^53 ([numbersExact]);
        a statement that depends on the value or on the printed form of
        a number carries that bound, a statement about acceptance does
        not need it (a run [1..k] that reaches 2^53 needs more matches
        than a string can hold).
      - [messageSendTtlSeconds] is an integer ([Z]), as the data model of
        the specification has it.
      - The three accumulator arrays of [TemplateValidator] are a record
        that every pass takes and returns. *)

From stdpp Require Import base option list sorting strings gmap pretty.
From Stdlib Require Import ZArith Ascii Lia.

Local Open Scope Z_scope.
Local Open Scope nat_scope.

(** ** JavaScript helpers *)

Module JS.

(** Truthiness of a string: only the empty string is falsy. *)
Definition truthy_str (s : string) : bool :=
  match s with EmptyString => false | String _ _ => true end.

(** Truthiness of an optional string ([undefined] is falsy). *)
Definition truthy_ostr (o : option string) : bool :=
  match o with Some s => truthy_str s | None => false end.

(** Truthiness of an optional boolean. *)
Definition truthy_obool (o : option bool) : bool :=
  match o with Some b => b | None => false end.

(** Truthiness of an optional number: [undefined] and [0] are falsy. *)
Definition truthy_onum (o : option Z) : bool :=
  match o with Some z => negb (z =? 0)%Z | None => false end.

(** Truthiness of an optional object or array: present means truthy
    (an empty array is truthy). *)
Definition truthy_oobj {A} (o : option A) : bool :=
  match o with Some _ => true | None => false end.

Definition is_upper (c : ascii) : bool :=
  let n := nat_of_ascii c in (65 <=? n) && (n <=? 90).

Definition lower_char (c : ascii) : ascii :=
  if is_upper c then ascii_of_nat (nat_of_ascii c + 32) else c.

(** [String.prototype.toLowerCase] on ASCII text. *)
Fixpoint toLowerCase (s : string) : string :=
  match s with
  | EmptyString => EmptyString
  | String c s' => String (lower_char c) (toLowerCase s')
  end.

Definition is_digit (c : ascii) : bool :=
  let n := nat_of_ascii c in (48 <=? n) && (n <=? 57).

Definition digit_val (c : ascii) : N := N.of_nat (nat_of_ascii c - 48).

(** [parseInt] of a run of decimal digits, most significant first: the
    exact value. This is what JS returns for values below 2^53; larger
    values JS rounds to a double. *)
Definition parseInt (ds : list ascii) : N :=
  foldl (λ acc d, (10 * acc + digit_val d)%N) 0%N ds.

(** [Array.prototype.join] over strings. *)
Fixpoint join (sep : string) (l : list string) : string :=
  match l with
  | [] => ""
  | [x] => x
  | x :: l' => x +:+ sep +:+ join sep l'
  end.

(** [String.prototype.endsWith]; the anchored, literal-suffix regular
    expressions of the media pass reduce to it. *)
Fixpoint drop_str (n : nat) (s : string) : string :=
  match n, s with
  | 0, _ => s
  | S n', String _ s' => drop_str n' s'
  | S _, EmptyString => EmptyString
  end.

Definition endsWith (s suffix : string) : bool :=
  (String.length suffix <=? String.length s) &&
  String.eqb (drop_str (String.length s - String.length suffix) s) suffix.

End JS.

(** ** The data model ([template-schema.ts]) *)

Inductive TemplateCategory := MARKETING | UTILITY | AUTHENTICATION.

Inductive TemplateSubCategory := ORDER_STATUS.

Inductive HeaderFormat := TEXT | IMAGE | VIDEO | DOCUMENT | LOCATION.

Inductive ButtonType :=
  | QUICK_REPLY | URL | PHONE_NUMBER | COPY_CODE | OTP
  | CATALOG | MPM | FLOW | ORDER_DETAILS | VOICE_CALL.

Module OTPType.
Inductive t := COPY_CODE | ONE_TAP | ZERO_TAP.
End OTPType.

Inductive ComponentType :=
  | HEADER | BODY | FOOTER | BUTTONS | CAROUSEL | LIMITED_TIME_OFFER.

Inductive FlowAction := navigate | data_exchange.

Global Instance TemplateCategory_eq_dec : EqDecision TemplateCategory.
Proof. solve_decision. Defined.
Global Instance HeaderFormat_eq_dec : EqDecision HeaderFormat.
Proof. solve_decision. Defined.
Global Instance ButtonType_eq_dec : EqDecision ButtonType.
Proof. solve_decision. Defined.
Global Instance OTPType_eq_dec : EqDecision OTPType.t.
Proof. solve_decision. Defined.
Global Instance ComponentType_eq_dec : EqDecision ComponentType.
Proof. solve_decision. Defined.

(** The string a tag has at run time. *)
Definition TemplateCategory_str (c : TemplateCategory) : string :=
  match c with
  | MARKETING => "MARKETING" | UTILITY => "UTILITY"
  | AUTHENTICATION => "AUTHENTICATION"
  end.

Definition HeaderFormat_str (f : HeaderFormat) : string :=
  match f with
  | TEXT => "TEXT" | IMAGE => "IMAGE" | VIDEO => "VIDEO"
  | DOCUMENT => "DOCUMENT" | LOCATION => "LOCATION"
  end.

Definition ButtonType_str (b : ButtonType) : string :=
  match b with
  | QUICK_REPLY => "QUICK_REPLY" | URL => "URL"
  | PHONE_NUMBER => "PHONE_NUMBER" | COPY_CODE => "COPY_CODE"
  | OTP => "OTP" | CATALOG => "CATALOG" | MPM => "MPM" | FLOW => "FLOW"
  | ORDER_DETAILS => "ORDER_DETAILS" | VOICE_CALL => "VOICE_CALL"
  end.

Definition ComponentType_str (c : ComponentType) : string :=
  match c with
  | HEADER => "HEADER" | BODY => "BODY" | FOOTER => "FOOTER"
  | BUTTONS => "BUTTONS" | CAROUSEL => "CAROUSEL"
  | LIMITED_TIME_OFFER => "LIMITED_TIME_OFFER"
  end.

(** [ExampleSchema] *)
Record Example := mkExample {
  header_text : option (list string);
  header_url : option (list string);
  body_text : option (list (list string));
}.

(** [ButtonSchema]: the discriminated union of the ten button schemas.
    The three fixed-label buttons carry no data: their [text] is a
    literal type. *)
Inductive Button :=
  | QuickReplyButton (text : string)
  | URLButton (text : string) (url : string) (example : option (list string))
  | PhoneButton (text : string) (phone_number : string)
  | CopyCodeButton (example : option (list string))
  | OTPButton (otp_type : OTPType.t) (text : option string)
      (autofill_text : option string) (package_name : option string)
      (signature_hash : option string)
      (zero_tap_terms_accepted : option bool)
  | CatalogButton
  | MPMButton
  | FlowButton (text : string) (flow_id : string)
      (navigate_screen : option string) (flow_action : option FlowAction)
  | OrderDetailsButton
  | VoiceCallButton (text : string).

(** [ComponentSchema]: the discriminated union of the four component
    schemas. *)
Inductive Component :=
  | HeaderComponent (format : option HeaderFormat) (text : option string)
      (example : option Example)
  | BodyComponent (text : string) (add_security_recommendation : option bool)
      (example : option Example)
  | FooterComponent (text : string) (code_expiration_minutes : option Z)
  | ButtonsComponent (buttons : list Button).

(** [WhatsAppTemplate] *)
Record WhatsAppTemplate := mkTemplate {
  wabaId : option string;
  name : string;
  language : string;
  category : TemplateCategory;
  subCategory : option TemplateSubCategory;
  messageSendTtlSeconds : option Z;
  components : list Component;
}.

(** *** Property access, as the rule engine does it through [any] *)

Definition button_type (b : Button) : ButtonType :=
  match b with
  | QuickReplyButton _ => QUICK_REPLY
  | URLButton _ _ _ => URL
  | PhoneButton _ _ => PHONE_NUMBER
  | CopyCodeButton _ => COPY_CODE
  | OTPButton _ _ _ _ _ _ => OTP
  | CatalogButton => CATALOG
  | MPMButton => MPM
  | FlowButton _ _ _ _ => FLOW
  | OrderDetailsButton => ORDER_DETAILS
  | VoiceCallButton _ => VOICE_CALL
  end.

(** [button.text] ([None] is [undefined]). *)
Definition button_text (b : Button) : option string :=
  match b with
  | QuickReplyButton t | URLButton t _ _ | PhoneButton t _
  | FlowButton t _ _ _ | VoiceCallButton t => Some t
  | CopyCodeButton _ => None
  | OTPButton _ t _ _ _ _ => t
  | CatalogButton => Some "View catalog"
  | MPMButton => Some "View items"
  | OrderDetailsButton => Some "Review and Pay"
  end.

(** [button.url] *)
Definition button_url (b : Button) : option string :=
  match b with URLButton _ u _ => Some u | _ => None end.

(** [button.otp_type] *)
Definition button_otp_type (b : Button) : option OTPType.t :=
  match b with OTPButton o _ _ _ _ _ => Some o | _ => None end.

(** [button.package_name] *)
Definition button_package_name (b : Button) : option string :=
  match b with OTPButton _ _ _ p _ _ => p | _ => None end.

(** [button.zero_tap_terms_accepted] *)
Definition button_zero_tap_terms_accepted (b : Button) : option bool :=
  match b with OTPButton _ _ _ _ _ z => z | _ => None end.

Definition component_type (c : Component) : ComponentType :=
  match c with
  | HeaderComponent _ _ _ => HEADER
  | BodyComponent _ _ _ => BODY
  | FooterComponent _ _ => FOOTER
  | ButtonsComponent _ => BUTTONS
  end.

(** [component.format] *)
Definition component_format (c : Component) : option HeaderFormat :=
  match c with HeaderComponent f _ _ => f | _ => None end.

(** [component.text] *)
Definition component_text (c : Component) : option string :=
  match c with
  | HeaderComponent _ t _ => t
  | BodyComponent t _ _ | FooterComponent t _ => Some t
  | ButtonsComponent _ => None
  end.

(** [component.example] *)
Definition component_example (c : Component) : option Example :=
  match c with
  | HeaderComponent _ _ e | BodyComponent _ _ e => e
  | _ => None
  end.

(** [component.buttons] *)
Definition component_buttons (c : Component) : option (list Button) :=
  match c with ButtonsComponent bs => Some bs | _ => None end.

(** [component.add_security_recommendation] *)
Definition component_add_security_recommendation (c : Component)
  : option bool :=
  match c with BodyComponent _ a _ => a | _ => None end.

(** [components.find((c) => c.type === ty)] *)
Definition find_component (ty : ComponentType) (cs : list Component)
  : option Component :=
  List.find (λ c, bool_decide (component_type c = ty)) cs.

(** [example?.header_url] *)
Definition example_header_url (e : option Example) : option (list string) :=
  match e with Some ex => header_url ex | None => None end.

(** ** Placeholder scanning: [text.matchAll(/\{\{(\d+)\}\}/g)] *)

(** The longest run of digits at the start of [s], and what follows. *)
Fixpoint span_digits (s : string) : list ascii * string :=
  match s with
  | String c s' =>
      if JS.is_digit c
      then let '(ds, r) := span_digits s' in (c :: ds, r)
      else ([], s)
  | EmptyString => ([], s)
  end.

(** A match of [\{\{(\d+)\}\}] anchored at the start of [s]: the captured
    digits. [\d+] is greedy and a digit is never a brace, so the only
    candidate is the longest run. *)
Definition match_at (s : string) : option (list ascii) :=
  match s with
  | String "{" (String "{" r) =>
      match span_digits r with
      | (d :: ds, String "}" (String "}" _)) => Some (d :: ds)
      | _ => None
      end
  | _ => None
  end.

(** All matches, left to right, without overlap: after a match the scan
    resumes behind it ([skip] counts the characters of the current match
    still to be passed over). *)
Fixpoint matchAll_from (skip : nat) (s : string) : list (list ascii) :=
  match s with
  | EmptyString => []
  | String _ s' =>
      match skip with
      | S k => matchAll_from k s'
      | 0 =>
          match match_at s with
          | Some ds => ds :: matchAll_from (3 + length ds) s'
          | None => matchAll_from 0 s'
          end
      end
  end.

Definition matchAll (text : string) : list (list ascii) :=
  matchAll_from 0 text.

(** [matches.map((match) => parseInt(match[1])).sort((a, b) => a - b)] *)
Definition sortedVariables (text : string) : list N :=
  merge_sort N.le (JS.parseInt <$> matchAll text).

(** ** The structural layer ([template-schema.ts]) *)

(** The [for] loop of the first refinement of [createTextValidator]:
    [false] at the first [i] with [variables[i] !== i + 1]. *)
Fixpoint sequentialLoop (i : nat) (variables : list N) : bool :=
  match variables with
  | [] => true
  | v :: rest =>
      if negb (v =? N.of_nat (i + 1))%N then false
      else sequentialLoop (S i) rest
  end.

(** The first [.refine] callback of [createTextValidator(maxLength,
    allowVariables)]: the variable-sequencing check. *)
Definition sequentialRefine (allowVariables : bool) (text : string) : bool :=
  if negb allowVariables then true
  else
    let matches := matchAll text in
    if length matches =? 0 then true
    else sequentialLoop 0 (sortedVariables text).

(** The refinements on [components] in [WhatsAppTemplateSchema]. *)
Definition count_type (ty : ComponentType) (cs : list Component) : nat :=
  length (filter (λ c, component_type c = ty) cs).

Definition exactlyOneBody (cs : list Component) : bool :=
  count_type BODY cs =? 1.

Definition atMostOneEach (cs : list Component) : bool :=
  (count_type HEADER cs <=? 1) && (count_type FOOTER cs <=? 1)
  && (count_type BUTTONS cs <=? 1).

Definition headerRequirements (cs : list Component) : bool :=
  match find_component HEADER cs with
  | None => true
  | Some headerComponent =>
      if bool_decide (component_format headerComponent = Some TEXT)
         && negb (JS.truthy_ostr (component_text headerComponent))
      then false
      else if JS.truthy_oobj (component_format headerComponent)
              && negb (bool_decide
                         (component_format headerComponent = Some TEXT))
              && negb (JS.truthy_oobj
                         (example_header_url
                            (component_example headerComponent)))
      then false
      else true
  end.

Definition componentsRefinements (cs : list Component) : bool :=
  exactlyOneBody cs && atMostOneEach cs && headerRequirements cs.

(** ** Diagnostics and the accumulator ([TemplateValidator]) *)

Module Severity.
Inductive t := error | warning | info.
End Severity.

Global Instance Severity_eq_dec : EqDecision Severity.t.
Proof. solve_decision. Defined.

Record ValidationError := mkDiag {
  field : string;
  message : string;
  suggestion : option string;
  line : option nat;
  severity : Severity.t;
}.

Record ValidationResult := mkResult {
  isValid : bool;
  errors : list ValidationError;
  warnings : list ValidationError;
  info : list ValidationError;
}.

(** The private arrays [this.errors], [this.warnings], [this.info] of a
    [TemplateValidator]. *)
Record Acc := mkAcc {
  this_errors : list ValidationError;
  this_warnings : list ValidationError;
  this_info : list ValidationError;
}.

(** A method that only pushes onto the arrays. *)
Definition Pass := Acc → Acc.

Definition empty_acc : Acc := mkAcc [] [] [].

Definition addError (field message : string) (suggestion : option string)
  : Pass := λ this,
  mkAcc (this_errors this
           ++ [mkDiag field message suggestion None Severity.error])
        (this_warnings this) (this_info this).

Definition addWarning (field message : string) (suggestion : option string)
  : Pass := λ this,
  mkAcc (this_errors this)
        (this_warnings this
           ++ [mkDiag field message suggestion None Severity.warning])
        (this_info this).

Definition addInfo (field message : string) (suggestion : option string)
  : Pass := λ this,
  mkAcc (this_errors this) (this_warnings this)
        (this_info this
           ++ [mkDiag field message suggestion None Severity.info]).

(** Statement sequencing and the one-armed [if]. *)
Definition skip : Pass := λ this, this.
Definition andThen (p q : Pass) : Pass := λ this, q (p this).
Definition when (b : bool) (p : Pass) : Pass := if b then p else skip.

Infix ">>>" := andThen (at level 62, right associativity).

(** [array.forEach((x, index) => ...)] *)
Fixpoint forEachFrom {A} (f : A → nat → Pass) (i : nat) (l : list A) : Pass :=
  match l with
  | [] => skip
  | x :: l' => f x i >>> forEachFrom f (S i) l'
  end.

Definition forEach {A} (f : A → nat → Pass) (l : list A) : Pass :=
  forEachFrom f 0 l.

(** [array?.forEach(...)] *)
Definition forEachOpt {A} (f : A → nat → Pass) (l : option (list A)) : Pass :=
  match l with Some l => forEach f l | None => skip end.

(** ** The rule engine ([TemplateValidator]) *)

(** [`prefix[${i}]suffix`] *)
Definition indexed (prefix : string) (i : nat) (suffix : string) : string :=
  prefix +:+ "[" +:+ pretty i +:+ "]" +:+ suffix.

(** *** Pass 1: [validateBasicStructure] *)

Definition componentOrder : list ComponentType :=
  [HEADER; BODY; FOOTER; BUTTONS].

(** [Array.prototype.indexOf]: [-1] when absent. *)
Fixpoint indexOf_from (i : nat) (x : ComponentType) (l : list ComponentType)
  : Z :=
  match l with
  | [] => (-1)%Z
  | y :: l' => if decide (y = x) then Z.of_nat i else indexOf_from (S i) x l'
  end.

Definition indexOf (l : list ComponentType) (x : ComponentType) : Z :=
  indexOf_from 0 x l.

(** The [forEach] over the components, with its captured
    [lastValidIndex]. *)
Fixpoint orderLoop (cs : list Component) (index : nat) (lastValidIndex : Z)
  : Pass :=
  match cs with
  | [] => skip
  | component :: cs' =>
      let currentIndex := indexOf componentOrder (component_type component) in
      when (currentIndex <? lastValidIndex)%Z
        (addWarning
           (indexed "components" index "")
           ("Component " +:+ ComponentType_str (component_type component)
              +:+ " should come before previous components")
           (Some ("Reorder components: "
                    +:+ JS.join " → " (ComponentType_str <$> componentOrder))))
      >>> orderLoop cs' (S index) (Z.max lastValidIndex currentIndex)
  end.

Definition validateBasicStructure (template : WhatsAppTemplate) : Pass :=
  let bodyComponent := find_component BODY (components template) in
  when (negb (JS.truthy_oobj bodyComponent))
    (addError "components" "Template must have a BODY component"
       (Some "Add a BODY component with your message text"))
  >>> orderLoop (components template) 0 (-1)%Z.

(** *** Pass 2: [validateCategorySpecificRules] *)

(** [template.messageSendTtlSeconds && (ttl < lo || ttl > hi)] *)
Definition ttlOutside (o : option Z) (lo hi : Z) : bool :=
  JS.truthy_onum o &&
  match o with
  | Some ttl => (ttl <? lo)%Z || (hi <? ttl)%Z
  | None => false
  end.

Definition validateAuthenticationTemplate (template : WhatsAppTemplate)
  : Pass :=
  let bodyComponent := find_component BODY (components template) in
  let buttonComponent := find_component BUTTONS (components template) in
  match buttonComponent with
  | Some bc =>
      let hasOTPButton :=
        existsb (λ b, bool_decide (button_type b = OTP))
          <$> component_buttons bc in
      when (negb (JS.truthy_obool hasOTPButton))
        (addWarning "buttons"
           "Authentication templates typically use OTP buttons for better user experience"
           (Some "Consider adding an OTP button (COPY_CODE, ONE_TAP, or ZERO_TAP)"))
  | None => skip
  end
  >>> when (ttlOutside (messageSendTtlSeconds template) 30 900)
        (addError "messageSendTtlSeconds"
           "Authentication templates TTL must be between 30 seconds and 15 minutes (900 seconds)"
           (Some "Set TTL between 30 and 900 seconds"))
  >>> match bodyComponent with
      | Some bc =>
          when (negb (JS.truthy_obool
                        (component_add_security_recommendation bc)))
            (addInfo "body.add_security_recommendation"
               "Consider adding security recommendation for authentication templates"
               (Some "Set add_security_recommendation to true"))
      | None => skip
      end.

Definition validateUtilityTemplate (template : WhatsAppTemplate) : Pass :=
  when (ttlOutside (messageSendTtlSeconds template) 30 43200)
    (addError "messageSendTtlSeconds"
       "Utility templates TTL must be between 30 seconds and 12 hours (43200 seconds)"
       (Some "Set TTL between 30 and 43200 seconds"))
  >>> match subCategory template with
      | Some ORDER_STATUS =>
          let buttonComponent :=
            find_component BUTTONS (components template) in
          when (JS.truthy_oobj buttonComponent)
            (addWarning "buttons"
               "Order status templates typically don't need buttons"
               (Some "Consider removing buttons for order status updates"))
      | None => skip
      end.

Definition validateMarketingTemplate (template : WhatsAppTemplate) : Pass :=
  when (ttlOutside (messageSendTtlSeconds template) 43200 2592000)
    (addError "messageSendTtlSeconds"
       "Marketing templates TTL must be between 12 hours (43200 seconds) and 30 days (2592000 seconds)"
       (Some "Set TTL between 43200 and 2592000 seconds"))
  >>> (let headerComponent := find_component HEADER (components template) in
       when (negb (JS.truthy_oobj headerComponent))
         (addInfo "header"
            "Marketing templates perform better with media headers"
            (Some "Consider adding an IMAGE, VIDEO, or DOCUMENT header")))
  >>> (let buttonComponent := find_component BUTTONS (components template) in
       when (negb (JS.truthy_oobj buttonComponent))
         (addInfo "buttons"
            "Marketing templates benefit from call-to-action buttons"
            (Some "Consider adding URL or QUICK_REPLY buttons"))).

Definition validateCategorySpecificRules (template : WhatsAppTemplate)
  : Pass :=
  match category template with
  | AUTHENTICATION => validateAuthenticationTemplate template
  | UTILITY => validateUtilityTemplate template
  | MARKETING => validateMarketingTemplate template
  end.

(** *** Pass 3: [validateComponentCombinations] *)

Definition isMediaFormat (f : option HeaderFormat) : bool :=
  JS.truthy_oobj f && negb (bool_decide (f = Some TEXT)).

Definition checkOTPButton (button : Button) (index : nat) : Pass :=
  when (bool_decide (button_type button = OTP)
        && bool_decide (button_otp_type button = Some OTPType.ONE_TAP)
        && negb (JS.truthy_ostr (button_package_name button)))
    (addError (indexed "buttons" index ".package_name")
       "ONE_TAP OTP buttons require package_name"
       (Some "Add your Android app's package name"))
  >>> when (bool_decide (button_type button = OTP)
            && bool_decide (button_otp_type button = Some OTPType.ZERO_TAP)
            && negb (JS.truthy_obool (button_zero_tap_terms_accepted button)))
        (addError (indexed "buttons" index ".zero_tap_terms_accepted")
           "ZERO_TAP OTP buttons require terms acceptance"
           (Some "Set zero_tap_terms_accepted to true")).

Definition validateComponentCombinations (template : WhatsAppTemplate)
  : Pass :=
  let headerComponent := find_component HEADER (components template) in
  let buttonComponent := find_component BUTTONS (components template) in
  match headerComponent with
  | Some hc =>
      when (bool_decide (component_format hc = Some TEXT)
            && negb (JS.truthy_ostr (component_text hc)))
        (addError "header.text" "TEXT header format requires text content"
           (Some "Add text or change format"))
      >>> when (isMediaFormat (component_format hc)
                && negb (JS.truthy_oobj
                           (example_header_url (component_example hc))))
            (addError "header.example.header_url"
               (from_option HeaderFormat_str "" (component_format hc)
                  +:+ " header format requires example URL")
               (Some "Add example URL for media header"))
  | None => skip
  end
  >>> match buttonComponent with
      | Some bc => forEachOpt checkOTPButton (component_buttons bc)
      | None => skip
      end.

(** *** Pass 4: [validateVariableUsage] *)

(** The [for] loop of [validateVariablesInText]: one error at the first
    [i] with [variables[i] !== i + 1], then [break]. [variables] is the
    whole array (for the message), [rest] what is still to be visited.
    The message prints the numbers as decimal digits, as
    [variables.join] does for numbers below 2^53. *)
Fixpoint sequenceLoop (field : string) (variables : list N) (i : nat)
    (rest : list N) : Pass :=
  match rest with
  | [] => skip
  | v :: rest' =>
      if negb (v =? N.of_nat (i + 1))%N
      then addError field
             ("Variables must be sequential starting from {{1}}. Found: {{"
                +:+ JS.join "}}, {{" (pretty <$> variables) +:+ "}}")
             (Some "Use variables {{1}}, {{2}}, {{3}}, etc. in sequence")
      else sequenceLoop field variables (S i) rest'
  end.

(** [Array.from(new Set(variables))] *)
Definition uniqueVariables (variables : list N) : gset N :=
  list_to_set variables.

Definition validateVariablesInText (text field : string) : Pass :=
  let matches := matchAll text in
  when (0 <? length matches)
    (let variables := sortedVariables text in
     sequenceLoop field variables 0 variables
     >>> when (negb (size (uniqueVariables variables) =? length variables))
           (addWarning field "Duplicate variables found"
              (Some "Each variable should be used only once per component"))).

Definition checkURLButton (button : Button) (buttonIndex : nat) : Pass :=
  when (bool_decide (button_type button = URL)
        && JS.truthy_ostr (button_url button))
    (match button_url button with
     | Some url =>
         validateVariablesInText url (indexed "buttons" buttonIndex ".url")
     | None => skip
     end).

Definition checkComponentVariables (component : Component) (_ : nat)
  : Pass :=
  let ty := component_type component in
  when (bool_decide (ty = BODY)
        || (bool_decide (ty = HEADER)
            && bool_decide (component_format component = Some TEXT)))
    (match component_text component with
     | Some text =>
         when (JS.truthy_str text)
           (validateVariablesInText text
              (JS.toLowerCase (ComponentType_str ty) +:+ ".text"))
     | None => skip
     end)
  >>> when (bool_decide (ty = BUTTONS))
        (forEachOpt checkURLButton (component_buttons component)).

Definition validateVariableUsage (template : WhatsAppTemplate) : Pass :=
  forEach checkComponentVariables (components template).

(** *** Pass 5: [validateCharacterLimits] *)

(** [text.length > maxLength * 0.9] is [10 * text.length > 9 * maxLength]:
    for the three limits in use the product is 54, 921.6 and 22.5, and the
    floating-point product rounds to no integer other than 54. *)
Definition validateTextLength (text : string) (maxLength : nat)
    (field : string) : Pass :=
  let len := String.length text in
  when (maxLength <? len)
    (addError field
       ("Text exceeds " +:+ pretty maxLength
          +:+ " character limit (current: " +:+ pretty len +:+ ")")
       (Some ("Reduce text by " +:+ pretty (len - maxLength)
                +:+ " characters")))
  >>> when (9 * maxLength <? 10 * len)
        (addWarning field
           ("Text is close to " +:+ pretty maxLength
              +:+ " character limit (current: " +:+ pretty len +:+ ")")
           (Some "Consider shortening the text to avoid future issues")).

Definition checkButtonText (button : Button) (buttonIndex : nat) : Pass :=
  match button_text button with
  | Some text =>
      when (JS.truthy_str text)
        (validateTextLength text 25 (indexed "buttons" buttonIndex ".text"))
  | None => skip
  end.

Definition checkComponentLimits (component : Component) (_ : nat) : Pass :=
  match component with
  | HeaderComponent format text _ =>
      when (bool_decide (format = Some TEXT) && JS.truthy_ostr text)
        (match text with
         | Some text => validateTextLength text 60 "header.text"
         | None => skip
         end)
  | BodyComponent text _ _ => validateTextLength text 1024 "body.text"
  | FooterComponent text _ => validateTextLength text 60 "footer.text"
  | ButtonsComponent buttons => forEach checkButtonText buttons
  end.

Definition validateCharacterLimits (template : WhatsAppTemplate) : Pass :=
  forEach checkComponentLimits (components template).

(** *** Pass 6: [validateButtonCombinations] *)

(** The [reduce] that counts the buttons per type, keyed by the type's
    name. *)
Definition countButton (counts : gmap string nat) (button : Button)
  : gmap string nat :=
  let key := ButtonType_str (button_type button) in
  <[key := default 0 (counts !! key) + 1]> counts.

Definition buttonCounts (buttons : list Button) : gmap string nat :=
  foldl countButton ∅ buttons.

(** [counts.KEY > k]; a missing key is [undefined], and the comparison
    is false. *)
Definition countAbove (counts : gmap string nat) (key : string) (k : nat)
  : bool :=
  match counts !! key with Some n => k <? n | None => false end.

Definition quickReplyIndices (buttons : list Button) : list Z :=
  filter (λ i, i ≠ (-1)%Z)
    (imap (λ i b, if decide (button_type b = QUICK_REPLY)
                  then Z.of_nat i else (-1)%Z) buttons).

(** [array.every((x, i) => ...)] *)
Fixpoint everyFrom {A} (f : A → nat → bool) (i : nat) (l : list A) : bool :=
  match l with
  | [] => true
  | x :: l' => f x i && everyFrom f (S i) l'
  end.

Definition isGrouped (indices : list Z) : bool :=
  everyFrom
    (λ index i,
       (i =? 0) ||
       match indices !! (i - 1) with
       | Some prev => (index =? prev + 1)%Z
       | None => false
       end)
    0 indices.

Definition validateButtonCombinations (template : WhatsAppTemplate) : Pass :=
  match find_component BUTTONS (components template) with
  | None => skip
  | Some buttonComponent =>
      match component_buttons buttonComponent with
      | None => skip
      | Some buttons =>
          let counts := buttonCounts buttons in
          when (countAbove counts "PHONE_NUMBER" 1)
            (addError "buttons" "Maximum 1 phone number button allowed"
               (Some "Remove extra phone number buttons"))
          >>> when (countAbove counts "URL" 2)
                (addError "buttons" "Maximum 2 URL buttons allowed"
                   (Some "Remove extra URL buttons"))
          >>> when (countAbove counts "COPY_CODE" 1)
                (addError "buttons" "Maximum 1 copy code button allowed"
                   (Some "Remove extra copy code buttons"))
          >>> (let indices := quickReplyIndices buttons in
               when (0 <? length indices)
                 (when (negb (isGrouped indices))
                    (addError "buttons"
                       "Quick reply buttons must be grouped together"
                       (Some "Move all quick reply buttons to the beginning or end of the button list"))))
      end
  end.

(** *** Pass 7: [validateMediaRequirements] *)

(** [url.match(/\.(ext1|ext2|...)$/i)] *)
Definition hasExtension (url : string) (exts : list string) : bool :=
  existsb (λ ext, JS.endsWith (JS.toLowerCase url) ("." +:+ ext)) exts.

Definition checkMediaExtension (format : HeaderFormat) (url : string)
  : Pass :=
  match format with
  | IMAGE =>
      when (negb (hasExtension url ["jpg"; "jpeg"; "png"]))
        (addError "header.example.header_url"
           "Image header URL must end with .jpg, .jpeg, or .png"
           (Some "Use a valid image file extension"))
  | VIDEO =>
      when (negb (hasExtension url ["mp4"]))
        (addError "header.example.header_url"
           "Video header URL must end with .mp4"
           (Some "Use a valid MP4 video file"))
  | DOCUMENT =>
      when (negb (hasExtension url ["pdf"]))
        (addError "header.example.header_url"
           "Document header URL must end with .pdf"
           (Some "Use a valid PDF document file"))
  | _ => skip
  end.

Definition validateMediaRequirements (template : WhatsAppTemplate) : Pass :=
  match find_component HEADER (components template) with
  | None => skip
  | Some headerComponent =>
      match component_format headerComponent with
      | None | Some TEXT => skip
      | Some format =>
          let urls := example_header_url (component_example headerComponent) in
          let first := urls ≫= (λ l, l !! 0) in
          if negb (JS.truthy_oobj urls) || negb (JS.truthy_ostr first)
          then addError "header.example.header_url"
                 (HeaderFormat_str format +:+ " header requires example URL")
                 (Some "Add a valid example URL for the media")
          else match first with
               | Some url => checkMediaExtension format url
               | None => skip
               end
      end
  end.

(** *** Pass 8: [validateTTLSettings] *)

Definition validateTTLSettings (template : WhatsAppTemplate) : Pass :=
  if negb (JS.truthy_onum (messageSendTtlSeconds template))
  then addInfo "messageSendTtlSeconds"
         "Consider setting a TTL (time-to-live) for your template"
         (Some "Add messageSendTtlSeconds based on your template category")
  else match messageSendTtlSeconds template with
       | Some ttl =>
           when (ttl <? 30)%Z
             (addError "messageSendTtlSeconds"
                "TTL cannot be less than 30 seconds"
                (Some "Set TTL to at least 30 seconds"))
           >>> when (2592000 <? ttl)%Z
                 (addError "messageSendTtlSeconds"
                    "TTL cannot exceed 30 days (2592000 seconds)"
                    (Some "Set TTL to maximum 2592000 seconds"))
       | None => skip
       end.

(** *** [validate] *)

Definition runPasses (template : WhatsAppTemplate) : Pass :=
  validateBasicStructure template
  >>> validateCategorySpecificRules template
  >>> validateComponentCombinations template
  >>> validateVariableUsage template
  >>> validateCharacterLimits template
  >>> validateButtonCombinations template
  >>> validateMediaRequirements template
  >>> validateTTLSettings template.

Definition validate (template : WhatsAppTemplate) : ValidationResult :=
  let this := runPasses template empty_acc in
  mkResult (length (this_errors this) =? 0) (this_errors this)
           (this_warnings this) (this_info this).

(** ** [TemplateParser] *)

(** [text.split('\n')]: never empty. *)
Fixpoint split_newline (s : string) : list string :=
  match s with
  | EmptyString => [""]
  | String c s' =>
      if Ascii.eqb c "010"
      then "" :: split_newline s'
      else match split_newline s' with
           | seg :: segs => String c seg :: segs
           | [] => [String c ""]
           end
  end.

(** [text.substring(0, position)]: the end index is clamped to the
    length of the text. *)
Definition substring0 (position : nat) (text : string) : string :=
  String.substring 0 position text.

Record LineColumn := mkLineColumn { lc_line : nat; lc_column : nat }.

Definition getLineAndColumn (text : string) (position : nat) : LineColumn :=
  let lines := split_newline (substring0 position text) in
  mkLineColumn (length lines)
               (String.length (List.last lines "") + 1).

Definition generateExampleTemplate (category : TemplateCategory)
  : WhatsAppTemplate :=
  let baseName :=
    "example_" +:+ JS.toLowerCase (TemplateCategory_str category)
      +:+ "_template" in
  match category with
  | AUTHENTICATION =>
      mkTemplate None baseName "en_US" category None (Some 600%Z)
        [ BodyComponent
            "{{1}} is your verification code. For your security, do not share this code."
            (Some true)
            (Some (mkExample None None (Some [["123456"]])));
          FooterComponent "This code expires in 5 minutes." (Some 5%Z);
          ButtonsComponent
            [ OTPButton OTPType.COPY_CODE (Some "Copy Code") None None None
                None ] ]
  | UTILITY =>
      mkTemplate None baseName "en_US" category None None
        [ BodyComponent
            "Your order {{1}} for a total of {{2}} is confirmed. The expected delivery is {{3}}."
            None
            (Some (mkExample None None
                     (Some [["ORDER-5555"; "99 USD"; "February 25, 2023"]]))) ]
  | MARKETING =>
      mkTemplate None baseName "en_US" category None None
        [ HeaderComponent (Some IMAGE) None
            (Some (mkExample None (Some ["https://example.com/image.jpg"])
                     None));
          BodyComponent
            "Hi {{1}}, check out our amazing deals! Get {{2}} off your next purchase."
            None
            (Some (mkExample None None (Some [["John"; "20%"]])));
          FooterComponent "Limited time offer" None;
          ButtonsComponent
            [ URLButton "Shop Now" "https://example.com/shop" None;
              QuickReplyButton "Learn More" ] ]
  end.

(** ** The structural layer: the remaining checks of the schema *)

(** *** [createTextValidator] *)

(** The longest run of characters other than a closing brace at the
    start of [s], and what follows. *)
Fixpoint span_not_close (s : string) : list ascii * string :=
  match s with
  | String c s' =>
      if Ascii.eqb c "}" then ([], s)
      else let '(body, r) := span_not_close s' in (c :: body, r)
  | EmptyString => ([], s)
  end.

(** A match of [\{\{[^}]*\}\}] anchored at the start of [s]: what stands
    between the braces. [[^}]*] is greedy and cannot give a character
    back to [\}\}], so the only candidate is the longest run. *)
Definition group_at (s : string) : option (list ascii) :=
  match s with
  | String "{" (String "{" r) =>
      match span_not_close r with
      | (body, String "}" (String "}" _)) => Some body
      | _ => None
      end
  | _ => None
  end.

(** [text.match(/\{\{[^}]*\}\}/g)]: all matches, left to right, without
    overlap ([null] is the empty list). *)
Fixpoint groupAll_from (skip : nat) (s : string) : list (list ascii) :=
  match s with
  | EmptyString => []
  | String _ s' =>
      match skip with
      | S k => groupAll_from k s'
      | 0 =>
          match group_at s with
          | Some body => body :: groupAll_from (3 + length body) s'
          | None => groupAll_from 0 s'
          end
      end
  end.

Definition groupAll (text : string) : list (list ascii) :=
  groupAll_from 0 text.

(** [v.match(/^\{\{\d+\}\}$/)] for a match [v] with the given body. *)
Definition isNumericGroup (body : list ascii) : bool :=
  (0 <? length body) && forallb JS.is_digit body.

(** The second [.refine] callback of [createTextValidator]: no brace
    group other than [{{digits}}]. *)
Definition formatRefine (text : string) : bool :=
  let invalidVariables :=
    List.filter (λ body, negb (isNumericGroup body)) (groupAll text) in
  length invalidVariables =? 0.

(** [createTextValidator(maxLength, allowVariables)] accepts [text]. *)
Definition createTextValidator (maxLength : nat) (allowVariables : bool)
    (text : string) : bool :=
  (1 <=? String.length text)
  && (String.length text <=? maxLength)
  && sequentialRefine allowVariables text
  && formatRefine text.

(** *** Regular expressions of the schema *)

Definition is_lower (c : ascii) : bool :=
  let n := nat_of_ascii c in (97 <=? n) && (n <=? 122).

(** A character of the class [[a-z0-9_]]. *)
Definition isNameChar (c : ascii) : bool :=
  is_lower c || JS.is_digit c || Ascii.eqb c "_".

Fixpoint forallb_str (f : ascii → bool) (s : string) : bool :=
  match s with
  | EmptyString => true
  | String c s' => f c && forallb_str f s'
  end.

(** [/^[a-z0-9_]+$/.test(name)] *)
Definition nameRegex (name : string) : bool :=
  JS.truthy_str name && forallb_str isNameChar name.

(** [/^[a-z]{2}(_[A-Z]{2})?$/] *)
Definition languageRegex (language : string) : bool :=
  match language with
  | String a (String b rest) =>
      is_lower a && is_lower b &&
      match rest with
      | EmptyString => true
      | String u (String c (String d EmptyString)) =>
          Ascii.eqb u "_" && JS.is_upper c && JS.is_upper d
      | _ => false
      end
  | _ => false
  end.

(** [/^\+[1-9]\d{1,14}$/] *)
Definition phoneRegex (phone : string) : bool :=
  match phone with
  | String p (String d rest) =>
      Ascii.eqb p "+" && JS.is_digit d && negb (Ascii.eqb d "0")
      && (1 <=? String.length rest) && (String.length rest <=? 14)
      && forallb_str JS.is_digit rest
  | _ => false
  end.

(** *** The refinements on [buttons] *)

(** What a callback does: return a value, or throw. *)
Inductive Outcome (A : Type) :=
  | Returns (a : A)
  | Throws.
Arguments Returns {A} a.
Arguments Throws {A}.

(** [buttons.findIndex((b) => b.type === "QUICK_REPLY")] *)
Fixpoint findIndex_from (i : nat) (buttons : list Button) : Z :=
  match buttons with
  | [] => (-1)%Z
  | b :: buttons' =>
      if decide (button_type b = QUICK_REPLY) then Z.of_nat i
      else findIndex_from (S i) buttons'
  end.

(** [array.pop() || -1]: the last element, [-1] when there is none or
    when it is [0]. *)
Definition popOrMinusOne (l : list Z) : Z :=
  match List.last (Some <$> l) None with
  | Some i => if (i =? 0)%Z then (-1)%Z else i
  | None => (-1)%Z
  end.

(** [buttons[i]] for a number [i] ([None] is [undefined]). *)
Definition buttonAt (buttons : list Button) (i : Z) : option Button :=
  if (i <? 0)%Z then None else buttons !! Z.to_nat i.

(** The body of [for (let i = first; i <= last; i++)], over the values
    of [i] still to be visited: reading [.type] of a missing element
    throws. *)
Fixpoint groupLoop (buttons : list Button) (todo : list Z) : Outcome bool :=
  match todo with
  | [] => Returns true
  | i :: todo' =>
      match buttonAt buttons i with
      | None => Throws
      | Some b =>
          if decide (button_type b ≠ QUICK_REPLY) then Returns false
          else groupLoop buttons todo'
      end
  end.

(** The first refinement on [buttons]: quick replies are consecutive. *)
Definition quickReplyGroupedRefine (buttons : list Button) : Outcome bool :=
  let quickReplyButtons :=
    filter (λ b, button_type b = QUICK_REPLY) buttons in
  let otherButtons := filter (λ b, button_type b ≠ QUICK_REPLY) buttons in
  if (0 <? length quickReplyButtons) && (0 <? length otherButtons)
  then
    let firstQuickReplyIndex := findIndex_from 0 buttons in
    let lastQuickReplyIndex := popOrMinusOne (quickReplyIndices buttons) in
    groupLoop buttons
      (seqZ firstQuickReplyIndex
         (lastQuickReplyIndex - firstQuickReplyIndex + 1))
  else Returns true.

(** The second refinement on [buttons]: the caps per type. *)
Definition buttonLimitsRefine (buttons : list Button) : bool :=
  let phoneButtons := filter (λ b, button_type b = PHONE_NUMBER) buttons in
  let urlButtons := filter (λ b, button_type b = URL) buttons in
  let copyCodeButtons := filter (λ b, button_type b = COPY_CODE) buttons in
  (length phoneButtons <=? 1) && (length urlButtons <=? 2)
  && (length copyCodeButtons <=? 1).

(** *** The object schemas, as the values they accept *)

Section Schema.

(** The check of Zod's [.url()], which the repository does not
    define. *)
Context (zod_url : string → bool).

Definition optional {A} (schema : A → bool) (o : option A) : bool :=
  match o with Some a => schema a | None => true end.

Definition ExampleSchema (example : option Example) : bool :=
  optional (λ ex, optional (forallb zod_url) (header_url ex)) example.

Definition HeaderComponentBaseSchema (text : option string)
    (example : option Example) : bool :=
  optional (createTextValidator 60 true) text && ExampleSchema example.

Definition BodyComponentSchema (text : string) (example : option Example)
  : bool :=
  createTextValidator 1024 true text && ExampleSchema example.

Definition FooterComponentSchema (text : string)
    (code_expiration_minutes : option Z) : bool :=
  createTextValidator 60 false text
  && optional (λ m, (1 <=? m)%Z && (m <=? 60)%Z) code_expiration_minutes.

Definition ButtonSchema (button : Button) : bool :=
  match button with
  | QuickReplyButton text => createTextValidator 25 false text
  | URLButton text url example =>
      createTextValidator 25 false text
      && zod_url url && (String.length url <=? 2000)
      && optional (forallb zod_url) example
  | PhoneButton text phone_number =>
      createTextValidator 25 false text && phoneRegex phone_number
  | CopyCodeButton _ => true
  | OTPButton _ text autofill_text _ _ _ =>
      optional (createTextValidator 25 false) text
      && optional (createTextValidator 25 false) autofill_text
  | CatalogButton | MPMButton | OrderDetailsButton => true
  | FlowButton text _ _ _ => createTextValidator 25 false text
  | VoiceCallButton text => createTextValidator 25 false text
  end.

Definition ButtonsComponentSchema (buttons : list Button) : bool :=
  (1 <=? length buttons) && (length buttons <=? 10)
  && forallb ButtonSchema buttons
  && match quickReplyGroupedRefine buttons with
     | Returns b => b
     | Throws => false
     end
  && buttonLimitsRefine buttons.

Definition ComponentSchema (component : Component) : bool :=
  match component with
  | HeaderComponent _ text example => HeaderComponentBaseSchema text example
  | BodyComponent text _ example => BodyComponentSchema text example
  | FooterComponent text minutes => FooterComponentSchema text minutes
  | ButtonsComponent buttons => ButtonsComponentSchema buttons
  end.

Definition WhatsAppTemplateSchema (template : WhatsAppTemplate) : bool :=
  (1 <=? String.length (name template))
  && (String.length (name template) <=? 512)
  && nameRegex (name template)
  && (2 <=? String.length (language template))
  && languageRegex (language template)
  && optional (λ ttl, (30 <=? ttl)%Z && (ttl <=? 2592000)%Z)
       (messageSendTtlSeconds template)
  && (1 <=? length (components template))
  && forallb ComponentSchema (components template)
  && componentsRefinements (components template).

End Schema.

(** ** [TemplateParser], continued *)

Module JSString.

(** [s.startsWith(prefix)] *)
Fixpoint startsWith (s prefix : string) : bool :=
  match prefix with
  | EmptyString => true
  | String a prefix' =>
      match s with
      | EmptyString => false
      | String b s' => Ascii.eqb a b && startsWith s' prefix'
      end
  end.

(** [s.includes(needle)] *)
Fixpoint includes (s needle : string) : bool :=
  startsWith s needle
  || match s with
     | EmptyString => false
     | String _ s' => includes s' needle
     end.

End JSString.

(** *** [validateTemplateName] *)

Record NameValidation := mkNameValidation {
  valid : bool;
  name_error : option string;
  name_suggestion : option string;
}.

Definition validateTemplateName (name : string) : NameValidation :=
  if negb (JS.truthy_str name)
  then mkNameValidation false (Some "Template name is required")
         (Some "Enter a template name using lowercase letters, numbers, and underscores")
  else if 512 <? String.length name
  then mkNameValidation false
         (Some "Template name cannot exceed 512 characters")
         (Some ("Reduce name by " +:+ pretty (String.length name - 512)
                  +:+ " characters"))
  else if negb (nameRegex name)
  then mkNameValidation false
         (Some "Template name can only contain lowercase letters, numbers, and underscores")
         (Some "Use only a-z, 0-9, and _ characters. Example: my_template_name")
  else if String.length name <? 3
  then mkNameValidation true (Some "Template name is very short")
         (Some "Consider using a more descriptive name (3+ characters)")
  else if JSString.includes name "__"
  then mkNameValidation true
         (Some "Template name contains consecutive underscores")
         (Some "Use single underscores to separate words")
  else mkNameValidation true None None.

(** *** [getTemplateStats] *)

Definition estimateMessageSize (characters : nat) : string :=
  if characters <? 100 then "Small"
  else if characters <? 500 then "Medium"
  else if characters <? 1000 then "Large"
  else "Very Large".

(** [countVariables]: the number of matches of [\{\{\d+\}\}]. *)
Definition countVariables (text : string) : nat := length (matchAll text).

Module Stats.

Record ComponentCounts := mkCounts {
  header : nat;
  body : nat;
  footer : nat;
  buttons : nat;
}.

Record TemplateStats := mkStats {
  totalCharacters : nat;
  componentCounts : ComponentCounts;
  variableCount : nat;
  buttonCount : nat;
  estimatedSize : string;
}.

(** The local variables of [getTemplateStats]. *)
Record Locals := mkLocals {
  l_totalCharacters : nat;
  l_variableCount : nat;
  l_buttonCount : nat;
  l_componentCounts : ComponentCounts;
}.

End Stats.

(** The callback of [buttons.forEach] in [getTemplateStats]. *)
Definition statsButton (st : Stats.Locals) (button : Button) : Stats.Locals :=
  let total :=
    match button_text button with
    | Some text =>
        if JS.truthy_str text
        then Stats.l_totalCharacters st + String.length text
        else Stats.l_totalCharacters st
    | None => Stats.l_totalCharacters st
    end in
  let vars :=
    match button_url button with
    | Some url =>
        if JS.truthy_str url
        then Stats.l_variableCount st + countVariables url
        else Stats.l_variableCount st
    | None => Stats.l_variableCount st
    end in
  Stats.mkLocals total vars (Stats.l_buttonCount st)
    (Stats.l_componentCounts st).

(** The callback of [template.components.forEach] in
    [getTemplateStats]. *)
Definition statsComponent (st : Stats.Locals) (component : Component)
  : Stats.Locals :=
  let counts := Stats.l_componentCounts st in
  match component with
  | HeaderComponent format text _ =>
      let counts' :=
        Stats.mkCounts (Stats.header counts + 1) (Stats.body counts)
          (Stats.footer counts) (Stats.buttons counts) in
      match text with
      | Some text =>
          if bool_decide (format = Some TEXT) && JS.truthy_str text
          then Stats.mkLocals
                 (Stats.l_totalCharacters st + String.length text)
                 (Stats.l_variableCount st + countVariables text)
                 (Stats.l_buttonCount st) counts'
          else Stats.mkLocals (Stats.l_totalCharacters st)
                 (Stats.l_variableCount st) (Stats.l_buttonCount st) counts'
      | None =>
          Stats.mkLocals (Stats.l_totalCharacters st)
            (Stats.l_variableCount st) (Stats.l_buttonCount st) counts'
      end
  | BodyComponent text _ _ =>
      Stats.mkLocals
        (Stats.l_totalCharacters st + String.length text)
        (Stats.l_variableCount st + countVariables text)
        (Stats.l_buttonCount st)
        (Stats.mkCounts (Stats.header counts) (Stats.body counts + 1)
           (Stats.footer counts) (Stats.buttons counts))
  | FooterComponent text _ =>
      Stats.mkLocals
        (Stats.l_totalCharacters st + String.length text)
        (Stats.l_variableCount st) (Stats.l_buttonCount st)
        (Stats.mkCounts (Stats.header counts) (Stats.body counts)
           (Stats.footer counts + 1) (Stats.buttons counts))
  | ButtonsComponent buttons =>
      foldl statsButton
        (Stats.mkLocals (Stats.l_totalCharacters st)
           (Stats.l_variableCount st) (length buttons)
           (Stats.mkCounts (Stats.header counts) (Stats.body counts)
              (Stats.footer counts) (Stats.buttons counts + 1)))
        buttons
  end.

Definition getTemplateStats (template : WhatsAppTemplate)
  : Stats.TemplateStats :=
  let st :=
    foldl statsComponent
      (Stats.mkLocals 0 0 0 (Stats.mkCounts 0 0 0 0))
      (components template) in
  Stats.mkStats (Stats.l_totalCharacters st) (Stats.l_componentCounts st)
    (Stats.l_variableCount st) (Stats.l_buttonCount st)
    (estimateMessageSize (Stats.l_totalCharacters st)).

(** *** [extractVariables] *)

Module Occurrence.
Record t := mk {
  component : string;
  variable : string;
  position : nat;
}.
End Occurrence.

(** The [regex.exec] loop of [extractFromText]: every match of
    [\{\{(\d+)\}\}] with its [index], left to right, without overlap
    ([pos] is the index of the first character of [s]). *)
Fixpoint execAll_from (skip pos : nat) (s : string)
  : list (nat * list ascii) :=
  match s with
  | EmptyString => []
  | String _ s' =>
      match skip with
      | S k => execAll_from k (S pos) s'
      | 0 =>
          match match_at s with
          | Some ds =>
              (pos, ds) :: execAll_from (3 + length ds) (S pos) s'
          | None => execAll_from 0 (S pos) s'
          end
      end
  end.

(** [match[0]] of a match with the captured digits [ds]. *)
Definition placeholder (ds : list ascii) : string :=
  "{{" +:+ String.string_of_list_ascii ds +:+ "}}".

(** What [extractFromText(text, componentName)] pushes. *)
Definition extractFromText (text componentName : string)
  : list Occurrence.t :=
  (λ m, Occurrence.mk componentName (placeholder m.2) m.1)
    <$> execAll_from 0 0 text.

(** What one pass of the callback of [template.components.forEach]
    pushes. *)
Definition extractComponent (index : nat) (component : Component)
  : list Occurrence.t :=
  let componentName :=
    indexed (JS.toLowerCase (ComponentType_str (component_type component)))
      index "" in
  match component with
  | HeaderComponent format text _ =>
      match text with
      | Some text =>
          if bool_decide (format = Some TEXT) && JS.truthy_str text
          then extractFromText text componentName
          else []
      | None => []
      end
  | BodyComponent text _ _ => extractFromText text componentName
  | FooterComponent _ _ => []
  | ButtonsComponent buttons =>
      concat
        (imap
           (λ buttonIndex button,
              match button_url button with
              | Some url =>
                  if JS.truthy_str url
                  then extractFromText url
                         (indexed (componentName +:+ ".buttons") buttonIndex
                            ".url")
                  else []
              | None => []
              end)
           buttons)
  end.

(** The array [variables] before it is sorted. *)
Definition extractedInOrder (template : WhatsAppTemplate)
  : list Occurrence.t :=
  concat (imap extractComponent (components template)).

(** The first match of [\d+] in [s] ([[]] when there is none). *)
Fixpoint firstDigitRun (s : string) : list ascii :=
  match s with
  | EmptyString => []
  | String c s' =>
      if JS.is_digit c then (span_digits s).1 else firstDigitRun s'
  end.

(** [parseInt(a.variable.match(/\d+/)?.[0] || "0")] *)
Definition occurrenceNumber (o : Occurrence.t) : N :=
  match firstDigitRun (Occurrence.variable o) with
  | [] => JS.parseInt ["0"%char]
  | ds => JS.parseInt ds
  end.

(** [Array.prototype.sort] with the comparator
    [(a, b) => key(a) - key(b)]: the stable sort by [key]. *)
Fixpoint insertBy {A} (key : A → N) (x : A) (l : list A) : list A :=
  match l with
  | [] => [x]
  | y :: l' =>
      if (key x <=? key y)%N then x :: l else y :: insertBy key x l'
  end.

Definition sortBy {A} (key : A → N) (l : list A) : list A :=
  foldr (insertBy key) [] l.

Definition extractVariables (template : WhatsAppTemplate)
  : list Occurrence.t :=
  sortBy occurrenceNumber (extractedInOrder template).


(** * Properties *)

(** ** Methods that only push diagnostics *)

(** [acc_app this d]: the arrays of [this], each followed by the one
    of [d]. *)
Definition acc_app (this d : Acc) : Acc :=
  mkAcc (this_errors this ++ this_errors d)
        (this_warnings this ++ this_warnings d)
        (this_info this ++ this_info d).

(** [Emits okE p]: the method [p] is a sequence of [addError],
    [addWarning] and [addInfo] calls, every error of which is on a field
    that satisfies [okE]. *)
Inductive Emits (okE : string → Prop) : Pass → Prop :=
  | Emits_skip : Emits okE skip
  | Emits_addError f m s : okE f → Emits okE (addError f m s)
  | Emits_addWarning f m s : Emits okE (addWarning f m s)
  | Emits_addInfo f m s : Emits okE (addInfo f m s)
  | Emits_andThen p q : Emits okE p → Emits okE q → Emits okE (p >>> q).

Section Emits.
Context (okE : string → Prop).

Lemma Emits_when b p : (b = true → Emits okE p) → Emits okE (when b p).
Proof. destruct b; simpl; [auto | constructor]. Qed.

Lemma Emits_forEachFrom {A} (f : A → nat → Pass) i l :
  (∀ x j, Emits okE (f x j)) → Emits okE (forEachFrom f i l).
Proof.
  intros Hf. revert i.
  induction l as [|x l IH]; intros i; simpl; constructor; auto.
Qed.

Lemma Emits_forEach {A} (f : A → nat → Pass) l :
  (∀ x j, Emits okE (f x j)) → Emits okE (forEach f l).
Proof. apply Emits_forEachFrom. Qed.

Lemma Emits_forEachOpt {A} (f : A → nat → Pass) l :
  (∀ x j, Emits okE (f x j)) → Emits okE (forEachOpt f l).
Proof. destruct l; simpl; [apply Emits_forEach | constructor]. Qed.

(** A method that only pushes acts on any accumulator as on the empty
    one. *)
Lemma Emits_acc_app p :
  Emits okE p → ∀ this, p this = acc_app this (p empty_acc).
Proof.
  induction 1 as [| | | |p q _ IHp _ IHq]; intros [e w i];
    unfold skip, addError, addWarning, addInfo, acc_app; simpl;
    rewrite ?app_nil_r; try done.
  unfold andThen. rewrite IHq, (IHq (p empty_acc)), IHp.
  unfold acc_app; simpl. by rewrite !app_assoc.
Qed.

Lemma Emits_errors_app p q :
  Emits okE p → Emits okE q →
  this_errors ((p >>> q) empty_acc)
  = this_errors (p empty_acc) ++ this_errors (q empty_acc).
Proof.
  intros _ Hq. unfold andThen. by rewrite (Emits_acc_app q Hq).
Qed.

(** Every error pushed is on a field that satisfies [okE]. *)
Lemma Emits_fields p :
  Emits okE p → Forall (λ e, okE (field e)) (this_errors (p empty_acc)).
Proof.
  induction 1 as [|f m s Hf| | |p q Hp IHp Hq IHq]; simpl;
    try by repeat constructor.
  rewrite (Emits_errors_app p q Hp Hq). by apply Forall_app.
Qed.

(** Each array holds diagnostics of its own severity only. *)
Definition severities_ok (this : Acc) : Prop :=
  Forall (λ e, severity e = Severity.error) (this_errors this)
  ∧ Forall (λ e, severity e = Severity.warning) (this_warnings this)
  ∧ Forall (λ e, severity e = Severity.info) (this_info this).

Lemma Emits_severities p :
  Emits okE p → ∀ this, severities_ok this → severities_ok (p this).
Proof.
  induction 1; intros this (He & Hw & Hi); unfold severities_ok in *;
    simpl; try done.
  - split_and!; try done. apply Forall_app; split; [done|].
    by repeat constructor.
  - split_and!; try done. apply Forall_app; split; [done|].
    by repeat constructor.
  - split_and!; try done. apply Forall_app; split; [done|].
    by repeat constructor.
  - unfold andThen. auto.
Qed.

Lemma Emits_mono (okE' : string → Prop) p :
  (∀ f, okE f → okE' f) → Emits okE p → Emits okE' p.
Proof. intros Himp. induction 1; constructor; auto. Qed.
End Emits.

(** Structural steps of an [Emits] proof; the side conditions on error
    fields are left to the caller. *)
Ltac emits_step :=
  lazymatch goal with
  | |- Emits _ skip => apply Emits_skip
  | |- Emits _ (addError _ _ _) => apply Emits_addError
  | |- Emits _ (addWarning _ _ _) => apply Emits_addWarning
  | |- Emits _ (addInfo _ _ _) => apply Emits_addInfo
  | |- Emits _ (when _ _) => apply Emits_when; intros ?
  | |- Emits _ (forEach _ _) => apply Emits_forEach; intros ? ?
  | |- Emits _ (forEachOpt _ _) => apply Emits_forEachOpt; intros ? ?
  | |- Emits _ (_ >>> _) => apply Emits_andThen
  | |- Emits _ (match ?x with _ => _ end) => destruct x eqn:?
  | |- Emits _ (let _ := _ in _) => cbv zeta
  end.

Ltac emits := repeat emits_step.

(** *** The fields each pass can raise an error on *)

Definition isField (names : list string) (f : string) : Prop :=
  f ∈ names ∨ ∃ i suffix, f = indexed "buttons" i suffix.

Lemma isField_name names f : f ∈ names → isField names f.
Proof. by left. Qed.

Lemma isField_button names i suffix :
  isField names (indexed "buttons" i suffix).
Proof. right; eauto. Qed.

Create HintDb fields.
Local Hint Resolve isField_button : fields.
Local Hint Extern 1 (isField _ _) =>
  (apply isField_name; set_solver) : fields.

Lemma Emits_orderLoop okE cs index lastValidIndex :
  Emits okE (orderLoop cs index lastValidIndex).
Proof.
  revert index lastValidIndex.
  induction cs as [|c cs IH]; intros; simpl; emits. apply IH.
Qed.

Lemma Emits_validateBasicStructure template :
  Emits (isField ["components"]) (validateBasicStructure template).
Proof.
  unfold validateBasicStructure. emits; auto using Emits_orderLoop with fields.
Qed.

Lemma Emits_validateCategorySpecificRules template :
  Emits (isField ["messageSendTtlSeconds"])
    (validateCategorySpecificRules template).
Proof.
  unfold validateCategorySpecificRules, validateAuthenticationTemplate,
    validateUtilityTemplate, validateMarketingTemplate.
  emits; auto with fields.
Qed.

Lemma Emits_validateComponentCombinations template :
  Emits (isField ["header.text"; "header.example.header_url"])
    (validateComponentCombinations template).
Proof.
  unfold validateComponentCombinations, checkOTPButton.
  emits; auto with fields.
Qed.

Lemma Emits_sequenceLoop okE field variables i rest :
  okE field → Emits okE (sequenceLoop field variables i rest).
Proof.
  intros Hf. revert i.
  induction rest as [|v rest IH]; intros i; simpl; emits; auto.
Qed.

Lemma Emits_validateVariablesInText okE text field :
  okE field → Emits okE (validateVariablesInText text field).
Proof.
  intros Hf. unfold validateVariablesInText.
  emits. by apply Emits_sequenceLoop.
Qed.

Lemma Emits_validateVariableUsage template :
  Emits (isField ["body.text"; "header.text"])
    (validateVariableUsage template).
Proof.
  unfold validateVariableUsage, checkComponentVariables, checkURLButton.
  emits; try (apply Emits_validateVariablesInText); auto with fields.
  match goal with c : Component |- _ => destruct c end; simpl in *;
    auto with fields; discriminate.
Qed.

Lemma Emits_validateTextLength okE text maxLength field :
  okE field → Emits okE (validateTextLength text maxLength field).
Proof. intros Hf. unfold validateTextLength. emits. done. Qed.

Lemma Emits_validateCharacterLimits template :
  Emits (isField ["header.text"; "body.text"; "footer.text"])
    (validateCharacterLimits template).
Proof.
  unfold validateCharacterLimits, checkComponentLimits, checkButtonText.
  emits; try (apply Emits_validateTextLength); auto with fields.
Qed.

Lemma Emits_validateButtonCombinations template :
  Emits (isField ["buttons"]) (validateButtonCombinations template).
Proof. unfold validateButtonCombinations. emits; auto with fields. Qed.

Lemma Emits_validateMediaRequirements template :
  Emits (isField ["header.example.header_url"])
    (validateMediaRequirements template).
Proof.
  unfold validateMediaRequirements, checkMediaExtension.
  emits; auto with fields.
Qed.

Lemma Emits_validateTTLSettings template :
  Emits (isField ["messageSendTtlSeconds"]) (validateTTLSettings template).
Proof. unfold validateTTLSettings. emits; auto with fields. Qed.

(** *** The report is the concatenation of the passes' outputs *)

Definition anyField (_ : string) : Prop := True.

Lemma Emits_any okE p : Emits okE p → Emits anyField p.
Proof. apply Emits_mono. done. Qed.

Create HintDb passes.
Local Hint Resolve Emits_validateBasicStructure
  Emits_validateCategorySpecificRules Emits_validateComponentCombinations
  Emits_validateVariableUsage Emits_validateCharacterLimits
  Emits_validateButtonCombinations Emits_validateMediaRequirements
  Emits_validateTTLSettings : passes.

Ltac emits_passes :=
  repeat lazymatch goal with
         | |- Emits _ (_ >>> _) => apply Emits_andThen
         end;
  eapply Emits_any; auto with passes.

Lemma Emits_runPasses template : Emits anyField (runPasses template).
Proof. unfold runPasses. emits_passes. Qed.

(** The errors of one pass, run on its own. *)
Definition errorsOf (p : Pass) : list ValidationError :=
  this_errors (p empty_acc).

Lemma errorsOf_andThen okE p q :
  Emits okE p → Emits anyField q →
  errorsOf (p >>> q) = errorsOf p ++ errorsOf q.
Proof.
  intros Hp Hq. unfold errorsOf, andThen.
  by rewrite (Emits_acc_app _ q Hq).
Qed.

Lemma validate_errors template :
  errors (validate template)
  = errorsOf (validateBasicStructure template)
    ++ errorsOf (validateCategorySpecificRules template)
    ++ errorsOf (validateComponentCombinations template)
    ++ errorsOf (validateVariableUsage template)
    ++ errorsOf (validateCharacterLimits template)
    ++ errorsOf (validateButtonCombinations template)
    ++ errorsOf (validateMediaRequirements template)
    ++ errorsOf (validateTTLSettings template).
Proof.
  change (errors (validate template)) with (errorsOf (runPasses template)).
  unfold runPasses.
  repeat (erewrite errorsOf_andThen;
          [f_equal
          | auto with passes
          | emits_passes]).
Qed.

Lemma severities_ok_empty : severities_ok empty_acc.
Proof. by repeat split. Qed.

Lemma validate_severities template :
  Forall (λ e, severity e = Severity.error) (errors (validate template))
  ∧ Forall (λ e, severity e = Severity.warning) (warnings (validate template))
  ∧ Forall (λ e, severity e = Severity.info) (info (validate template)).
Proof.
  apply (Emits_severities _ _ (Emits_runPasses template) empty_acc).
  apply severities_ok_empty.
Qed.

(** Every diagnostic of the report, whatever array it is in. *)
Definition diagnostics (r : ValidationResult) : list ValidationError :=
  errors r ++ warnings r ++ info r.

Lemma diagnostics_error_in_errors template d :
  d ∈ diagnostics (validate template) → severity d = Severity.error →
  d ∈ errors (validate template).
Proof.
  destruct (validate_severities template) as (_ & Hw & Hi).
  unfold diagnostics. rewrite !elem_of_app. intros [H|[H|H]] Hsev; [done|..].
  - rewrite Forall_forall in Hw. specialize (Hw _ H). congruence.
  - rewrite Forall_forall in Hi. specialize (Hi _ H). congruence.
Qed.

(** ** The verdict *)

(** C1. For every template, the report of [validate] has
    [isValid = true] exactly when its [errors] array is empty, and exactly
    when no diagnostic of the whole report (errors, warnings and info
    together) has severity error: warnings and info never change the
    verdict. *)
Theorem validate_isValid_iff_no_errors (template : WhatsAppTemplate) :
  (isValid (validate template) = true ↔ errors (validate template) = [])
  ∧ (isValid (validate template) = true
     ↔ ∀ d, d ∈ diagnostics (validate template) →
            severity d ≠ Severity.error).
Proof.
  assert (Hiff : isValid (validate template) = true
                 ↔ errors (validate template) = []).
  { unfold validate; simpl. rewrite Nat.eqb_eq. apply length_zero_iff_nil. }
  split; [done|]. rewrite Hiff. split.
  - intros Hnil d Hd Hsev.
    apply diagnostics_error_in_errors in Hd; [|done].
    rewrite Hnil in Hd. by apply elem_of_nil in Hd.
  - intros Hall. destruct (errors (validate template)) as [|e es] eqn:He;
      [done|].
    destruct (validate_severities template) as (Hsev & _ & _).
    rewrite He in Hsev. apply Forall_cons in Hsev as [Hsev _].
    exfalso. apply (Hall e); [|done].
    unfold diagnostics. rewrite He. apply elem_of_app. left. apply list_elem_of_here.
Qed.

(** ** Which field an error can be on *)

(** [hasPrefix p s]: the string [s] starts with [p]. *)
Fixpoint hasPrefix (p s : string) : bool :=
  match p with
  | EmptyString => true
  | String a p' =>
      match s with
      | EmptyString => false
      | String b s' => Ascii.eqb a b && hasPrefix p' s'
      end
  end.

Lemma indexed_buttons_prefix i suffix :
  hasPrefix "buttons[" (indexed "buttons" i suffix) = true.
Proof. reflexivity. Qed.

Lemma not_isField names f :
  f ∉ names → hasPrefix "buttons[" f = false → ¬ isField names f.
Proof.
  intros Hnot Hpre [Hin | (i & s & ->)]; [done|].
  by rewrite indexed_buttons_prefix in Hpre.
Qed.

Lemma no_error_on_field names p f :
  Emits (isField names) p → f ∉ names → hasPrefix "buttons[" f = false →
  ∀ e, e ∈ errorsOf p → field e ≠ f.
Proof.
  intros Hp Hnot Hpre e He Hf.
  apply Emits_fields in Hp. rewrite Forall_forall in Hp.
  specialize (Hp e He). rewrite Hf in Hp. by eapply not_isField.
Qed.

(** Membership in a short list of literals, by computation. *)
Ltac not_in_names := apply (bool_decide_unpack _); vm_compute; exact I.

(** ** The component a pass looks at *)

Lemma count_type_pos ty cs c :
  c ∈ cs → component_type c = ty → 0 < count_type ty cs.
Proof.
  intros Hin Hty. unfold count_type.
  assert (Hf : c ∈ filter (λ c, component_type c = ty) cs)
    by by apply list_elem_of_filter.
  destruct (filter _ cs); [by apply elem_of_nil in Hf | simpl; lia].
Qed.

(** With at most one component of a type, [find] returns it. *)
Lemma find_component_unique ty cs c :
  count_type ty cs ≤ 1 → c ∈ cs → component_type c = ty →
  find_component ty cs = Some c.
Proof.
  unfold find_component.
  induction cs as [|x cs IH]; intros Hcount Hin Hty.
  - by apply elem_of_nil in Hin.
  - simpl. unfold count_type in Hcount.
    destruct (decide (component_type x = ty)) as [Hx|Hx].
    + rewrite bool_decide_true by done.
      rewrite filter_cons_True in Hcount by done. simpl in Hcount.
      apply elem_of_cons in Hin as [->|Hin]; [done|].
      pose proof (count_type_pos ty cs c Hin Hty) as Hpos.
      unfold count_type in Hpos. lia.
    + rewrite bool_decide_false by done.
      rewrite filter_cons_False in Hcount by done.
      apply elem_of_cons in Hin as [->|Hin]; [done|]. by apply IH.
Qed.

Lemma atMostOneEach_counts cs :
  atMostOneEach cs = true →
  count_type HEADER cs ≤ 1 ∧ count_type FOOTER cs ≤ 1
  ∧ count_type BUTTONS cs ≤ 1.
Proof.
  unfold atMostOneEach. rewrite !andb_true_iff, !Nat.leb_le. tauto.
Qed.

(** ** Media requirements on a LOCATION header *)

Definition header_url_field : string := "header.example.header_url".

(** [example.header_url[0]] of a header ([None] when any part of the
    path is missing). *)
Definition firstExampleUrl (headerComponent : Component) : option string :=
  example_header_url (component_example headerComponent) ≫= (λ l, l !! 0).

(** A LOCATION header whose example carries an empty URL list, in a
    template that meets the refinements of the schema. *)
Definition locationTemplate : WhatsAppTemplate :=
  mkTemplate None "store_location" "en" UTILITY None None
    [ HeaderComponent (Some LOCATION) None
        (Some (mkExample None (Some []) None));
      BodyComponent "Find us here." None None ].

(** C2, as stated, fails: the template [locationTemplate] meets the
    component refinements of the schema, its header has format LOCATION,
    and the report holds an error on [header.example.header_url], raised
    by the media-requirements pass. *)
Lemma location_header_url_counterexample :
  componentsRefinements (components locationTemplate) = true
  ∧ find_component HEADER (components locationTemplate)
    = Some (HeaderComponent (Some LOCATION) None
              (Some (mkExample None (Some []) None)))
  ∧ errorsOf (validateMediaRequirements locationTemplate)
    = [mkDiag header_url_field "LOCATION header requires example URL"
         (Some "Add a valid example URL for the media") None Severity.error]
  ∧ errors (validate locationTemplate)
    = [mkDiag header_url_field "LOCATION header requires example URL"
         (Some "Add a valid example URL for the media") None Severity.error].
Proof. by vm_compute. Qed.

Lemma Emits_combinations_with_url template hc :
  find_component HEADER (components template) = Some hc →
  JS.truthy_ostr (firstExampleUrl hc) = true →
  Emits (isField ["header.text"]) (validateComponentCombinations template).
Proof.
  intros Hfind Hurl.
  unfold validateComponentCombinations, checkOTPButton. rewrite Hfind.
  emits; auto with fields.
  exfalso. unfold firstExampleUrl in Hurl.
  destruct (example_header_url (component_example hc)); simpl in *;
    [|done].
  by rewrite andb_false_r in *.
Qed.

Lemma media_location template hc :
  find_component HEADER (components template) = Some hc →
  component_format hc = Some LOCATION →
  errorsOf (validateMediaRequirements template)
  = if JS.truthy_ostr (firstExampleUrl hc) then []
    else [mkDiag header_url_field "LOCATION header requires example URL"
            (Some "Add a valid example URL for the media") None
            Severity.error].
Proof.
  intros Hfind Hfmt. unfold errorsOf, validateMediaRequirements.
  rewrite Hfind, Hfmt. unfold firstExampleUrl.
  destruct (example_header_url (component_example hc)) as [urls|]; simpl;
    [|done].
  destruct (urls !! 0) as [url|]; simpl; [|done].
  by destruct (JS.truthy_str url).
Qed.

(** C2 (amended). For every template with at most one HEADER, FOOTER and
    BUTTONS component whose HEADER has format LOCATION: if the header's
    [example.header_url[0]] is a non-empty string, the report has no
    error on [header.example.header_url], whatever the URL ends with (no
    extension is required); if it is missing or empty, the report has the
    error "LOCATION header requires example URL" on that field. *)
Theorem location_header_url_requirement
    (template : WhatsAppTemplate) (hc : Component) :
  atMostOneEach (components template) = true →
  hc ∈ components template →
  component_type hc = HEADER →
  component_format hc = Some LOCATION →
  (JS.truthy_ostr (firstExampleUrl hc) = true →
   ∀ e, e ∈ errors (validate template) → field e ≠ header_url_field)
  ∧ (JS.truthy_ostr (firstExampleUrl hc) = false →
     ∃ e, e ∈ errors (validate template)
          ∧ severity e = Severity.error
          ∧ field e = header_url_field
          ∧ message e = "LOCATION header requires example URL").
Proof.
  intros Hone Hin Hty Hfmt.
  apply atMostOneEach_counts in Hone as (Hheader & _ & _).
  pose proof (find_component_unique _ _ _ Hheader Hin Hty) as Hfind.
  pose proof (media_location template hc Hfind Hfmt) as Hmedia.
  rewrite validate_errors. split; intros Hurl; rewrite Hurl in Hmedia.
  - intros e. rewrite Hmedia, !elem_of_app.
    intros [H|[H|[H|[H|[H|[H|[H|H]]]]]]]; revert H.
    + eapply no_error_on_field;
        [apply Emits_validateBasicStructure | not_in_names | done].
    + eapply no_error_on_field;
        [apply Emits_validateCategorySpecificRules | not_in_names | done].
    + eapply no_error_on_field;
        [by eapply Emits_combinations_with_url | not_in_names | done].
    + eapply no_error_on_field;
        [apply Emits_validateVariableUsage | not_in_names | done].
    + eapply no_error_on_field;
        [apply Emits_validateCharacterLimits | not_in_names | done].
    + eapply no_error_on_field;
        [apply Emits_validateButtonCombinations | not_in_names | done].
    + by intros ?%elem_of_nil.
    + eapply no_error_on_field;
        [apply Emits_validateTTLSettings | not_in_names | done].
  - eexists. rewrite Hmedia, !elem_of_app.
    split; [do 6 right; left; apply list_elem_of_here|done].
Qed.

Lemma location_header_url_requirement_witness :
  atMostOneEach (components locationTemplate) = true
  ∧ ∃ e, e ∈ errors (validate locationTemplate)
         ∧ severity e = Severity.error
         ∧ field e = header_url_field
         ∧ message e = "LOCATION header requires example URL".
Proof.
  split; [reflexivity|].
  apply (location_header_url_requirement locationTemplate
           (HeaderComponent (Some LOCATION) None
              (Some (mkExample None (Some []) None))));
    [reflexivity | apply list_elem_of_here | reflexivity | reflexivity
    | reflexivity].
Defined.

(** ** Variable sequencing *)

(** The placeholder numbers of a text, in order of occurrence, with
    repetitions. *)
Definition indicesOf (text : string) : list N :=
  JS.parseInt <$> matchAll text.

(** Every placeholder number of the text is below 2^53: [parseInt]
    returns it exactly and [join] prints it digit for digit. *)
Definition numbersExact (text : string) : Prop :=
  Forall (λ n, (n < 2 ^ 53)%N) (indicesOf text).

(** The run [1; 2; ...; k]. *)
Definition upTo (k : nat) : list N := N.of_nat <$> seq 1 k.

(** The condition in the words of the specification: the distinct
    placeholder numbers, sorted ascending, are [1..k] for some [k]. *)
Definition distinctIndicesContiguous (text : string) : Prop :=
  ∃ k, merge_sort N.le (remove_dups (indicesOf text)) = upTo k.

Lemma sequentialLoop_run i l :
  sequentialLoop i l = true ↔ l = N.of_nat <$> seq (S i) (length l).
Proof.
  revert i. induction l as [|v l IH]; intros i; [done|].
  cbn [sequentialLoop length seq]. rewrite fmap_cons.
  replace (i + 1) with (S i) by lia.
  destruct (N.eqb_spec v (N.of_nat (S i))) as [->|Hne]; cbn [negb].
  - rewrite IH. split; [by intros <-|]. by intros [= <-].
  - split; [done|]. by intros [= Hv _].
Qed.

Lemma NoDup_upTo_from j k : NoDup (N.of_nat <$> seq j k).
Proof. apply NoDup_fmap_2; [apply _ | apply NoDup_seq]. Qed.

Lemma remove_dups_NoDup {A} `{!EqDecision A} (l : list A) :
  NoDup l → remove_dups l = l.
Proof.
  induction 1 as [|x l Hx _ IH]; simpl; [done|].
  case_decide; [done|]. by rewrite IH.
Qed.

Lemma length_remove_dups_le {A} `{!EqDecision A} (l : list A) :
  length (remove_dups l) ≤ length l.
Proof. induction l; simpl; [done|]. case_decide; simpl; lia. Qed.

Lemma length_remove_dups_NoDup {A} `{!EqDecision A} (l : list A) :
  length (remove_dups l) = length l → NoDup l.
Proof.
  induction l as [|x l IH]; simpl; [constructor|].
  pose proof (length_remove_dups_le l).
  case_decide; simpl; intros Hlen; [lia|].
  constructor; [done|]. apply IH. lia.
Qed.

Lemma size_uniqueVariables variables :
  size (uniqueVariables variables) = length variables ↔ NoDup variables.
Proof.
  unfold uniqueVariables.
  assert (Hset : list_to_set variables
                 =@{gset N} list_to_set (remove_dups variables)).
  { apply set_eq. intros x.
    by rewrite !elem_of_list_to_set, elem_of_remove_dups. }
  split.
  - rewrite Hset, size_list_to_set by apply NoDup_remove_dups.
    apply length_remove_dups_NoDup.
  - apply size_list_to_set.
Qed.

Lemma sortedVariables_perm text : sortedVariables text ≡ₚ indicesOf text.
Proof. apply merge_sort_Permutation. Qed.

(** C3, as stated, fails: in ["{{1}}{{1}}"] the distinct placeholder
    numbers are [1..1], yet the sequencing check of the structural text
    validator rejects the text. *)
Lemma sequentialRefine_duplicate_counterexample :
  distinctIndicesContiguous "{{1}}{{1}}"
  ∧ sequentialRefine true "{{1}}{{1}}" = false.
Proof. split; [by exists 1 | reflexivity]. Qed.

(** C3 (amended). The sequencing check of the structural text validator
    accepts a text iff the distinct placeholder numbers occurring in it,
    sorted ascending, are [1..k] with no gap and, in addition, no number
    occurs twice; a text that repeats a number is rejected. *)
Theorem sequentialRefine_iff (text : string) :
  sequentialRefine true text = true
  ↔ distinctIndicesContiguous text ∧ NoDup (indicesOf text).
Proof.
  unfold sequentialRefine, distinctIndicesContiguous; simpl.
  destruct (Nat.eqb_spec (length (matchAll text)) 0) as [Hz|Hnz].
  - apply length_zero_iff_nil in Hz. unfold indicesOf. rewrite Hz; simpl.
    split; [intros _|done]. split; [by exists 0 | constructor].
  - rewrite sequentialLoop_run. split.
    + intros Hrun.
      assert (Hnd : NoDup (indicesOf text)).
      { rewrite <- sortedVariables_perm, Hrun. apply NoDup_upTo_from. }
      split; [|done]. exists (length (sortedVariables text)).
      by rewrite remove_dups_NoDup.
    + intros [[k Hk] Hnd]. rewrite remove_dups_NoDup in Hk by done.
      unfold sortedVariables, indicesOf in *. rewrite Hk.
      unfold upTo. by rewrite length_fmap, length_seq.
Qed.

(** The two diagnostics of [validateVariablesInText]. *)
Definition sequenceError (field : string) (variables : list N)
  : ValidationError :=
  mkDiag field
    ("Variables must be sequential starting from {{1}}. Found: {{"
       +:+ JS.join "}}, {{" (pretty <$> variables) +:+ "}}")
    (Some "Use variables {{1}}, {{2}}, {{3}}, etc. in sequence")
    None Severity.error.

Definition duplicateWarning (field : string) : ValidationError :=
  mkDiag field "Duplicate variables found"
    (Some "Each variable should be used only once per component")
    None Severity.warning.

Lemma sequenceLoop_eq field variables i rest this :
  sequenceLoop field variables i rest this
  = mkAcc (this_errors this
             ++ if sequentialLoop i rest then []
                else [sequenceError field variables])
          (this_warnings this) (this_info this).
Proof.
  revert i. induction rest as [|v rest IH]; intros i; simpl.
  - destruct this; unfold skip; simpl. by rewrite app_nil_r.
  - destruct (negb (v =? N.of_nat (i + 1))%N); [done | apply IH].
Qed.

Lemma validateVariablesInText_eq text field :
  validateVariablesInText text field empty_acc
  = if 0 <? length (matchAll text)
    then mkAcc (if sequentialLoop 0 (sortedVariables text) then []
                else [sequenceError field (sortedVariables text)])
               (if size (uniqueVariables (sortedVariables text))
                   =? length (sortedVariables text)
                then [] else [duplicateWarning field])
               []
    else empty_acc.
Proof.
  unfold validateVariablesInText.
  destruct (0 <? length (matchAll text)); simpl; [|done].
  unfold andThen. rewrite sequenceLoop_eq; simpl.
  by destruct (size _ =? _).
Qed.

(** C4, as stated, fails: for ["{{1}}{{1}}"] the distinct placeholder
    numbers are [1..1] and 1 occurs twice; [validateVariablesInText]
    pushes the duplicate warning, and an error on the same field as
    well. *)
Lemma duplicate_variables_counterexample :
  distinctIndicesContiguous "{{1}}{{1}}"
  ∧ ¬ NoDup (indicesOf "{{1}}{{1}}")
  ∧ validateVariablesInText "{{1}}{{1}}" "body.text" empty_acc
    = mkAcc
        [mkDiag "body.text"
           "Variables must be sequential starting from {{1}}. Found: {{1}}, {{1}}"
           (Some "Use variables {{1}}, {{2}}, {{3}}, etc. in sequence")
           None Severity.error]
        [duplicateWarning "body.text"] [].
Proof.
  split; [by exists 1|]. split; [|by vm_compute].
  apply (bool_decide_unpack _). by vm_compute.
Qed.

(** C4 (amended). For every text field whose placeholder numbers are
    below 2^53 and in which some placeholder number occurs more than once
    (whether or not the distinct numbers are [1..k]),
    [validateVariablesInText] pushes exactly the duplicate warning for
    that field and exactly one error for that field, the sequencing error
    that lists the numbers found: a duplicate is always reported as an
    error too. *)
Theorem duplicate_variables_warning_and_error (text field : string) :
  numbersExact text →
  ¬ NoDup (indicesOf text) →
  this_warnings (validateVariablesInText text field empty_acc)
  = [duplicateWarning field]
  ∧ this_errors (validateVariablesInText text field empty_acc)
    = [sequenceError field (sortedVariables text)]
  ∧ this_info (validateVariablesInText text field empty_acc) = [].
Proof.
  intros _ Hdup. rewrite validateVariablesInText_eq.
  assert (Hsorted : ¬ NoDup (sortedVariables text))
    by by rewrite sortedVariables_perm.
  destruct (matchAll text) as [|m ms] eqn:Hm.
  { exfalso. apply Hdup. unfold indicesOf. rewrite Hm. constructor. }
  simpl.
  destruct (sequentialLoop 0 (sortedVariables text)) eqn:Hseq.
  { exfalso. apply Hsorted. apply sequentialLoop_run in Hseq.
    rewrite Hseq. apply NoDup_upTo_from. }
  destruct (Nat.eqb_spec (size (uniqueVariables (sortedVariables text)))
              (length (sortedVariables text))) as [Hsize|_]; [|done].
  by apply size_uniqueVariables in Hsize.
Qed.

Lemma duplicate_variables_warning_and_error_witness :
  numbersExact "{{1}}{{1}}"
  ∧ ¬ NoDup (indicesOf "{{1}}{{1}}")
  ∧ this_warnings (validateVariablesInText "{{1}}{{1}}" "body.text" empty_acc)
    = [duplicateWarning "body.text"]
  ∧ this_errors (validateVariablesInText "{{1}}{{1}}" "body.text" empty_acc)
    = [sequenceError "body.text" (sortedVariables "{{1}}{{1}}")]
  ∧ this_info (validateVariablesInText "{{1}}{{1}}" "body.text" empty_acc)
    = [].
Proof.
  assert (Hexact : numbersExact "{{1}}{{1}}").
  { unfold numbersExact. apply (bool_decide_unpack _). vm_compute. exact I. }
  assert (H : ¬ NoDup (indicesOf "{{1}}{{1}}")).
  { apply (bool_decide_unpack _). vm_compute. exact I. }
  split; [exact Hexact|]. split; [exact H|].
  exact (duplicate_variables_warning_and_error "{{1}}{{1}}" "body.text"
           Hexact H).
Defined.

(** ** Errors are never removed *)

Lemma errorsOf_andThen_l okE p q d :
  Emits okE p → Emits anyField q →
  d ∈ errorsOf p → d ∈ errorsOf (p >>> q).
Proof.
  intros Hp Hq Hd. rewrite (errorsOf_andThen okE) by done.
  apply elem_of_app. by left.
Qed.

Lemma errorsOf_forEachFrom {A} (f : A → nat → Pass) i l x d :
  (∀ y j, Emits anyField (f y j)) →
  x ∈ l → (∀ j, d ∈ errorsOf (f x j)) →
  d ∈ errorsOf (forEachFrom f i l).
Proof.
  intros Hf Hin Hd. revert i.
  induction l as [|y l IH]; intros i; [by apply elem_of_nil in Hin|].
  simpl. rewrite (errorsOf_andThen anyField);
    [|done|by apply Emits_forEachFrom].
  apply elem_of_app.
  apply elem_of_cons in Hin as [->|Hin]; [by left | right; by apply IH].
Qed.

Lemma filter_none {A} (P : A → Prop) `{!∀ x, Decision (P x)} (l : list A) :
  (∀ x, x ∈ l → ¬ P x) → filter P l = [].
Proof.
  induction l as [|x l IH]; intros Hl; [done|].
  rewrite filter_cons_False by (apply Hl; apply list_elem_of_here).
  apply IH. intros y Hy. apply Hl. by apply list_elem_of_further.
Qed.

(** ** TTL windows *)

Definition ttl_field : string := "messageSendTtlSeconds".

Definition authenticationTtlError : ValidationError :=
  mkDiag ttl_field
    "Authentication templates TTL must be between 30 seconds and 15 minutes (900 seconds)"
    (Some "Set TTL between 30 and 900 seconds") None Severity.error.

Lemma authentication_errors template :
  category template = AUTHENTICATION →
  errorsOf (validateCategorySpecificRules template)
  = if ttlOutside (messageSendTtlSeconds template) 30 900
    then [authenticationTtlError] else [].
Proof.
  intros Hcat. unfold validateCategorySpecificRules. rewrite Hcat.
  unfold validateAuthenticationTemplate, errorsOf, andThen, when.
  repeat case_match; reflexivity.
Qed.

(** The passes that never raise an error on the TTL field. *)
Lemma no_ttl_error_outside_ttl_passes template e :
  e ∈ errorsOf (validateBasicStructure template)
      ++ errorsOf (validateComponentCombinations template)
      ++ errorsOf (validateVariableUsage template)
      ++ errorsOf (validateCharacterLimits template)
      ++ errorsOf (validateButtonCombinations template)
      ++ errorsOf (validateMediaRequirements template) →
  field e ≠ ttl_field.
Proof.
  rewrite !elem_of_app. intros [H|[H|[H|[H|[H|H]]]]]; revert H;
    (eapply no_error_on_field; [auto with passes | not_in_names | done]).
Qed.

(** C5. For every template with category AUTHENTICATION and
    [messageSendTtlSeconds = 1000], exactly one diagnostic of the report
    has severity error and field [messageSendTtlSeconds]: the one of the
    category pass (the window [30, 900]); the general TTL pass adds
    none. *)
Theorem authentication_ttl_1000_one_error (template : WhatsAppTemplate) :
  category template = AUTHENTICATION →
  messageSendTtlSeconds template = Some 1000%Z →
  filter (λ d, severity d = Severity.error ∧ field d = ttl_field)
    (diagnostics (validate template))
  = [authenticationTtlError]
  ∧ errorsOf (validateTTLSettings template) = [].
Proof.
  intros Hcat Httl.
  assert (Hlast : errorsOf (validateTTLSettings template) = []).
  { unfold errorsOf, validateTTLSettings. by rewrite Httl. }
  split; [|done].
  destruct (validate_severities template) as (_ & Hw & Hi).
  rewrite Forall_forall in Hw, Hi.
  unfold diagnostics. rewrite !filter_app.
  rewrite (filter_none _ (warnings _)), (filter_none _ (info _)).
  2: { intros d Hd [Hsev _]. specialize (Hi d Hd). congruence. }
  2: { intros d Hd [Hsev _]. specialize (Hw d Hd). congruence. }
  rewrite !app_nil_r, validate_errors, Hlast, app_nil_r.
  rewrite (authentication_errors _ Hcat), Httl.
  change (ttlOutside (Some 1000%Z) 30 900) with true. cbv iota.
  rewrite filter_app.
  rewrite (filter_none _ (errorsOf (validateBasicStructure _))); simpl.
  2: { intros d Hd [_ Hf].
       eapply no_ttl_error_outside_ttl_passes; [|exact Hf].
       apply elem_of_app. by left. }
  rewrite filter_cons_True by done. f_equal.
  apply filter_none.
  intros d Hd [_ Hf].
  eapply no_ttl_error_outside_ttl_passes; [|exact Hf].
  apply elem_of_app. by right.
Qed.

Lemma authentication_ttl_1000_one_error_witness :
  let template :=
    mkTemplate None "login_code" "en" AUTHENTICATION None (Some 1000%Z)
      [BodyComponent "{{1}} is your code." None None] in
  filter (λ d, severity d = Severity.error ∧ field d = ttl_field)
    (diagnostics (validate template))
  = [authenticationTtlError]
  ∧ errorsOf (validateTTLSettings template) = [].
Proof.
  intros template.
  apply (authentication_ttl_1000_one_error template); reflexivity.
Defined.

(** ** Button caps *)

Global Instance ButtonType_str_inj : Inj (=) (=) ButtonType_str.
Proof. intros [] []; simpl; intros H; (reflexivity || discriminate H). Qed.

(** How many buttons of a type a list has. *)
Definition countType (ty : ButtonType) (buttons : list Button) : nat :=
  length (filter (λ b, button_type b = ty) buttons).

Lemma foldl_countButton_lookup ty buttons (counts : gmap string nat) :
  foldl countButton counts buttons !! ButtonType_str ty
  = match countType ty buttons with
    | 0 => counts !! ButtonType_str ty
    | S n => Some (default 0 (counts !! ButtonType_str ty) + S n)
    end.
Proof.
  revert counts. unfold countType.
  induction buttons as [|b buttons IH]; intros counts; [done|].
  cbn [foldl]. rewrite IH. unfold countButton.
  destruct (decide (button_type b = ty)) as [Heq|Hne].
  - rewrite filter_cons_True by done. rewrite Heq, lookup_insert_eq.
    cbn [length].
    destruct (length _); cbn [default]; unfold id; f_equal; lia.
  - rewrite filter_cons_False by done.
    rewrite lookup_insert_ne; [done|].
    intros Heq. by apply (inj ButtonType_str) in Heq.
Qed.

Lemma countAbove_buttonCounts ty buttons k :
  countAbove (buttonCounts buttons) (ButtonType_str ty) k
  = (k <? countType ty buttons).
Proof.
  unfold countAbove, buttonCounts. rewrite foldl_countButton_lookup.
  rewrite lookup_empty. by destruct (countType ty buttons).
Qed.

Definition phoneNumberCapError : ValidationError :=
  mkDiag "buttons" "Maximum 1 phone number button allowed"
    (Some "Remove extra phone number buttons") None Severity.error.

(** The button-combinations pass on the component it looks at. *)
Lemma phone_cap_error template buttons :
  find_component BUTTONS (components template)
  = Some (ButtonsComponent buttons) →
  1 < countType PHONE_NUMBER buttons →
  phoneNumberCapError ∈ errorsOf (validateButtonCombinations template).
Proof.
  intros Hfind Hcount. unfold validateButtonCombinations.
  rewrite Hfind. cbn [component_buttons].
  change "PHONE_NUMBER" with (ButtonType_str PHONE_NUMBER).
  rewrite countAbove_buttonCounts.
  apply Nat.ltb_lt in Hcount. rewrite Hcount.
  eapply (errorsOf_andThen_l anyField).
  - emits. done.
  - emits; done.
  - apply list_elem_of_here.
Qed.

(** C6, as stated, fails: the button-combinations pass looks at the
    first BUTTONS component only ([components.find]). In a template
    with two BUTTONS components, the second of which has two
    PHONE_NUMBER buttons, the report has no error at all. *)
Lemma phone_number_cap_counterexample :
  let buttons :=
    [PhoneButton "Call sales" "+15550100";
     PhoneButton "Call support" "+15550101"] in
  let template :=
    mkTemplate None "contact_us" "en" UTILITY None None
      [BodyComponent "Talk to us." None None;
       ButtonsComponent [QuickReplyButton "Yes"];
       ButtonsComponent buttons] in
  ButtonsComponent buttons ∈ components template
  ∧ 1 < length (filter (λ b, button_type b = PHONE_NUMBER) buttons)
  ∧ atMostOneEach (components template) = false
  ∧ errors (validate template) = []
  ∧ ∀ e, e ∈ errors (validate template) → field e ≠ "buttons".
Proof.
  intros buttons template.
  assert (Hnone : errors (validate template) = []) by (by vm_compute).
  split_and!.
  - do 2 apply list_elem_of_further. apply list_elem_of_here.
  - vm_compute; lia.
  - reflexivity.
  - exact Hnone.
  - intros e. rewrite Hnone. by intros ?%elem_of_nil.
Qed.

(** C6 (amended). For every template with at most one HEADER, FOOTER
    and BUTTONS component (the invariant of the schema) that contains a
    BUTTONS component with more than one PHONE_NUMBER button, the report
    holds an error on the field [buttons], raised by the
    button-combinations pass. *)
Theorem phone_number_cap_error
    (template : WhatsAppTemplate) (buttons : list Button) :
  atMostOneEach (components template) = true →
  ButtonsComponent buttons ∈ components template →
  1 < length (filter (λ b, button_type b = PHONE_NUMBER) buttons) →
  ∃ e, e ∈ errorsOf (validateButtonCombinations template)
       ∧ e ∈ errors (validate template)
       ∧ severity e = Severity.error
       ∧ field e = "buttons".
Proof.
  intros Hone Hin Hcount.
  apply atMostOneEach_counts in Hone as (_ & _ & Hbuttons).
  pose proof (find_component_unique BUTTONS _ _ Hbuttons Hin eq_refl)
    as Hfind.
  pose proof (phone_cap_error template buttons Hfind Hcount) as Herr.
  exists phoneNumberCapError. split_and!; try done.
  rewrite validate_errors, !elem_of_app. do 5 right. by left.
Qed.

Lemma phone_number_cap_error_witness :
  let buttons :=
    [PhoneButton "Call sales" "+15550100";
     PhoneButton "Call support" "+15550101"] in
  let template :=
    mkTemplate None "contact_us" "en" UTILITY None None
      [BodyComponent "Talk to us." None None; ButtonsComponent buttons] in
  atMostOneEach (components template) = true
  ∧ 1 < length (filter (λ b, button_type b = PHONE_NUMBER) buttons)
  ∧ ∃ e, e ∈ errorsOf (validateButtonCombinations template)
         ∧ e ∈ errors (validate template)
         ∧ severity e = Severity.error
         ∧ field e = "buttons".
Proof.
  intros buttons template.
  split; [reflexivity|]. split; [vm_compute; lia|].
  apply (phone_number_cap_error template buttons);
    [reflexivity | apply list_elem_of_further, list_elem_of_here
    | vm_compute; lia].
Defined.

(** ** The sequencing error names the numbers found *)

Definition gapText : string := "Hi {{1}}, {{3}}".

Definition gapError : ValidationError :=
  mkDiag "body.text"
    "Variables must be sequential starting from {{1}}. Found: {{1}}, {{3}}"
    (Some "Use variables {{1}}, {{2}}, {{3}}, etc. in sequence")
    None Severity.error.

Lemma Emits_checkComponentVariables component j :
  Emits anyField (checkComponentVariables component j).
Proof.
  unfold checkComponentVariables, checkURLButton.
  emits; try (apply Emits_validateVariablesInText); done.
Qed.

(** C7. For every template with a BODY component whose text is
    ["Hi {{1}}, {{3}}"], the report holds an error on [body.text] whose
    message ends with the numbers found, written
    [Found: {{1}}, {{3}}]. *)
Theorem body_gap_error_lists_found
    (template : WhatsAppTemplate) (flag : option bool)
    (example : option Example) :
  BodyComponent gapText flag example ∈ components template →
  ∃ e, e ∈ errors (validate template)
       ∧ severity e = Severity.error
       ∧ field e = "body.text"
       ∧ message e
         = "Variables must be sequential starting from {{1}}. "
             +:+ "Found: {{1}}, {{3}}".
Proof.
  intros Hin. exists gapError. split_and!; try done.
  rewrite validate_errors, !elem_of_app. do 3 right. left.
  unfold validateVariableUsage, forEach.
  eapply errorsOf_forEachFrom;
    [apply Emits_checkComponentVariables | exact Hin |].
  intros j. vm_compute. apply list_elem_of_here.
Qed.

Lemma body_gap_error_lists_found_witness :
  let template :=
    mkTemplate None "greeting" "en" MARKETING None None
      [BodyComponent gapText None None] in
  ∃ e, e ∈ errors (validate template)
       ∧ severity e = Severity.error
       ∧ field e = "body.text"
       ∧ message e
         = "Variables must be sequential starting from {{1}}. "
             +:+ "Found: {{1}}, {{3}}".
Proof.
  intros template.
  apply (body_gap_error_lists_found template None None).
  apply list_elem_of_here.
Defined.

(** ** The built-in AUTHENTICATION example *)

(** C9. The example template for AUTHENTICATION has TTL 600 and one OTP
    button of type COPY_CODE; its report has [isValid = true] and no
    error, and each of the eight passes, run on its own, raises no
    error. *)
Theorem authentication_example_valid :
  let template := generateExampleTemplate AUTHENTICATION in
  messageSendTtlSeconds template = Some 600%Z
  ∧ find_component BUTTONS (components template)
    = Some (ButtonsComponent
              [OTPButton OTPType.COPY_CODE (Some "Copy Code") None None None
                 None])
  ∧ isValid (validate template) = true
  ∧ errors (validate template) = []
  ∧ errorsOf (validateBasicStructure template) = []
  ∧ errorsOf (validateCategorySpecificRules template) = []
  ∧ errorsOf (validateComponentCombinations template) = []
  ∧ errorsOf (validateVariableUsage template) = []
  ∧ errorsOf (validateCharacterLimits template) = []
  ∧ errorsOf (validateButtonCombinations template) = []
  ∧ errorsOf (validateMediaRequirements template) = []
  ∧ errorsOf (validateTTLSettings template) = [].
Proof. by vm_compute. Qed.

(** ** A TTL of zero *)

(** The template with its TTL field replaced. *)
Definition withTtl (ttl : option Z) (template : WhatsAppTemplate)
  : WhatsAppTemplate :=
  mkTemplate (wabaId template) (name template) (language template)
    (category template) (subCategory template) ttl (components template).

Definition ttlSuggestion : ValidationError :=
  mkDiag ttl_field "Consider setting a TTL (time-to-live) for your template"
    (Some "Add messageSendTtlSeconds based on your template category")
    None Severity.info.

Lemma category_errors_ttl_zero template :
  messageSendTtlSeconds template = Some 0%Z →
  errorsOf (validateCategorySpecificRules template) = [].
Proof.
  intros Httl.
  unfold validateCategorySpecificRules, validateAuthenticationTemplate,
    validateUtilityTemplate, validateMarketingTemplate, errorsOf, andThen,
    when.
  rewrite Httl. unfold ttlOutside. cbn [JS.truthy_onum Z.eqb negb andb].
  repeat case_match; reflexivity.
Qed.

(** C10. For every template whose [messageSendTtlSeconds] is present
    with value 0: the TTL pass pushes the "consider setting a TTL"
    suggestion and nothing else, the category pass raises no error, no
    error of the report is on [messageSendTtlSeconds], and the whole
    report is the one of the same template without a TTL. *)
Theorem ttl_zero_treated_as_absent (template : WhatsAppTemplate) :
  messageSendTtlSeconds template = Some 0%Z →
  validateTTLSettings template empty_acc = mkAcc [] [] [ttlSuggestion]
  ∧ errorsOf (validateCategorySpecificRules template) = []
  ∧ (∀ e, e ∈ errors (validate template) → field e ≠ ttl_field)
  ∧ validate template = validate (withTtl None template).
Proof.
  intros Httl.
  assert (Hpass : validateTTLSettings template empty_acc
                  = mkAcc [] [] [ttlSuggestion]).
  { unfold validateTTLSettings. by rewrite Httl. }
  pose proof (category_errors_ttl_zero template Httl) as Hcat.
  split_and!; try done.
  - intros e. rewrite validate_errors, Hcat.
    unfold errorsOf at 7. rewrite Hpass. cbn [this_errors].
    rewrite app_nil_r, app_nil_l.
    apply no_ttl_error_outside_ttl_passes.
  - destruct template as [w n l c s t cs]. simpl in Httl. subst t.
    unfold withTtl, validate, runPasses, validateCategorySpecificRules,
      validateAuthenticationTemplate, validateUtilityTemplate,
      validateMarketingTemplate, validateTTLSettings; simpl.
    by destruct c.
Qed.

Lemma ttl_zero_treated_as_absent_witness :
  let template :=
    mkTemplate None "order_update" "en" UTILITY None (Some 0%Z)
      [BodyComponent "Order {{1}} shipped." None None] in
  validateTTLSettings template empty_acc = mkAcc [] [] [ttlSuggestion]
  ∧ errorsOf (validateCategorySpecificRules template) = []
  ∧ (∀ e, e ∈ errors (validate template) → field e ≠ ttl_field)
  ∧ validate template = validate (withTtl None template).
Proof.
  intros template. apply (ttl_zero_treated_as_absent template). reflexivity.
Defined.

(** ** The position mapper *)

Definition newline : ascii := "010".

(** The characters of a string. *)
Definition chars (s : string) : list ascii := String.list_ascii_of_string s.

Definition str (l : list ascii) : string := String.string_of_list_ascii l.

Lemma str_chars s : str (chars s) = s.
Proof. apply String.string_of_list_ascii_of_string. Qed.

Lemma length_str l : String.length (str l) = length l.
Proof. induction l; simpl; [done | by f_equal]. Qed.

Lemma length_chars s : length (chars s) = String.length s.
Proof. induction s; simpl; [done | by f_equal]. Qed.

Lemma chars_substring0 position text :
  chars (substring0 position text) = take position (chars text).
Proof.
  unfold substring0. revert position.
  induction text as [|c text IH]; intros [|position]; simpl; try done.
  by rewrite IH.
Qed.

Lemma split_newline_nonempty s : split_newline s ≠ [].
Proof.
  destruct s as [|c s]; simpl; [done|].
  destruct (Ascii.eqb c "010"); [done|]. by destruct (split_newline s).
Qed.

(** One more segment than there are newlines. *)
Lemma length_split_newline s :
  length (split_newline s) = 1 + length (filter (λ c, c = newline) (chars s)).
Proof.
  induction s as [|c s IH]; [done|].
  cbn [split_newline chars String.list_ascii_of_string].
  fold (chars s).
  destruct (Ascii.eqb_spec c "010") as [->|Hne].
  - rewrite filter_cons_True by done. simpl. by rewrite IH.
  - rewrite filter_cons_False by done. rewrite <- IH.
    pose proof (split_newline_nonempty s).
    by destruct (split_newline s).
Qed.

Lemma split_newline_line l :
  Forall (λ c, c ≠ newline) l → split_newline (str l) = [str l].
Proof.
  induction 1 as [|c l Hc _ IH]; [done|]. simpl.
  destruct (Ascii.eqb_spec c "010") as [->|_]; [done|]. by rewrite IH.
Qed.

Lemma split_newline_app l1 l2 :
  split_newline (str (l1 ++ newline :: l2))
  = split_newline (str l1) ++ split_newline (str l2).
Proof.
  induction l1 as [|c l1 IH]; [done|]. simpl.
  rewrite IH. destruct (Ascii.eqb c "010"); [done|].
  pose proof (split_newline_nonempty (str l1)).
  by destruct (split_newline (str l1)).
Qed.

Lemma last_app_singleton {A} (l : list A) x d : List.last (l ++ [x]) d = x.
Proof. apply List.last_last. Qed.

(** C8. For every text and every offset [position] with
    [0 ≤ position ≤ length of text]: the line is one more than the number
    of newline characters among the first [position] characters; the
    column is one more than the number of characters between the last
    such newline and the offset, or between the start of the text and the
    offset when there is none. *)
Theorem getLineAndColumn_spec (text : string) (position : nat) :
  position ≤ String.length text →
  lc_line (getLineAndColumn text position)
  = 1 + length (filter (λ c, c = newline) (take position (chars text)))
  ∧ ((∀ j, j < position → chars text !! j ≠ Some newline) →
     lc_column (getLineAndColumn text position) = 1 + position)
  ∧ (∀ j, j < position → chars text !! j = Some newline →
          (∀ k, j < k < position → chars text !! k ≠ Some newline) →
          lc_column (getLineAndColumn text position)
          = 1 + (position - (j + 1))).
Proof.
  intros Hle. unfold getLineAndColumn; cbn [lc_line lc_column].
  rewrite <- length_chars in Hle.
  set (pre := take position (chars text)).
  assert (Hpre : substring0 position text = str pre).
  { by rewrite <- (str_chars (substring0 _ _)), chars_substring0. }
  assert (Hlen : length pre = position) by (apply length_take_le; lia).
  rewrite Hpre. split_and!.
  - rewrite length_split_newline. by rewrite <- Hpre, chars_substring0.
  - intros Hnone. rewrite split_newline_line.
    + simpl. rewrite length_str. lia.
    + apply Forall_forall. intros c Hc.
      apply list_elem_of_lookup in Hc as [j Hj]. intros ->.
      pose proof (lookup_lt_Some _ _ _ Hj) as Hjlt.
      unfold pre in Hj. rewrite lookup_take_lt in Hj by lia.
      apply (Hnone j); [lia | done].
  - intros j Hj Hnl Hafter.
    assert (Hsplit : pre = take j pre ++ newline :: drop (S j) pre).
    { symmetry. apply take_drop_middle.
      unfold pre. by rewrite lookup_take_lt by lia. }
    rewrite Hsplit, split_newline_app.
    rewrite (split_newline_line (drop (S j) pre)).
    + rewrite last_app_singleton, length_str, length_drop. lia.
    + apply Forall_forall. intros c Hc.
      apply list_elem_of_lookup in Hc as [k Hk]. intros ->.
      rewrite lookup_drop in Hk.
      pose proof (lookup_lt_Some _ _ _ Hk) as Hklt.
      unfold pre in Hk. rewrite lookup_take_lt in Hk by lia.
      apply (Hafter (S j + k)); [lia | done].
Qed.

Lemma getLineAndColumn_spec_witness :
  let text := String "a" (String "b" (String newline (String "c" "d"))) in
  4 ≤ String.length text
  ∧ lc_line (getLineAndColumn text 4) = 2
  ∧ lc_column (getLineAndColumn text 4) = 2.
Proof.
  intros text.
  destruct (getLineAndColumn_spec text 4) as (Hline & _ & Hcol);
    [vm_compute; lia|].
  split; [vm_compute; lia|]. split; [exact Hline|].
  apply (Hcol 2); [lia | reflexivity |].
  intros k Hk. assert (k = 3) as -> by lia. discriminate.
Defined.

(** * Further properties of the rule engine *)

(** The warnings of one pass, run on its own. *)
Definition warningsOf (p : Pass) : list ValidationError :=
  this_warnings (p empty_acc).

Lemma warningsOf_andThen okE p q :
  Emits okE q →
  warningsOf (p >>> q) = warningsOf p ++ warningsOf q.
Proof.
  intros Hq. unfold warningsOf, andThen.
  by rewrite (Emits_acc_app _ q Hq).
Qed.

Lemma errorsOf_andThen_any okE p q :
  Emits okE q → errorsOf (p >>> q) = errorsOf p ++ errorsOf q.
Proof.
  intros Hq. unfold errorsOf, andThen.
  by rewrite (Emits_acc_app _ q Hq).
Qed.

(** ** The placeholder check and the schema *)

(** X1. The placeholder check of the rule engine pushes nothing on a
    text exactly when the sequencing refinement of the schema accepts
    the text; on a text the schema rejects it pushes exactly one error;
    and when the placeholder numbers of the text are below 2^53, that
    error is the sequencing error listing the sorted numbers. *)
Theorem variables_check_agrees_with_schema (text field : string) :
  (validateVariablesInText text field empty_acc = empty_acc
   ↔ sequentialRefine true text = true)
  ∧ (sequentialRefine true text = false →
     length (errorsOf (validateVariablesInText text field)) = 1)
  ∧ (numbersExact text →
     sequentialRefine true text = false →
     errorsOf (validateVariablesInText text field)
     = [sequenceError field (sortedVariables text)]).
Proof.
  unfold errorsOf. rewrite validateVariablesInText_eq.
  unfold sequentialRefine; cbn [negb].
  destruct (matchAll text) as [|m ms] eqn:Hm; [by split_and!|].
  cbn [length Nat.ltb Nat.leb Nat.eqb].
  destruct (sequentialLoop 0 (sortedVariables text)) eqn:Hseq;
    [|by split_and!].
  split_and!; [|done|done]. split; [done|intros _].
  apply sequentialLoop_run in Hseq.
  assert (Hnd : NoDup (sortedVariables text))
    by (rewrite Hseq; apply NoDup_upTo_from).
  apply size_uniqueVariables in Hnd. rewrite Hnd, Nat.eqb_refl. done.
Qed.

Lemma variables_check_agrees_with_schema_witness :
  numbersExact "Hi {{2}}"
  ∧ sequentialRefine true "Hi {{2}}" = false
  ∧ length (errorsOf (validateVariablesInText "Hi {{2}}" "body.text")) = 1
  ∧ errorsOf (validateVariablesInText "Hi {{2}}" "body.text")
    = [sequenceError "body.text" (sortedVariables "Hi {{2}}")].
Proof.
  assert (Hexact : numbersExact "Hi {{2}}").
  { unfold numbersExact. apply (bool_decide_unpack _). vm_compute. exact I. }
  destruct (variables_check_agrees_with_schema "Hi {{2}}" "body.text")
    as (_ & Hone & Hmsg).
  split; [exact Hexact|]. split; [reflexivity|].
  split; [apply Hone; reflexivity | apply Hmsg; [exact Hexact|reflexivity]].
Defined.


(** ** The order of the components *)

(** The place of a component in the canonical order. *)
Definition rank (c : Component) : Z :=
  indexOf componentOrder (component_type c).

Lemma rank_nonneg c : (0 ≤ rank c)%Z.
Proof. by destruct c. Qed.

Lemma orderLoop_warnings cs index lastValidIndex :
  warningsOf (orderLoop cs index lastValidIndex) = []
  ↔ Forall (λ c, (lastValidIndex ≤ rank c)%Z) cs
    ∧ StronglySorted Z.le (rank <$> cs).
Proof.
  revert index lastValidIndex.
  induction cs as [|c cs IH]; intros index lastValidIndex.
  { split; [intros _; split; constructor | done]. }
  cbn [orderLoop]. fold (rank c).
  rewrite (warningsOf_andThen (λ _, True)) by apply Emits_orderLoop.
  rewrite fmap_cons, Forall_cons, StronglySorted_cons, Forall_fmap.
  split.
  - intros [Hw Hrest]%app_nil. apply IH in Hrest as [Hall Hsorted].
    destruct (Z.ltb_spec (rank c) lastValidIndex) as [Hlt|Hge];
      [discriminate Hw|].
    split_and!; try done.
    + eapply Forall_impl; [exact Hall|]. simpl; intros; lia.
    + eapply Forall_impl; [exact Hall|]. simpl; intros; lia.
  - intros ((Hc & Hall) & Hfrom & Hsorted). apply app_nil. split.
    + by destruct (Z.ltb_spec (rank c) lastValidIndex) as [Hlt|Hge]; [lia|].
    + apply IH. split; [|done].
      apply Forall_forall. intros c' Hc'.
      rewrite Forall_forall in Hall, Hfrom.
      specialize (Hall c' Hc'). specialize (Hfrom c' Hc'). simpl in Hfrom.
      lia.
Qed.

(** X2. The basic-structure pass raises its error exactly when the
    template has no BODY component, and pushes no warning exactly when
    the components are in the canonical order HEADER, BODY, FOOTER,
    BUTTONS (every component is ranked at least as high as all those
    before it). *)
Theorem basic_structure_diagnostics (template : WhatsAppTemplate) :
  (errorsOf (validateBasicStructure template) = []
   ↔ ∃ c, c ∈ components template ∧ component_type c = BODY)
  ∧ (warningsOf (validateBasicStructure template) = []
     ↔ StronglySorted Z.le (rank <$> components template)).
Proof.
  unfold validateBasicStructure. split.
  - rewrite (errorsOf_andThen_any (λ _, True)) by apply Emits_orderLoop.
    assert (Hloop : errorsOf (orderLoop (components template) 0 (-1)) = []).
    { pose proof (Emits_fields _ _
        (Emits_orderLoop (λ _, False) (components template) 0 (-1)%Z)) as H.
      unfold errorsOf. destruct (this_errors _); [done|].
      by apply Forall_cons in H as [[] _]. }
    rewrite Hloop, app_nil_r. unfold find_component.
    destruct (List.find _ (components template)) as [c|] eqn:Hfind; simpl.
    + split; [intros _|done]. apply List.find_some in Hfind as [Hin Hty].
      exists c. split; [by apply list_elem_of_In|].
      by apply bool_decide_eq_true in Hty.
    + split; [done|]. intros (c & Hin & Hty). exfalso.
      apply list_elem_of_In in Hin.
      pose proof (List.find_none _ _ Hfind c Hin) as Hnone. simpl in Hnone.
      by rewrite bool_decide_true in Hnone.
  - rewrite (warningsOf_andThen (λ _, True)) by apply Emits_orderLoop.
    assert (Hfirst : warningsOf
                       (when (negb (JS.truthy_oobj
                          (find_component BODY (components template))))
                          (addError "components"
                             "Template must have a BODY component"
                             (Some "Add a BODY component with your message text")))
                     = []).
    { by destruct (negb _). }
    rewrite Hfirst, app_nil_l, orderLoop_warnings.
    split; [by intros [_ ?]|]. intros Hsorted. split; [|done].
    apply Forall_forall. intros c _. pose proof (rank_nonneg c). lia.
Qed.

(** ** The header checks and the schema *)

Lemma Emits_otp_part (bc : option Component) :
  Emits (isField [])
    (match bc with
     | Some bc => forEachOpt checkOTPButton (component_buttons bc)
     | None => skip
     end).
Proof. unfold checkOTPButton. emits; auto with fields. Qed.

(** X3. The component-combinations pass raises an error on
    [header.text] or on [header.example.header_url] exactly when the
    header refinement of the schema rejects the components. *)
Theorem header_errors_agree_with_schema (template : WhatsAppTemplate) :
  (∀ e, e ∈ errorsOf (validateComponentCombinations template) →
        field e ≠ "header.text" ∧ field e ≠ header_url_field)
  ↔ headerRequirements (components template) = true.
Proof.
  unfold validateComponentCombinations.
  rewrite (errorsOf_andThen_any _ _ _ (Emits_otp_part _)).
  assert (Hotp : ∀ e,
    e ∈ errorsOf (match find_component BUTTONS (components template) with
                  | Some bc => forEachOpt checkOTPButton (component_buttons bc)
                  | None => skip
                  end) →
    field e ≠ "header.text" ∧ field e ≠ header_url_field).
  { intros e He. split;
      (eapply no_error_on_field;
       [apply Emits_otp_part | not_in_names | done | exact He]). }
  unfold headerRequirements, isMediaFormat.
  destruct (find_component HEADER (components template)) as [hc|].
  2: { split; [done|]. intros _ e He. apply Hotp.
       by rewrite app_nil_l in He. }
  destruct (bool_decide (component_format hc = Some TEXT)
            && negb (JS.truthy_ostr (component_text hc))) eqn:Htext;
    destruct (JS.truthy_oobj (component_format hc)
              && negb (bool_decide (component_format hc = Some TEXT))
              && negb (JS.truthy_oobj
                         (example_header_url (component_example hc))))
      eqn:Hurl;
    unfold errorsOf at 1, andThen, when; cbn [this_errors addError app].
  - split; [|done]. intros Hall. exfalso.
    destruct (Hall _ (list_elem_of_here _ _)) as [H _]. by apply H.
  - split; [|done]. intros Hall. exfalso.
    destruct (Hall _ (list_elem_of_here _ _)) as [H _]. by apply H.
  - split; [|done]. intros Hall. exfalso.
    destruct (Hall _ (list_elem_of_here _ _)) as [_ H]. by apply H.
  - split; [done|]. intros _ e He. by apply Hotp.
Qed.

(** ** TTL windows of the three categories *)

(** The window of the category pass. *)
Definition ttlWindow (c : TemplateCategory) : Z * Z :=
  match c with
  | AUTHENTICATION => (30, 900)
  | UTILITY => (30, 43200)
  | MARKETING => (43200, 2592000)
  end%Z.

(** The TTL is missing, zero, or within the bounds. *)
Definition ttlAccepted (o : option Z) (lo hi : Z) : Prop :=
  match o with
  | None => True
  | Some ttl => ttl = 0%Z ∨ (lo ≤ ttl ≤ hi)%Z
  end.

Lemma ttlOutside_false o lo hi :
  ttlOutside o lo hi = false ↔ ttlAccepted o lo hi.
Proof.
  unfold ttlOutside, ttlAccepted. destruct o as [ttl|]; simpl; [|done].
  destruct (Z.eqb_spec ttl 0); simpl; [by split; auto|].
  rewrite orb_false_iff, !Z.ltb_ge. split; [by right | intros [?|?]; lia].
Qed.

Lemma category_errors template :
  errorsOf (validateCategorySpecificRules template)
  = if ttlOutside (messageSendTtlSeconds template)
         (ttlWindow (category template)).1 (ttlWindow (category template)).2
    then [mkDiag ttl_field
            match category template with
            | AUTHENTICATION =>
                "Authentication templates TTL must be between 30 seconds and 15 minutes (900 seconds)"
            | UTILITY =>
                "Utility templates TTL must be between 30 seconds and 12 hours (43200 seconds)"
            | MARKETING =>
                "Marketing templates TTL must be between 12 hours (43200 seconds) and 30 days (2592000 seconds)"
            end
            (Some match category template with
                  | AUTHENTICATION => "Set TTL between 30 and 900 seconds"
                  | UTILITY => "Set TTL between 30 and 43200 seconds"
                  | MARKETING => "Set TTL between 43200 and 2592000 seconds"
                  end)
            None Severity.error]
    else [].
Proof.
  unfold validateCategorySpecificRules, validateAuthenticationTemplate,
    validateUtilityTemplate, validateMarketingTemplate, errorsOf, andThen,
    when.
  destruct (category template); cbn [ttlWindow fst snd];
    repeat case_match; reflexivity.
Qed.

(** X4. The category pass raises at most one error, always on
    [messageSendTtlSeconds], and none exactly when the TTL is missing,
    zero, or within the window of the template's category: [30, 900]
    for AUTHENTICATION, [30, 43200] for UTILITY, [43200, 2592000] for
    MARKETING. *)
Theorem category_ttl_window (template : WhatsAppTemplate) :
  (errorsOf (validateCategorySpecificRules template) = []
   ↔ ttlAccepted (messageSendTtlSeconds template)
       (ttlWindow (category template)).1 (ttlWindow (category template)).2)
  ∧ length (errorsOf (validateCategorySpecificRules template)) ≤ 1
  ∧ Forall (λ e, field e = ttl_field)
      (errorsOf (validateCategorySpecificRules template)).
Proof.
  rewrite category_errors, <- ttlOutside_false.
  destruct (ttlOutside _ _ _); simpl; split_and!;
    try done; try lia; by repeat constructor.
Qed.

Lemma ttl_pass_errors template :
  errorsOf (validateTTLSettings template)
  = match messageSendTtlSeconds template with
    | None => []
    | Some ttl =>
        if (ttl =? 0)%Z then []
        else if (ttl <? 30)%Z
        then [mkDiag ttl_field "TTL cannot be less than 30 seconds"
                (Some "Set TTL to at least 30 seconds") None Severity.error]
        else if (2592000 <? ttl)%Z
        then [mkDiag ttl_field "TTL cannot exceed 30 days (2592000 seconds)"
                (Some "Set TTL to maximum 2592000 seconds") None
                Severity.error]
        else []
    end.
Proof.
  unfold errorsOf, validateTTLSettings.
  destruct (messageSendTtlSeconds template) as [ttl|]; [|done]. simpl.
  destruct (Z.eqb_spec ttl 0) as [->|_]; [done|]. simpl.
  unfold andThen, when.
  destruct (Z.ltb_spec ttl 30), (Z.ltb_spec 2592000 ttl);
    try reflexivity; lia.
Qed.

(** X5. The TTL pass raises at most one error; it raises none exactly
    when the TTL is missing, zero, or within [30, 2592000], the bounds
    of the schema; and whenever it raises one, the category pass raises
    one as well, whatever the category. *)
Theorem ttl_pass_subsumed (template : WhatsAppTemplate) :
  (errorsOf (validateTTLSettings template) = []
   ↔ ttlAccepted (messageSendTtlSeconds template) 30 2592000)
  ∧ length (errorsOf (validateTTLSettings template)) ≤ 1
  ∧ (errorsOf (validateTTLSettings template) ≠ [] →
     errorsOf (validateCategorySpecificRules template) ≠ []).
Proof.
  rewrite ttl_pass_errors, category_errors.
  unfold ttlAccepted, ttlOutside.
  destruct (messageSendTtlSeconds template) as [ttl|];
    [|by split_and!; auto].
  cbn [JS.truthy_onum].
  destruct (Z.eqb_spec ttl 0) as [->|Hnz]; cbn [negb andb].
  { split_and!; [split; [by left | done] | simpl; lia | done]. }
  destruct (category template); cbn [ttlWindow fst snd];
    repeat match goal with
           | |- context [(?a <? ?b)%Z] => destruct (Z.ltb_spec a b)
           end;
    cbn [orb length];
    (split_and!; [split; [try done; intros _; right; lia
                         | try done; intros [?|?]; lia]
                 | lia | try done; lia]).
Qed.

Lemma ttl_pass_subsumed_witness :
  let template :=
    mkTemplate None "order_update" "en" UTILITY None (Some 10%Z)
      [BodyComponent "Order {{1}} shipped." None None] in
  errorsOf (validateTTLSettings template) ≠ []
  ∧ errorsOf (validateCategorySpecificRules template) ≠ [].
Proof.
  intros template.
  assert (H : errorsOf (validateTTLSettings template) ≠ [])
    by (vm_compute; discriminate).
  split; [exact H|].
  apply (ttl_pass_subsumed template). exact H.
Defined.


(** ** OTP buttons *)

Lemma errorsOf_forEachFrom_index {A} (f : A → nat → Pass) i l k x d :
  (∀ y j, Emits anyField (f y j)) →
  l !! k = Some x → d ∈ errorsOf (f x (i + k)) →
  d ∈ errorsOf (forEachFrom f i l).
Proof.
  intros Hf. revert i k.
  induction l as [|y l IH]; intros i k Hk Hd; [done|].
  simpl. rewrite (errorsOf_andThen_any anyField)
    by by apply Emits_forEachFrom.
  apply elem_of_app. destruct k as [|k]; simpl in Hk.
  - left. injection Hk as ->. by rewrite Nat.add_0_r in Hd.
  - right. apply (IH (S i) k); [done|].
    by replace (S i + k) with (i + S k) by lia.
Qed.

Lemma Emits_checkOTPButton button index :
  Emits anyField (checkOTPButton button index).
Proof. unfold checkOTPButton. emits; done. Qed.

Lemma otp_error_reported template buttons i b d :
  find_component BUTTONS (components template)
  = Some (ButtonsComponent buttons) →
  buttons !! i = Some b →
  d ∈ errorsOf (checkOTPButton b i) →
  d ∈ errors (validate template).
Proof.
  intros Hfind Hb Hd.
  rewrite validate_errors, !elem_of_app. do 2 right. left.
  unfold validateComponentCombinations. rewrite Hfind.
  rewrite (errorsOf_andThen_any anyField).
  2: { apply Emits_forEachOpt. intros. apply Emits_checkOTPButton. }
  apply elem_of_app. right. simpl. unfold forEach.
  eapply errorsOf_forEachFrom_index;
    [apply Emits_checkOTPButton | exact Hb | exact Hd].
Qed.

(** X6. In the BUTTONS component the rule engine looks at, every OTP
    button of type ONE_TAP without a (non-empty) [package_name], at
    index [i], gets an error on [buttons[i].package_name], and every OTP
    button of type ZERO_TAP whose [zero_tap_terms_accepted] is not true
    gets an error on [buttons[i].zero_tap_terms_accepted]: the index in
    the field is the position of the button. *)
Theorem otp_requirements_reported
    (template : WhatsAppTemplate) (buttons : list Button) (i : nat)
    (text autofill package signature : option string)
    (accepted : option bool) :
  find_component BUTTONS (components template)
  = Some (ButtonsComponent buttons) →
  (buttons !! i
   = Some (OTPButton OTPType.ONE_TAP text autofill package signature
             accepted) →
   JS.truthy_ostr package = false →
   mkDiag (indexed "buttons" i ".package_name")
     "ONE_TAP OTP buttons require package_name"
     (Some "Add your Android app's package name") None Severity.error
   ∈ errors (validate template))
  ∧ (buttons !! i
     = Some (OTPButton OTPType.ZERO_TAP text autofill package signature
               accepted) →
     JS.truthy_obool accepted = false →
     mkDiag (indexed "buttons" i ".zero_tap_terms_accepted")
       "ZERO_TAP OTP buttons require terms acceptance"
       (Some "Set zero_tap_terms_accepted to true") None Severity.error
     ∈ errors (validate template)).
Proof.
  intros Hfind. split; intros Hb Hfalsy;
    (eapply otp_error_reported; [exact Hfind | exact Hb |]);
    unfold checkOTPButton, errorsOf, andThen, when; simpl;
    rewrite Hfalsy; simpl; apply list_elem_of_here.
Qed.

Lemma otp_requirements_reported_witness :
  let buttons :=
    [QuickReplyButton "Help";
     OTPButton OTPType.ONE_TAP (Some "Autofill") None None None None] in
  let template :=
    mkTemplate None "login_code" "en" AUTHENTICATION None None
      [BodyComponent "{{1}} is your code." None None;
       ButtonsComponent buttons] in
  mkDiag "buttons[1].package_name"
    "ONE_TAP OTP buttons require package_name"
    (Some "Add your Android app's package name") None Severity.error
  ∈ errors (validate template).
Proof.
  intros buttons template.
  apply (otp_requirements_reported template buttons 1
           (Some "Autofill") None None None None);
    reflexivity.
Defined.

(** ** Media extensions *)

Lemma str_app l1 l2 : str (l1 ++ l2) = str l1 +:+ str l2.
Proof. induction l1 as [|c l1 IH]; simpl; [done | by rewrite IH]. Qed.

Lemma length_append s1 s2 :
  String.length (s1 +:+ s2) = String.length s1 + String.length s2.
Proof. induction s1 as [|c s1 IH]; simpl; [done | by rewrite IH]. Qed.

Lemma drop_str_append s1 s2 : JS.drop_str (String.length s1) (s1 +:+ s2) = s2.
Proof. induction s1 as [|c s1 IH]; simpl; [by destruct s2 | done]. Qed.

Lemma chars_drop_str n s : chars (JS.drop_str n s) = drop n (chars s).
Proof.
  revert s. induction n as [|n IH]; intros [|c s]; simpl; done.
Qed.

(** [endsWith] is what its name says. *)
Lemma endsWith_spec s suffix :
  JS.endsWith s suffix = true ↔ ∃ stem, s = stem +:+ suffix.
Proof.
  unfold JS.endsWith. rewrite andb_true_iff, Nat.leb_le, String.eqb_eq.
  split.
  - intros [Hle Hdrop].
    exists (str (take (String.length s - String.length suffix) (chars s))).
    rewrite <- Hdrop at 2.
    rewrite <- (str_chars (JS.drop_str _ s)), chars_drop_str, <- str_app.
    by rewrite take_drop, str_chars.
  - intros [stem ->]. rewrite length_append. split; [lia|].
    replace (String.length stem + String.length suffix
             - String.length suffix) with (String.length stem) by lia.
    apply drop_str_append.
Qed.

(** The extensions the media pass asks for. *)
Definition mediaExtensions (format : HeaderFormat) : list string :=
  match format with
  | IMAGE => ["jpg"; "jpeg"; "png"]
  | VIDEO => ["mp4"]
  | DOCUMENT => ["pdf"]
  | TEXT | LOCATION => []
  end.

Lemma hasExtension_spec url exts :
  hasExtension url exts = true
  ↔ ∃ stem ext, ext ∈ exts ∧ JS.toLowerCase url = stem +:+ "." +:+ ext.
Proof.
  unfold hasExtension. rewrite existsb_exists. split.
  - intros (ext & Hin & Hends). apply endsWith_spec in Hends as [stem Hs].
    exists stem, ext. split; [by apply list_elem_of_In | done].
  - intros (stem & ext & Hin & Hs). exists ext.
    split; [by apply list_elem_of_In|]. apply endsWith_spec. by exists stem.
Qed.

(** X7. For a header of format IMAGE, VIDEO or DOCUMENT, the
    media-requirements pass raises at most one error, and none exactly
    when the first example URL is present, non-empty and, in lower case,
    ends with a dot and one of the extensions of the format ([jpg],
    [jpeg], [png]; [mp4]; [pdf]). *)
Theorem media_extension_required
    (template : WhatsAppTemplate) (hc : Component) (format : HeaderFormat) :
  find_component HEADER (components template) = Some hc →
  component_format hc = Some format →
  format = IMAGE ∨ format = VIDEO ∨ format = DOCUMENT →
  (errorsOf (validateMediaRequirements template) = []
   ↔ ∃ url stem ext,
       firstExampleUrl hc = Some url ∧ url ≠ ""
       ∧ ext ∈ mediaExtensions format
       ∧ JS.toLowerCase url = stem +:+ "." +:+ ext)
  ∧ length (errorsOf (validateMediaRequirements template)) ≤ 1.
Proof.
  intros Hfind Hfmt Hmedia.
  unfold errorsOf, validateMediaRequirements, firstExampleUrl.
  rewrite Hfind, Hfmt.
  assert (Hurl : ∀ url : string, JS.truthy_str url = true ↔ url ≠ "")
    by (by intros []).
  destruct (example_header_url (component_example hc)) as [urls|];
    cbn [mbind option_bind JS.truthy_oobj JS.truthy_ostr negb orb].
  2: { destruct Hmedia as [-> | [-> | ->] ]; simpl;
         (split; [split; [done | by intros (?&?&?&?&?)] | lia]). }
  destruct (urls !! 0) as [url|];
    cbn [JS.truthy_ostr negb].
  2: { destruct Hmedia as [-> | [-> | ->] ]; simpl;
         (split; [split; [done | by intros (?&?&?&?&?)] | lia]). }
  destruct (JS.truthy_str url) eqn:Htruthy; cbn [negb].
  2: { assert (url = "") as -> by (by destruct url).
       destruct Hmedia as [-> | [-> | ->] ]; simpl;
         (split; [split; [done | by intros (?&?&?&[= <-]&?&?)] | lia]). }
  apply Hurl in Htruthy.
  destruct Hmedia as [-> | [-> | ->] ]; unfold checkMediaExtension, when;
    cbn [mediaExtensions];
    match goal with
    | |- context [hasExtension url ?exts] =>
        pose proof (hasExtension_spec url exts) as Hspec;
        destruct (hasExtension url exts)
    end; cbn [negb this_errors addError empty_acc app length skip];
    (split; [|lia]); split; try done.
  all: try (intros _; destruct (proj1 Hspec eq_refl) as (stem & ext & ? & ?);
            by exists url, stem, ext).
  all: intros (url' & stem & ext & [= <-] & _ & Hin & Hs);
    exfalso; assert (false = true); [|done];
    apply Hspec; by exists stem, ext.
Qed.

Lemma media_extension_required_witness :
  let hc :=
    HeaderComponent (Some IMAGE) None
      (Some (mkExample None (Some ["https://example.com/Photo.PNG"]) None)) in
  let template :=
    mkTemplate None "spring_sale" "en" MARKETING None None
      [hc; BodyComponent "New arrivals." None None] in
  errorsOf (validateMediaRequirements template) = [].
Proof.
  intros hc template.
  apply (media_extension_required template hc IMAGE);
    [reflexivity | reflexivity | by left |].
  exists "https://example.com/Photo.PNG", "https://example.com/photo", "png".
  split_and!; [reflexivity | discriminate | | reflexivity].
  apply list_elem_of_further, list_elem_of_further, list_elem_of_here.
Defined.

(** ** Quick replies: the schema and the rule engine agree *)

Definition isQuickReply (b : Button) : bool :=
  bool_decide (button_type b = QUICK_REPLY).

(** The indices of the quick replies of [buttons], counted from [n]. *)
Definition indicesFrom (n : nat) (buttons : list Button) : list Z :=
  filter (λ i, i ≠ (-1)%Z)
    (imap (λ i b, if decide (button_type b = QUICK_REPLY)
                  then Z.of_nat (n + i) else (-1)%Z) buttons).

Lemma quickReplyIndices_from buttons :
  quickReplyIndices buttons = indicesFrom 0 buttons.
Proof. reflexivity. Qed.

Lemma indicesFrom_cons n b buttons :
  indicesFrom n (b :: buttons)
  = (if isQuickReply b then [Z.of_nat n] else [])
    ++ indicesFrom (S n) buttons.
Proof.
  unfold indicesFrom, isQuickReply. rewrite imap_cons.
  assert (Hext : imap ((λ i b, if decide (button_type b = QUICK_REPLY)
                               then Z.of_nat (n + i) else (-1)%Z) ∘ S) buttons
                 = imap (λ i b, if decide (button_type b = QUICK_REPLY)
                                then Z.of_nat (S n + i) else (-1)%Z) buttons).
  { apply imap_ext. intros i x _. simpl.
    by replace (n + S i) with (S (n + i)) by lia. }
  rewrite Hext. rewrite Nat.add_0_r.
  destruct (decide (button_type b = QUICK_REPLY)) as [Hb|Hb].
  - rewrite bool_decide_true by done.
    rewrite filter_cons_True by lia. done.
  - rewrite bool_decide_false by done.
    rewrite filter_cons_False; [done|]. intros H; by apply H.
Qed.

Lemma indicesFrom_bounds n buttons :
  Forall (λ x, (Z.of_nat n ≤ x < Z.of_nat n + Z.of_nat (length buttons))%Z)
    (indicesFrom n buttons).
Proof.
  revert n. induction buttons as [|b buttons IH]; intros n; [constructor|].
  rewrite indicesFrom_cons. apply Forall_app. split.
  - destruct (isQuickReply b); repeat constructor; simpl; lia.
  - eapply Forall_impl; [apply IH|]. simpl. intros; lia.
Qed.

(** Each element is the successor of the one before it. *)
Fixpoint consecutive (l : list Z) : bool :=
  match l with
  | [] => true
  | x :: l' =>
      match l' with
      | [] => true
      | y :: _ => (y =? x + 1)%Z && consecutive l'
      end
  end.

Lemma everyFrom_isGrouped pre l :
  everyFrom
    (λ index i,
       (i =? 0) ||
       match (pre ++ l) !! (i - 1) with
       | Some prev => (index =? prev + 1)%Z
       | None => false
       end)
    (length pre) l
  = match last pre, l with
    | Some p, x :: _ => (x =? p + 1)%Z
    | _, _ => true
    end && consecutive l.
Proof.
  revert pre. induction l as [|x l IH]; intros pre.
  { simpl. by destruct (last pre). }
  cbn [everyFrom].
  specialize (IH (pre ++ [x])).
  rewrite <- app_assoc, length_app, Nat.add_1_r in IH. cbn [app] in IH.
  rewrite IH, last_snoc. clear IH.
  destruct pre as [|p0 pre] using rev_ind.
  - simpl. by destruct l.
  - rewrite last_snoc, length_app, Nat.add_1_r. cbn [Nat.eqb orb].
    replace (S (length pre) - 1) with (length pre) by lia.
    rewrite <- app_assoc. cbn [app].
    rewrite list_lookup_middle by done.
    cbn [consecutive]. by destruct l.
Qed.

Lemma isGrouped_consecutive l : isGrouped l = consecutive l.
Proof. apply (everyFrom_isGrouped [] l). Qed.

(** The three states of a scan for grouped quick replies: none seen
    yet, inside the run, after the run. *)
Definition noQuickReply (buttons : list Button) : bool :=
  forallb (λ b, negb (isQuickReply b)) buttons.

Fixpoint runThenNone (buttons : list Button) : bool :=
  match buttons with
  | [] => true
  | b :: buttons' =>
      if isQuickReply b then runThenNone buttons' else noQuickReply buttons'
  end.

Fixpoint grouped (buttons : list Button) : bool :=
  match buttons with
  | [] => true
  | b :: buttons' =>
      if isQuickReply b then runThenNone buttons' else grouped buttons'
  end.

Lemma indicesFrom_nil_iff n buttons :
  indicesFrom n buttons = [] ↔ noQuickReply buttons = true.
Proof.
  revert n. induction buttons as [|b buttons IH]; intros n; [done|].
  rewrite indicesFrom_cons. simpl.
  destruct (isQuickReply b); simpl; [done | apply IH].
Qed.

Lemma noQuickReply_runThenNone buttons :
  noQuickReply buttons = true → runThenNone buttons = true.
Proof.
  induction buttons as [|b buttons IH]; simpl; [done|].
  destruct (isQuickReply b); simpl; [done | auto].
Qed.

Lemma noQuickReply_grouped buttons :
  noQuickReply buttons = true → grouped buttons = true.
Proof.
  induction buttons as [|b buttons IH]; simpl; [done|].
  destruct (isQuickReply b); simpl; [done | auto].
Qed.

Lemma consecutive_run n buttons :
  consecutive (Z.of_nat n :: indicesFrom (S n) buttons) = runThenNone buttons.
Proof.
  revert n. induction buttons as [|b buttons IH]; intros n; [done|].
  rewrite indicesFrom_cons. cbn [runThenNone].
  destruct (isQuickReply b); cbn [app].
  - cbn [consecutive]. rewrite <- (IH (S n)).
    replace (Z.of_nat (S n) =? Z.of_nat n + 1)%Z with true
      by (symmetry; apply Z.eqb_eq; lia).
    done.
  - destruct (indicesFrom (S (S n)) buttons) as [|x l] eqn:Hq.
    + apply indicesFrom_nil_iff in Hq. by rewrite Hq.
    + pose proof (indicesFrom_bounds (S (S n)) buttons) as Hb.
      rewrite Hq in Hb. apply Forall_cons in Hb as [Hx _].
      cbn [consecutive].
      replace (x =? Z.of_nat n + 1)%Z with false
        by (symmetry; apply Z.eqb_neq; lia).
      destruct (noQuickReply buttons) eqn:Hno; [|done].
      apply (indicesFrom_nil_iff (S (S n))) in Hno. congruence.
Qed.

Lemma consecutive_grouped n buttons :
  consecutive (indicesFrom n buttons) = grouped buttons.
Proof.
  revert n. induction buttons as [|b buttons IH]; intros n; [done|].
  rewrite indicesFrom_cons. cbn [grouped].
  destruct (isQuickReply b); cbn [app]; [apply consecutive_run | apply IH].
Qed.

(** What the rule engine tests before it raises the grouping error. *)
Lemma ungrouped_flag buttons :
  (0 <? length (quickReplyIndices buttons))
  && negb (isGrouped (quickReplyIndices buttons))
  = negb (grouped buttons).
Proof.
  rewrite isGrouped_consecutive, quickReplyIndices_from, consecutive_grouped.
  destruct (indicesFrom 0 buttons) eqn:Hq; [|done].
  apply indicesFrom_nil_iff in Hq.
  by rewrite (noQuickReply_grouped _ Hq).
Qed.

Lemma last_Some_fmap (l : list Z) : List.last (Some <$> l) None = last l.
Proof.
  induction l as [|x l IH]; [done|].
  destruct l as [|y l]; [done|].
  rewrite last_cons_cons, <- IH. done.
Qed.

Lemma last_indicesFrom n buttons :
  indicesFrom n buttons ≠ [] →
  ∃ L, last (indicesFrom n buttons) = Some L
       ∧ (Z.of_nat n ≤ L < Z.of_nat n + Z.of_nat (length buttons))%Z.
Proof.
  intros Hne. destruct (last (indicesFrom n buttons)) as [L|] eqn:HL.
  - exists L. split; [done|].
    apply last_Some_elem_of in HL.
    pose proof (indicesFrom_bounds n buttons) as Hb.
    rewrite Forall_forall in Hb. by apply Hb.
  - by apply last_None in HL.
Qed.

(** From a quick reply on, everything up to the last quick reply is a
    quick reply exactly when a run of quick replies is followed by
    none. *)
Lemma run_up_to_last p buttons L :
  last (indicesFrom p buttons) = Some L →
  forallb isQuickReply (take (Z.to_nat (L - Z.of_nat p + 1)) buttons)
  = runThenNone buttons.
Proof.
  revert p. induction buttons as [|b buttons IH]; intros p HL; [done|].
  rewrite indicesFrom_cons in HL. cbn [runThenNone].
  destruct (indicesFrom (S p) buttons) as [|x r] eqn:Hrest.
  - rewrite app_nil_r in HL.
    apply indicesFrom_nil_iff in Hrest.
    destruct (isQuickReply b) eqn:Hb; [|done].
    injection HL as <-.
    replace (Z.to_nat (Z.of_nat p - Z.of_nat p + 1)) with 1 by lia.
    cbn [take forallb]. rewrite Hb.
    by rewrite (noQuickReply_runThenNone _ Hrest).
  - assert (HL' : last (indicesFrom (S p) buttons) = Some L).
    { rewrite Hrest. destruct (isQuickReply b); cbn [app] in HL;
        [by rewrite last_cons_cons in HL | done]. }
    destruct (last_indicesFrom (S p) buttons) as (L' & HL'' & Hbound);
      [by rewrite Hrest|].
    assert (L' = L) as -> by congruence.
    replace (Z.to_nat (L - Z.of_nat p + 1))
      with (S (Z.to_nat (L - Z.of_nat (S p) + 1))) by lia.
    cbn [take forallb]. rewrite (IH (S p) HL').
    destruct (isQuickReply b); [done|]. simpl.
    destruct (noQuickReply buttons) eqn:Hno; [|done].
    apply (indicesFrom_nil_iff (S p)) in Hno. congruence.
Qed.

(** [findIndex] returns the first quick reply; from there to the last
    quick reply, all are quick replies exactly when they are grouped. *)
Lemma first_to_last n buttons :
  indicesFrom n buttons ≠ [] →
  ∃ k L b,
    findIndex_from n buttons = Z.of_nat (n + k)
    ∧ buttons !! k = Some b ∧ isQuickReply b = true
    ∧ last (indicesFrom n buttons) = Some L
    ∧ (Z.of_nat (n + k) ≤ L < Z.of_nat n + Z.of_nat (length buttons))%Z
    ∧ forallb isQuickReply
        (take (Z.to_nat (L - Z.of_nat (n + k) + 1)) (drop k buttons))
      = grouped buttons.
Proof.
  revert n. induction buttons as [|b buttons IH]; intros n Hne; [done|].
  destruct (last_indicesFrom n (b :: buttons) Hne) as (L & HL & Hbound).
  destruct (isQuickReply b) eqn:Hb.
  - exists 0, L, b. rewrite Nat.add_0_r, drop_0. cbn [findIndex_from grouped].
    unfold isQuickReply in Hb. apply bool_decide_eq_true in Hb.
    rewrite decide_True by done.
    split_and!; try done; try lia.
    + by apply bool_decide_eq_true.
    + rewrite (run_up_to_last n _ L HL). cbn [runThenNone].
      unfold isQuickReply. by rewrite bool_decide_true.
  - rewrite indicesFrom_cons, Hb in Hne, HL. cbn [app] in Hne, HL.
    destruct (IH (S n) Hne)
      as (k & L' & b' & Hfind & Hk & Hqr & HL' & Hb' & Hall).
    assert (L' = L) as -> by congruence.
    exists (S k), L, b'. cbn [findIndex_from grouped].
    assert (Hb2 : button_type b ≠ QUICK_REPLY)
      by (by apply bool_decide_eq_false in Hb).
    rewrite decide_False by done.
    replace (n + S k) with (S n + k) by lia.
    rewrite indicesFrom_cons, Hb. cbn [app length].
    split_and!; try done; lia.
Qed.

Lemma groupLoop_range whole a m :
  a + m ≤ length whole →
  groupLoop whole (seqZ (Z.of_nat a) (Z.of_nat m))
  = Returns (forallb isQuickReply (take m (drop a whole))).
Proof.
  revert a. induction m as [|m IH]; intros a Hle.
  { rewrite seqZ_nil by lia. done. }
  rewrite seqZ_cons by lia. cbn [groupLoop]. unfold buttonAt.
  replace (Z.of_nat a <? 0)%Z with false by (symmetry; apply Z.ltb_ge; lia).
  rewrite Nat2Z.id.
  destruct (whole !! a) as [b|] eqn:Hb.
  2: { apply lookup_ge_None in Hb. lia. }
  rewrite (drop_S _ _ _ Hb). cbn [take forallb].
  replace (Z.succ (Z.of_nat a)) with (Z.of_nat (S a)) by lia.
  replace (Z.pred (Z.of_nat (S m))) with (Z.of_nat m) by lia.
  rewrite IH by lia.
  destruct (decide (button_type b = QUICK_REPLY)) as [Hq|Hq].
  - rewrite decide_False by (intros H; by apply H).
    unfold isQuickReply at 2. by rewrite bool_decide_true.
  - rewrite decide_True by done.
    unfold isQuickReply at 1. by rewrite bool_decide_false.
Qed.

Lemma filter_quickReply_nil buttons :
  (0 <? length (filter (λ b, button_type b = QUICK_REPLY) buttons))
  = negb (noQuickReply buttons).
Proof.
  induction buttons as [|b buttons IH]; [done|].
  cbn [noQuickReply forallb]. unfold isQuickReply at 1.
  destruct (decide (button_type b = QUICK_REPLY)) as [Hq|Hq].
  - rewrite filter_cons_True by done. by rewrite bool_decide_true.
  - rewrite filter_cons_False by done. rewrite bool_decide_false by done.
    apply IH.
Qed.

Lemma filter_others_nil buttons :
  (0 <? length (filter (λ b, button_type b ≠ QUICK_REPLY) buttons))
  = negb (forallb isQuickReply buttons).
Proof.
  induction buttons as [|b buttons IH]; [done|].
  cbn [forallb]. unfold isQuickReply at 1.
  destruct (decide (button_type b = QUICK_REPLY)) as [Hq|Hq].
  - rewrite filter_cons_False by (intros H; by apply H).
    rewrite bool_decide_true by done. apply IH.
  - rewrite filter_cons_True by done. by rewrite bool_decide_false.
Qed.

Lemma all_quickReply_grouped buttons :
  forallb isQuickReply buttons = true →
  runThenNone buttons = true ∧ grouped buttons = true.
Proof.
  induction buttons as [|b buttons IH]; [done|]. simpl.
  destruct (isQuickReply b); [|done]. simpl. intros H.
  destruct (IH H) as [H1 _]. done.
Qed.

Lemma quickReplyGroupedRefine_grouped (buttons : list Button) :
  quickReplyGroupedRefine buttons = Returns (grouped buttons).
Proof.
  unfold quickReplyGroupedRefine.
  rewrite filter_quickReply_nil, filter_others_nil.
  destruct (noQuickReply buttons) eqn:Hno; cbn [negb andb].
  { by rewrite (noQuickReply_grouped _ Hno). }
  destruct (forallb isQuickReply buttons) eqn:Hall; cbn [negb].
  { by destruct (all_quickReply_grouped _ Hall) as [_ ->]. }
  assert (Hne : indicesFrom 0 buttons ≠ []).
  { intros H. apply indicesFrom_nil_iff in H. congruence. }
  destruct (first_to_last 0 buttons Hne)
    as (k & L & b & Hfind & Hk & Hqr & HL & Hbound & Hgrouped).
  rewrite Hfind, quickReplyIndices_from. unfold popOrMinusOne.
  rewrite last_Some_fmap, HL. cbn [Nat.add] in *.
  destruct (Z.eqb_spec L 0) as [->|HnzL].
  - assert (k = 0) as -> by lia.
    rewrite seqZ_nil by lia. cbn [groupLoop].
    rewrite <- Hgrouped, drop_0.
    destruct buttons as [|b0 buttons']; [done|].
    injection Hk as ->. simpl. by rewrite Hqr.
  - replace (L - Z.of_nat k + 1)%Z
      with (Z.of_nat (Z.to_nat (L - Z.of_nat k + 1))) by lia.
    rewrite groupLoop_range by lia. by rewrite Hgrouped.
Qed.

Lemma runThenNone_split buttons :
  runThenNone buttons = true
  ↔ ∃ run post, buttons = run ++ post
      ∧ forallb isQuickReply run = true ∧ noQuickReply post = true.
Proof.
  induction buttons as [|b buttons IH]; simpl.
  { split; [intros _; by exists [], [] | done]. }
  destruct (isQuickReply b) eqn:Hb.
  - rewrite IH. split.
    + intros (run & post & -> & Hrun & Hpost).
      exists (b :: run), post. simpl. by rewrite Hb.
    + intros (run & post & Heq & Hrun & Hpost).
      destruct run as [|r run]; simpl in *.
      * subst post. simpl in Hpost. by rewrite Hb in Hpost.
      * injection Heq as -> ->. exists run, post.
        apply andb_true_iff in Hrun as [_ Hrun]. done.
  - split.
    + intros Hno. exists [], (b :: buttons). simpl. by rewrite Hb.
    + intros (run & post & Heq & Hrun & Hpost).
      destruct run as [|r run]; simpl in *.
      * subst post. simpl in Hpost. by rewrite Hb in Hpost.
      * injection Heq as -> ->. by rewrite Hb in Hrun.
Qed.

Lemma grouped_split buttons :
  grouped buttons = true
  ↔ ∃ pre run post, buttons = pre ++ run ++ post
      ∧ noQuickReply pre = true
      ∧ forallb isQuickReply run = true
      ∧ noQuickReply post = true.
Proof.
  induction buttons as [|b buttons IH]; simpl.
  { split; [intros _; by exists [], [], [] | done]. }
  destruct (isQuickReply b) eqn:Hb.
  - rewrite runThenNone_split. split.
    + intros (run & post & -> & Hrun & Hpost).
      exists [], (b :: run), post. simpl. by rewrite Hb.
    + intros (pre & run & post & Heq & Hpre & Hrun & Hpost).
      destruct pre as [|p pre]; simpl in *.
      * destruct run as [|r run]; simpl in *.
        -- subst post. simpl in Hpost. by rewrite Hb in Hpost.
        -- injection Heq as -> ->. exists run, post.
           apply andb_true_iff in Hrun as [_ Hrun]. done.
      * injection Heq as -> ->. by rewrite Hb in Hpre.
  - rewrite IH. split.
    + intros (pre & run & post & -> & Hpre & Hrun & Hpost).
      exists (b :: pre), run, post. simpl. by rewrite Hb.
    + intros (pre & run & post & Heq & Hpre & Hrun & Hpost).
      destruct pre as [|p pre]; simpl in *.
      * destruct run as [|r run]; simpl in *.
        -- subst post. exists buttons, [], []. simpl in *.
           rewrite app_nil_r.
           apply andb_true_iff in Hpost as [_ Hpost]. done.
        -- injection Heq as -> ->. by rewrite Hb in Hrun.
      * injection Heq as -> ->. exists pre, run, post.
        apply andb_true_iff in Hpre as [_ Hpre]. done.
Qed.

(** X8. On every list of buttons the grouping refinement of the schema
    returns without throwing, and it rejects exactly the lists for which
    the rule engine raises the grouping error; both accept exactly the
    lists made of buttons that are no quick replies, then quick replies
    only, then again none. *)
Theorem quick_reply_grouping_agrees (buttons : list Button) :
  quickReplyGroupedRefine buttons
  = Returns (negb ((0 <? length (quickReplyIndices buttons))
                   && negb (isGrouped (quickReplyIndices buttons))))
  ∧ (quickReplyGroupedRefine buttons = Returns true
     ↔ ∃ pre run post, buttons = pre ++ run ++ post
         ∧ Forall (λ b, button_type b ≠ QUICK_REPLY) pre
         ∧ Forall (λ b, button_type b = QUICK_REPLY) run
         ∧ Forall (λ b, button_type b ≠ QUICK_REPLY) post).
Proof.
  rewrite ungrouped_flag, negb_involutive, quickReplyGroupedRefine_grouped.
  split; [done|].
  assert (Hno : ∀ l, noQuickReply l = true
                     ↔ Forall (λ b, button_type b ≠ QUICK_REPLY) l).
  { intros l. unfold noQuickReply, isQuickReply.
    rewrite forallb_forall, Forall_forall.
    split; intros H b Hin.
    - apply list_elem_of_In in Hin. specialize (H b Hin).
      by apply negb_true_iff, bool_decide_eq_false in H.
    - apply list_elem_of_In in Hin. specialize (H b Hin).
      by apply negb_true_iff, bool_decide_eq_false. }
  assert (Hall : ∀ l, forallb isQuickReply l = true
                      ↔ Forall (λ b, button_type b = QUICK_REPLY) l).
  { intros l. unfold isQuickReply. rewrite forallb_forall, Forall_forall.
    split; intros H b Hin.
    - apply list_elem_of_In in Hin. specialize (H b Hin).
      by apply bool_decide_eq_true in H.
    - apply list_elem_of_In in Hin. specialize (H b Hin).
      by apply bool_decide_eq_true. }
  split.
  - intros [= Hg]. apply grouped_split in Hg
      as (pre & run & post & -> & Hpre & Hrun & Hpost).
    exists pre, run, post. by rewrite <- !Hno, <- Hall.
  - intros (pre & run & post & -> & Hpre & Hrun & Hpost). f_equal.
    apply grouped_split. exists pre, run, post.
    by rewrite !Hno, Hall.
Qed.

(** ** The button-combinations pass and the schema *)

Definition urlCapError : ValidationError :=
  mkDiag "buttons" "Maximum 2 URL buttons allowed"
    (Some "Remove extra URL buttons") None Severity.error.

Definition copyCodeCapError : ValidationError :=
  mkDiag "buttons" "Maximum 1 copy code button allowed"
    (Some "Remove extra copy code buttons") None Severity.error.

Definition groupingError : ValidationError :=
  mkDiag "buttons" "Quick reply buttons must be grouped together"
    (Some "Move all quick reply buttons to the beginning or end of the button list")
    None Severity.error.

(** The errors of the button-combinations pass, in the order raised. *)
Lemma button_combinations_errors template buttons :
  find_component BUTTONS (components template)
  = Some (ButtonsComponent buttons) →
  errorsOf (validateButtonCombinations template)
  = (if 1 <? countType PHONE_NUMBER buttons then [phoneNumberCapError]
     else [])
    ++ (if 2 <? countType URL buttons then [urlCapError] else [])
    ++ (if 1 <? countType COPY_CODE buttons then [copyCodeCapError]
        else [])
    ++ (if grouped buttons then [] else [groupingError]).
Proof.
  intros Hfind. unfold validateButtonCombinations. rewrite Hfind.
  cbn [component_buttons].
  change "PHONE_NUMBER" with (ButtonType_str PHONE_NUMBER).
  change "URL" with (ButtonType_str URL).
  change "COPY_CODE" with (ButtonType_str COPY_CODE).
  rewrite !countAbove_buttonCounts.
  pose proof (ungrouped_flag buttons) as Hflag.
  unfold errorsOf, andThen, when.
  destruct (1 <? countType PHONE_NUMBER buttons),
    (2 <? countType URL buttons), (1 <? countType COPY_CODE buttons),
    (0 <? length (quickReplyIndices buttons)),
    (isGrouped (quickReplyIndices buttons)), (grouped buttons);
    simpl in Hflag; try discriminate Hflag; reflexivity.
Qed.

Lemma button_combinations_no_buttons template :
  find_component BUTTONS (components template) = None →
  errorsOf (validateButtonCombinations template) = [].
Proof. intros Hfind. unfold validateButtonCombinations. by rewrite Hfind. Qed.

Lemma find_component_type ty cs c :
  find_component ty cs = Some c → c ∈ cs ∧ component_type c = ty.
Proof.
  unfold find_component. intros [Hin Hty]%List.find_some.
  split; [by apply list_elem_of_In | by apply bool_decide_eq_true in Hty].
Qed.

Lemma find_buttons_component cs c :
  find_component BUTTONS cs = Some c →
  ∃ buttons, c = ButtonsComponent buttons.
Proof.
  intros [_ Hty]%find_component_type. destruct c; try discriminate.
  eauto.
Qed.

(** X9. The button-combinations pass raises no error exactly when both
    refinements of the schema on [buttons] accept the button list of the
    BUTTONS component the pass looks at: the caps (at most one
    PHONE_NUMBER, two URL, one COPY_CODE button) and the grouping of
    quick replies; it raises none when there is no BUTTONS component. *)
Theorem button_pass_agrees_with_schema (template : WhatsAppTemplate) :
  (∀ buttons,
     find_component BUTTONS (components template)
     = Some (ButtonsComponent buttons) →
     (errorsOf (validateButtonCombinations template) = []
      ↔ quickReplyGroupedRefine buttons = Returns true
        ∧ buttonLimitsRefine buttons = true))
  ∧ (find_component BUTTONS (components template) = None →
     errorsOf (validateButtonCombinations template) = []).
Proof.
  split; [|apply button_combinations_no_buttons].
  intros buttons Hfind.
  rewrite (button_combinations_errors _ _ Hfind).
  rewrite quickReplyGroupedRefine_grouped.
  unfold buttonLimitsRefine. fold (countType PHONE_NUMBER buttons).
  fold (countType URL buttons). fold (countType COPY_CODE buttons).
  rewrite !andb_true_iff, !Nat.leb_le.
  destruct (Nat.ltb_spec 1 (countType PHONE_NUMBER buttons)),
    (Nat.ltb_spec 2 (countType URL buttons)),
    (Nat.ltb_spec 1 (countType COPY_CODE buttons)),
    (grouped buttons); simpl; split; intros Hyp;
    try discriminate Hyp; try (split; [done|lia]); try done;
    destruct Hyp as [Hg Hcaps]; try discriminate Hg; lia.
Qed.

Lemma button_pass_agrees_with_schema_witness :
  let buttons :=
    [QuickReplyButton "Yes"; QuickReplyButton "No";
     PhoneButton "Call us" "+15550100"] in
  let template :=
    mkTemplate None "order_update" "en" UTILITY None None
      [BodyComponent "Order {{1}} shipped." None None;
       ButtonsComponent buttons] in
  errorsOf (validateButtonCombinations template) = [].
Proof.
  intros buttons template.
  apply (proj1 (button_pass_agrees_with_schema template) buttons eq_refl).
  split; reflexivity.
Defined.


(** ** What the rule engine can still raise once the schema accepts *)

Lemma category_ttl_window_fields template :
  Forall (λ e, field e = ttl_field)
    (errorsOf (validateCategorySpecificRules template)).
Proof.
  rewrite category_errors. destruct (ttlOutside _ _ _); by repeat constructor.
Qed.

Lemma errorsOf_forEachFrom_Forall {A} (P : ValidationError → Prop)
    (f : A → nat → Pass) i l :
  (∀ y j, Emits anyField (f y j)) →
  (∀ x j, x ∈ l → Forall P (errorsOf (f x j))) →
  Forall P (errorsOf (forEachFrom f i l)).
Proof.
  intros Hf. revert i.
  induction l as [|y l IH]; intros i Hall; [constructor|].
  simpl. rewrite (errorsOf_andThen_any anyField)
    by by apply Emits_forEachFrom.
  apply Forall_app. split.
  - apply Hall, list_elem_of_here.
  - apply IH. intros x j Hx. by apply Hall, list_elem_of_further.
Qed.

Lemma errorsOf_forEachFrom_nil {A} (f : A → nat → Pass) i l :
  (∀ y j, Emits anyField (f y j)) →
  (∀ x j, x ∈ l → errorsOf (f x j) = []) →
  errorsOf (forEachFrom f i l) = [].
Proof.
  intros Hf Hall.
  assert (H : Forall (λ _, False) (errorsOf (forEachFrom f i l))).
  { apply errorsOf_forEachFrom_Forall; [done|].
    intros x j Hx. rewrite (Hall x j Hx). constructor. }
  destruct (errorsOf (forEachFrom f i l)); [done|].
  by apply Forall_cons in H as [[] _].
Qed.

Lemma createTextValidator_inv maxLength allowVariables text :
  createTextValidator maxLength allowVariables text = true →
  1 ≤ String.length text ≤ maxLength
  ∧ sequentialRefine allowVariables text = true
  ∧ formatRefine text = true.
Proof.
  unfold createTextValidator. rewrite !andb_true_iff, !Nat.leb_le. tauto.
Qed.

Lemma validateTextLength_within text maxLength field :
  String.length text ≤ maxLength →
  errorsOf (validateTextLength text maxLength field) = [].
Proof.
  intros Hle. unfold errorsOf, validateTextLength, andThen, when.
  destruct (Nat.ltb_spec maxLength (String.length text)); [lia|].
  by destruct (_ <? _).
Qed.

Lemma validateVariablesInText_silent text field :
  sequentialRefine true text = true →
  validateVariablesInText text field empty_acc = empty_acc.
Proof.
  intros Hseq. rewrite validateVariablesInText_eq.
  unfold sequentialRefine in Hseq; cbn [negb] in Hseq.
  destruct (matchAll text) as [|m ms] eqn:Hm; [done|].
  cbn [length Nat.ltb Nat.leb Nat.eqb] in *.
  rewrite Hseq. apply sequentialLoop_run in Hseq.
  assert (Hnd : NoDup (sortedVariables text))
    by (rewrite Hseq; apply NoDup_upTo_from).
  apply size_uniqueVariables in Hnd. by rewrite Hnd, Nat.eqb_refl.
Qed.

Lemma Emits_checkButtonText button j :
  Emits anyField (checkButtonText button j).
Proof.
  unfold checkButtonText. emits. by apply Emits_validateTextLength.
Qed.

Lemma Emits_checkComponentLimits component j :
  Emits anyField (checkComponentLimits component j).
Proof.
  unfold checkComponentLimits.
  emits; try (by apply Emits_validateTextLength).
  apply Emits_checkButtonText.
Qed.

Lemma Emits_checkURLButton okE button j :
  okE (indexed "buttons" j ".url") → Emits okE (checkURLButton button j).
Proof.
  intros Hok. unfold checkURLButton. emits.
  by apply Emits_validateVariablesInText.
Qed.

Lemma find_component_Some ty cs :
  0 < count_type ty cs → is_Some (find_component ty cs).
Proof.
  unfold count_type, find_component.
  induction cs as [|c cs IH]; simpl; [lia|].
  destruct (decide (component_type c = ty)) as [Hc|Hc].
  - rewrite bool_decide_true by done. eauto.
  - rewrite bool_decide_false by done.
    rewrite filter_cons_False by done. apply IH.
Qed.

(** The fields of the errors that remain possible on buttons. *)
Definition buttonField (f : string) : Prop :=
  ∃ i, f = indexed "buttons" i ".package_name"
       ∨ f = indexed "buttons" i ".zero_tap_terms_accepted"
       ∨ f = indexed "buttons" i ".url".

Section SchemaAccepted.
Context (zod_url : string → bool).

Lemma accepted_button_text button j :
  ButtonSchema zod_url button = true →
  errorsOf (checkButtonText button j) = [].
Proof.
  intros Hok. unfold checkButtonText.
  destruct button; simpl in *;
    repeat match goal with
           | H : _ && _ = true |- _ => apply andb_true_iff in H as [? ?]
           | H : createTextValidator _ _ _ = true |- _ =>
               apply createTextValidator_inv in H as ([_ ?] & _ & _)
           end;
    try done;
    try (match goal with
         | |- context [JS.truthy_str ?t] => destruct (JS.truthy_str t)
         end; simpl; [by apply validateTextLength_within | done]).
  destruct text as [t|]; simpl in *; [|done].
  match goal with
  | H : createTextValidator _ _ _ = true |- _ =>
      apply createTextValidator_inv in H as ([_ ?] & _ & _)
  end.
  destruct (JS.truthy_str t); simpl;
    [by apply validateTextLength_within | done].
Qed.

Lemma accepted_component_limits component j :
  ComponentSchema zod_url component = true →
  errorsOf (checkComponentLimits component j) = [].
Proof.
  intros Hok. destruct component as [format text ex|text a ex|text m|buttons];
    simpl in *.
  - unfold HeaderComponentBaseSchema in Hok.
    apply andb_true_iff in Hok as [Htext _].
    destruct text as [t|]; simpl in *.
    + apply createTextValidator_inv in Htext as ([_ ?] & _ & _).
      destruct (bool_decide _ && _); simpl;
        [by apply validateTextLength_within | done].
    + by rewrite andb_false_r.
  - unfold BodyComponentSchema in Hok.
    apply andb_true_iff in Hok as [Htext _].
    apply createTextValidator_inv in Htext as ([_ ?] & _ & _).
    by apply validateTextLength_within.
  - unfold FooterComponentSchema in Hok.
    apply andb_true_iff in Hok as [Htext _].
    apply createTextValidator_inv in Htext as ([_ ?] & _ & _).
    by apply validateTextLength_within.
  - unfold ButtonsComponentSchema in Hok.
    repeat (apply andb_true_iff in Hok as [Hok ?]).
    apply errorsOf_forEachFrom_nil; [apply Emits_checkButtonText|].
    intros b i Hb. apply accepted_button_text.
    match goal with
    | H : forallb _ _ = true |- _ => rewrite forallb_forall in H; apply H
    end.
    by apply list_elem_of_In.
Qed.

Lemma accepted_component_variables component j :
  ComponentSchema zod_url component = true →
  Forall (λ e, buttonField (field e))
    (errorsOf (checkComponentVariables component j)).
Proof.
  intros Hok. unfold checkComponentVariables.
  rewrite (errorsOf_andThen_any buttonField).
  2: { emits. apply Emits_checkURLButton. eexists. eauto. }
  apply Forall_app. split.
  2: { apply Emits_fields. emits. apply Emits_checkURLButton.
       eexists. eauto. }
  destruct component as [format text ex|text a ex|text m|buttons];
    simpl in *; try constructor.
  - unfold HeaderComponentBaseSchema in Hok.
    apply andb_true_iff in Hok as [Htext _].
    destruct (bool_decide (format = Some TEXT)); simpl; [|constructor].
    destruct text as [t|]; simpl in *; [|constructor].
    apply createTextValidator_inv in Htext as (_ & Hseq & _).
    destruct (JS.truthy_str t); simpl; [|constructor].
    unfold errorsOf. rewrite validateVariablesInText_silent by done.
    constructor.
  - unfold BodyComponentSchema in Hok.
    apply andb_true_iff in Hok as [Htext _].
    apply createTextValidator_inv in Htext as (_ & Hseq & _).
    destruct (JS.truthy_str text); simpl; [|constructor].
    unfold errorsOf. rewrite validateVariablesInText_silent by done.
    constructor.
Qed.

Lemma accepted_combinations template :
  headerRequirements (components template) = true →
  Forall (λ e, buttonField (field e))
    (errorsOf (validateComponentCombinations template)).
Proof.
  intros Hheader. unfold validateComponentCombinations.
  assert (Hotp : Emits buttonField
    (match find_component BUTTONS (components template) with
     | Some bc => forEachOpt checkOTPButton (component_buttons bc)
     | None => skip
     end)).
  { unfold checkOTPButton. emits; eexists; eauto. }
  rewrite (errorsOf_andThen_any _ _ _ Hotp).
  apply Forall_app. split; [|by apply Emits_fields].
  unfold headerRequirements, isMediaFormat in *.
  destruct (find_component HEADER (components template)) as [hc|];
    [|constructor].
  destruct (bool_decide (component_format hc = Some TEXT)
            && negb (JS.truthy_ostr (component_text hc))); [done|].
  destruct (JS.truthy_oobj (component_format hc)
            && negb (bool_decide (component_format hc = Some TEXT))
            && negb (JS.truthy_oobj
                       (example_header_url (component_example hc))));
    [done|].
  constructor.
Qed.

Lemma accepted_buttons template :
  forallb (ComponentSchema zod_url) (components template) = true →
  errorsOf (validateButtonCombinations template) = [].
Proof.
  intros Hall.
  destruct (find_component BUTTONS (components template)) as [c|] eqn:Hfind;
    [|by apply button_combinations_no_buttons].
  destruct (find_buttons_component _ _ Hfind) as [buttons ->].
  apply find_component_type in Hfind as Hin. destruct Hin as [Hin _].
  rewrite forallb_forall in Hall.
  specialize (Hall _ (proj1 (list_elem_of_In _ _) Hin)). simpl in Hall.
  unfold ButtonsComponentSchema in Hall.
  rewrite quickReplyGroupedRefine_grouped in Hall.
  apply andb_true_iff in Hall as [Hall Hlimits].
  apply andb_true_iff in Hall as [_ Hgrouped].
  rewrite (button_combinations_errors _ _ Hfind), Hgrouped.
  unfold buttonLimitsRefine in Hlimits.
  fold (countType PHONE_NUMBER buttons) in Hlimits.
  fold (countType URL buttons) in Hlimits.
  fold (countType COPY_CODE buttons) in Hlimits.
  rewrite !andb_true_iff, !Nat.leb_le in Hlimits.
  destruct (Nat.ltb_spec 1 (countType PHONE_NUMBER buttons)),
    (Nat.ltb_spec 2 (countType URL buttons)),
    (Nat.ltb_spec 1 (countType COPY_CODE buttons)); simpl; (done || lia).
Qed.

Lemma Emits_media_field template :
  Emits (λ f, f = header_url_field) (validateMediaRequirements template).
Proof. unfold validateMediaRequirements, checkMediaExtension. emits; done. Qed.

(** X10. For every template the schema accepts (whatever Zod's URL check
    is): the basic-structure, character-limit, button-combination and TTL
    passes raise no error, and every error of the report is on
    [messageSendTtlSeconds] (the category window), on
    [header.example.header_url] (the media requirements), or on
    [buttons[i].package_name], [buttons[i].zero_tap_terms_accepted] or
    [buttons[i].url] for some [i]. *)
Theorem schema_accepted_errors (template : WhatsAppTemplate) :
  WhatsAppTemplateSchema zod_url template = true →
  errorsOf (validateBasicStructure template) = []
  ∧ errorsOf (validateCharacterLimits template) = []
  ∧ errorsOf (validateButtonCombinations template) = []
  ∧ errorsOf (validateTTLSettings template) = []
  ∧ ∀ e, e ∈ errors (validate template) →
         field e = ttl_field ∨ field e = header_url_field
         ∨ buttonField (field e).
Proof.
  unfold WhatsAppTemplateSchema, componentsRefinements.
  rewrite !andb_true_iff.
  intros ((((((((_ & _) & _) & _) & _) & Httl) & _) & Hall)
          & (Hbody & _) & Hheader).
  assert (H1 : errorsOf (validateBasicStructure template) = []).
  { unfold validateBasicStructure.
    rewrite (errorsOf_andThen_any (λ _, False)) by apply Emits_orderLoop.
    pose proof (Emits_fields _ _
      (Emits_orderLoop (λ _, False) (components template) 0 (-1)%Z)) as H.
    unfold errorsOf in *.
    destruct (this_errors (orderLoop _ _ _ _));
      [|by apply Forall_cons in H as [[] _]].
    rewrite app_nil_r. unfold exactlyOneBody in Hbody.
    apply Nat.eqb_eq in Hbody.
    destruct (find_component_Some BODY (components template)) as [c Hc];
      [lia|]. by rewrite Hc. }
  assert (H5 : errorsOf (validateCharacterLimits template) = []).
  { unfold validateCharacterLimits, forEach.
    apply errorsOf_forEachFrom_nil; [apply Emits_checkComponentLimits|].
    intros c j Hc. apply accepted_component_limits.
    rewrite forallb_forall in Hall. by apply Hall, list_elem_of_In. }
  pose proof (accepted_buttons template Hall) as H6.
  assert (H8 : errorsOf (validateTTLSettings template) = []).
  { rewrite ttl_pass_errors.
    destruct (messageSendTtlSeconds template) as [ttl|]; [|done].
    simpl in Httl. apply andb_true_iff in Httl as [Hlo Hhi].
    apply Z.leb_le in Hlo, Hhi.
    destruct (Z.eqb_spec ttl 0); [lia|].
    destruct (Z.ltb_spec ttl 30); [lia|].
    by destruct (Z.ltb_spec 2592000 ttl); [lia|]. }
  split_and!; try done.
  intros e. rewrite validate_errors, H1, H5, H6, H8.
  rewrite !app_nil_r, !app_nil_l, !elem_of_app.
  intros [He|[He|[He|He]]].
  - left. pose proof (category_ttl_window_fields template) as Hf.
    rewrite Forall_forall in Hf. by apply Hf.
  - right; right. pose proof (accepted_combinations template Hheader) as Hf.
    rewrite Forall_forall in Hf. by apply Hf.
  - right; right.
    assert (Hf : Forall (λ e, buttonField (field e))
                   (errorsOf (validateVariableUsage template))).
    { unfold validateVariableUsage, forEach.
      apply errorsOf_forEachFrom_Forall;
        [apply Emits_checkComponentVariables|].
      intros c j Hc. apply accepted_component_variables.
      rewrite forallb_forall in Hall. by apply Hall, list_elem_of_In. }
    rewrite Forall_forall in Hf. by apply Hf.
  - right; left.
    pose proof (Emits_fields _ _ (Emits_media_field template)) as Hf.
    rewrite Forall_forall in Hf. by apply Hf.
Qed.

End SchemaAccepted.

Lemma schema_accepted_errors_witness :
  let template :=
    mkTemplate None "login_code" "en_US" AUTHENTICATION None (Some 1000%Z)
      [BodyComponent "{{1}} is your code." None None;
       ButtonsComponent
         [OTPButton OTPType.ONE_TAP (Some "Autofill") None None None None]] in
  WhatsAppTemplateSchema (λ _, true) template = true
  ∧ errorsOf (validateBasicStructure template) = []
  ∧ errorsOf (validateCharacterLimits template) = []
  ∧ errorsOf (validateButtonCombinations template) = []
  ∧ errorsOf (validateTTLSettings template) = []
  ∧ ∀ e, e ∈ errors (validate template) →
         field e = ttl_field ∨ field e = header_url_field
         ∨ buttonField (field e).
Proof.
  intros template. split; [reflexivity|].
  apply (schema_accepted_errors (λ _, true) template). reflexivity.
Defined.

(** ** The built-in examples *)

(** X11. For each of the three categories, the example template has
    that category, is accepted by the schema (provided Zod's URL check
    accepts the two URLs the examples contain), and its report has
    [isValid = true] and no warning. *)
Theorem examples_accepted_and_valid
    (zod_url : string → bool) (c : TemplateCategory) :
  zod_url "https://example.com/image.jpg" = true →
  zod_url "https://example.com/shop" = true →
  category (generateExampleTemplate c) = c
  ∧ WhatsAppTemplateSchema zod_url (generateExampleTemplate c) = true
  ∧ isValid (validate (generateExampleTemplate c)) = true
  ∧ warnings (validate (generateExampleTemplate c)) = [].
Proof.
  intros Himage Hshop.
  destruct c; (split_and!; [reflexivity| |by vm_compute..]).
  - cbv. cbv in Himage, Hshop. by rewrite Himage, Hshop.
  - reflexivity.
  - reflexivity.
Qed.

Lemma examples_accepted_and_valid_witness :
  WhatsAppTemplateSchema (λ _, true) (generateExampleTemplate MARKETING)
  = true
  ∧ isValid (validate (generateExampleTemplate MARKETING)) = true.
Proof.
  destruct (examples_accepted_and_valid (λ _, true) MARKETING eq_refl eq_refl)
    as (_ & Hschema & Hvalid & _).
  split; [exact Hschema | exact Hvalid].
Defined.

(** * Further properties of the parser *)

(** ** The position mapper: offsets and positions correspond *)

(** The length of the last line of a text given by its characters. *)
Definition lastLineLength (l : list ascii) : nat :=
  String.length (List.last (split_newline (str l)) "").

Lemma last_newline_split (l : list ascii) :
  Forall (λ c, c ≠ newline) l
  ∨ ∃ l1 l2, l = l1 ++ newline :: l2 ∧ Forall (λ c, c ≠ newline) l2.
Proof.
  induction l as [|c l IH]; [left; constructor|].
  destruct IH as [Hfree | (l1 & l2 & -> & Hfree)].
  - destruct (decide (c = newline)) as [->|Hc].
    + right. by exists [], l.
    + left. by constructor.
  - right. by exists (c :: l1), l2.
Qed.

Lemma lastLineLength_app l mid :
  Forall (λ c, c ≠ newline) mid →
  lastLineLength (l ++ mid) = lastLineLength l + length mid.
Proof.
  intros Hmid. unfold lastLineLength.
  destruct (last_newline_split l) as [Hfree | (l1 & l2 & -> & Hfree)].
  - rewrite !split_newline_line by (try apply Forall_app; done).
    simpl. by rewrite !length_str, length_app.
  - rewrite <- app_assoc. cbn [app]. rewrite !split_newline_app.
    rewrite (split_newline_line l2) by done.
    rewrite (split_newline_line (l2 ++ mid)) by (by apply Forall_app).
    by rewrite !last_app_singleton, !length_str, length_app.
Qed.

Lemma getLineAndColumn_prefix text position :
  getLineAndColumn text position
  = mkLineColumn
      (1 + length (filter (λ c, c = newline) (take position (chars text))))
      (lastLineLength (take position (chars text)) + 1).
Proof.
  unfold getLineAndColumn, lastLineLength.
  rewrite length_split_newline, chars_substring0.
  by rewrite <- chars_substring0, str_chars.
Qed.

Lemma filter_nil_Forall {A} (P : A → Prop) `{!∀ x, Decision (P x)}
    (l : list A) :
  length (filter P l) = 0 → Forall (λ x, ¬ P x) l.
Proof.
  induction l as [|x l IH]; [constructor|].
  destruct (decide (P x)) as [Hx|Hx].
  - rewrite filter_cons_True by done. simpl. lia.
  - rewrite filter_cons_False by done. intros Hlen. constructor; auto.
Qed.

Lemma getLineAndColumn_le text p q :
  p ≤ q → q ≤ String.length text →
  getLineAndColumn text p = getLineAndColumn text q → p = q.
Proof.
  intros Hpq Hq. rewrite !getLineAndColumn_prefix.
  rewrite <- length_chars in Hq.
  assert (Hsplit : take q (chars text)
                   = take p (chars text) ++ drop p (take q (chars text))).
  { rewrite <- (take_drop p (take q (chars text))) at 1.
    by rewrite take_take, Nat.min_l by lia. }
  set (mid := drop p (take q (chars text))) in *.
  assert (Hmid : length mid = q - p).
  { unfold mid. rewrite length_drop, length_take. lia. }
  rewrite Hsplit, filter_app, length_app.
  intros [= Hline Hcol].
  assert (Hfree : Forall (λ c, c ≠ newline) mid).
  { apply (filter_nil_Forall (λ c, c = newline)). lia. }
  rewrite (lastLineLength_app _ _ Hfree) in Hcol. lia.
Qed.

(** X12. Within a text, the position mapper is one-to-one: two offsets
    between 0 and the length of the text with the same line and column
    are the same offset. An offset past the end is mapped like the end
    of the text, and offset 0 is line 1, column 1. *)
Theorem getLineAndColumn_injective (text : string) (p q : nat) :
  (p ≤ String.length text → q ≤ String.length text →
   getLineAndColumn text p = getLineAndColumn text q → p = q)
  ∧ (String.length text ≤ p →
     getLineAndColumn text p = getLineAndColumn text (String.length text))
  ∧ getLineAndColumn text 0 = mkLineColumn 1 1.
Proof.
  split_and!.
  - intros Hp Hq Heq. destruct (Nat.le_ge_cases p q).
    + by apply (getLineAndColumn_le text).
    + symmetry. by apply (getLineAndColumn_le text).
  - intros Hp. rewrite !getLineAndColumn_prefix.
    rewrite <- length_chars in *.
    by rewrite !take_ge by lia.
  - rewrite getLineAndColumn_prefix. by rewrite take_0.
Qed.

Lemma getLineAndColumn_injective_witness :
  let text := String "a" (String newline (String "b" "c")) in
  getLineAndColumn text 9 = getLineAndColumn text (String.length text)
  ∧ getLineAndColumn text 0 = mkLineColumn 1 1.
Proof.
  intros text.
  destruct (getLineAndColumn_injective text 9 0) as (_ & Hclamp & Hzero).
  split; [apply Hclamp; vm_compute; lia | exact Hzero].
Defined.

(** ** Template names *)

Lemma forallb_str_chars f s :
  forallb_str f s = true ↔ Forall (λ c, f c = true) (chars s).
Proof.
  induction s as [|c s IH]; simpl; [by split; [constructor|]|].
  rewrite andb_true_iff, Forall_cons, IH. done.
Qed.

(** X13. [validateTemplateName] reports a name as valid exactly when
    the three checks of the schema on [name] pass (at least 1 and at most
    512 characters, all of them lower-case letters, digits or
    underscores); an invalid result always carries an error text and a
    suggestion; and a valid result carries no remark exactly when the
    name has at least 3 characters and no double underscore. *)
Theorem validateTemplateName_agrees_with_schema (n : string) :
  (valid (validateTemplateName n) = true
   ↔ (1 <=? String.length n) && (String.length n <=? 512) && nameRegex n
     = true)
  ∧ (nameRegex n = true
     ↔ n ≠ "" ∧ Forall (λ c, isNameChar c = true) (chars n))
  ∧ (valid (validateTemplateName n) = false →
     is_Some (name_error (validateTemplateName n))
     ∧ is_Some (name_suggestion (validateTemplateName n)))
  ∧ (name_error (validateTemplateName n) = None
     ↔ valid (validateTemplateName n) = true
       ∧ 3 ≤ String.length n ∧ JSString.includes n "__" = false).
Proof.
  unfold validateTemplateName, nameRegex.
  unfold validateTemplateName, nameRegex.
  rewrite <- forallb_str_chars.
  destruct n as [|c n].
  { cbn. split_and!.
    - done.
    - split; [done | by intros []].
    - intros _. split; eauto.
    - split; [done | by intros []]. }
  cbn [JS.truthy_str negb andb String.length Nat.leb].
  destruct (Nat.ltb_spec 512 (S (String.length n))) as [Hlong|Hlong].
  { replace (String.length n <=? 511) with false
      by (symmetry; apply Nat.leb_gt; lia).
    cbn [valid name_error name_suggestion andb].
    split_and!.
    - done.
    - split; [by intros H | by intros [_ H] ].
    - intros _. split; eauto.
    - split; [done | by intros []]. }
  replace (String.length n <=? 511) with true
    by (symmetry; apply Nat.leb_le; lia).
  cbn [andb].
  destruct (forallb_str isNameChar (String c n)) eqn:Hre; cbn [negb].
  2: { cbn [valid name_error name_suggestion]. split_and!.
       - done.
       - split; [done | by intros [_ H] ].
       - intros _. split; eauto.
       - split; [done | by intros []]. }
  destruct (Nat.ltb_spec (S (String.length n)) 3) as [Hshort|Hshort].
  { cbn [valid name_error name_suggestion]. split_and!.
    - done.
    - split; [by intros _ | done].
    - done.
    - split; [done|]. intros (_ & ? & _). lia. }
  destruct (JSString.includes (String c n) "__") eqn:Hinc;
    cbn [valid name_error name_suggestion]; split_and!; try done.
  split; [done | by intros (_ & _ & ?)].
Qed.

Lemma validateTemplateName_agrees_with_schema_witness :
  valid (validateTemplateName "Order-Update") = false
  ∧ is_Some (name_error (validateTemplateName "Order-Update"))
  ∧ is_Some (name_suggestion (validateTemplateName "Order-Update")).
Proof.
  split; [reflexivity|].
  apply (validateTemplateName_agrees_with_schema "Order-Update").
  reflexivity.
Defined.


(** ** Extracting the placeholders *)

Lemma execAll_matchAll skip pos s :
  (λ m, m.2) <$> execAll_from skip pos s = matchAll_from skip s.
Proof.
  revert skip pos. induction s as [|c s IH]; intros skip pos; [done|].
  cbn [execAll_from matchAll_from].
  destruct skip as [|k]; [|apply IH].
  destruct (match_at (String c s)) as [ds|]; [|apply IH].
  rewrite fmap_cons. f_equal. apply IH.
Qed.

Lemma length_extractFromText text componentName :
  length (extractFromText text componentName) = countVariables text.
Proof.
  unfold extractFromText, countVariables, matchAll.
  rewrite <- (execAll_matchAll 0 0 text). by rewrite !length_fmap.
Qed.

Lemma span_digits_spec s ds r :
  span_digits s = (ds, r) →
  s = str ds +:+ r ∧ Forall (λ c, JS.is_digit c = true) ds.
Proof.
  revert ds r. induction s as [|c s IH]; intros ds r; simpl.
  { intros [= <- <-]. by split; [|constructor]. }
  destruct (JS.is_digit c) eqn:Hc.
  - destruct (span_digits s) as [ds' r'] eqn:Hs. intros [= <- <-].
    destruct (IH ds' r' eq_refl) as [-> Hall].
    split; [done | by constructor].
  - intros [= <- <-]. by split; [|constructor].
Qed.

Lemma append_assoc s1 s2 s3 : (s1 +:+ s2) +:+ s3 = s1 +:+ s2 +:+ s3.
Proof.
  induction s1 as [|c s1 IH]; [done|].
  change (String c ((s1 +:+ s2) +:+ s3) = String c (s1 +:+ s2 +:+ s3)).
  by rewrite IH.
Qed.

Lemma match_at_spec s ds :
  match_at s = Some ds →
  ds ≠ [] ∧ Forall (λ c, JS.is_digit c = true) ds
  ∧ ∃ after, s = placeholder ds +:+ after.
Proof.
  unfold match_at, placeholder.
  destruct s as [|a s]; [done|].
  destruct (Ascii.eqb_spec a "{") as [->|Ha];
    [|by destruct a as [[] [] [] [] [] [] [] []]].
  destruct s as [|b r]; [done|].
  destruct (Ascii.eqb_spec b "{") as [->|Hb];
    [|by destruct b as [[] [] [] [] [] [] [] []]].
  destruct (span_digits r) as [digits rest] eqn:Hspan.
  apply span_digits_spec in Hspan as [-> Hall].
  destruct digits as [|d digits]; [done|].
  destruct rest as [|x rest]; [done|].
  destruct (Ascii.eqb_spec x "}") as [->|Hx];
    [|by destruct x as [[] [] [] [] [] [] [] []]].
  destruct rest as [|y after]; [done|].
  destruct (Ascii.eqb_spec y "}") as [->|Hy];
    [|by destruct y as [[] [] [] [] [] [] [] []]].
  intros [= <-]. split_and!; [done | done |].
  exists after. by rewrite !append_assoc.
Qed.

(** An occurrence is where it says it is. *)
Lemma execAll_sound skip pos s p ds :
  (p, ds) ∈ execAll_from skip pos s →
  ∃ before after,
    s = before +:+ placeholder ds +:+ after
    ∧ p = pos + String.length before
    ∧ ds ≠ [] ∧ Forall (λ c, JS.is_digit c = true) ds.
Proof.
  revert skip pos. induction s as [|c s IH]; intros skip pos.
  { by intros ?%elem_of_nil. }
  cbn [execAll_from].
  assert (Hrest : ∀ k,
    (p, ds) ∈ execAll_from k (S pos) s →
    ∃ before after,
      String c s = before +:+ placeholder ds +:+ after
      ∧ p = pos + String.length before
      ∧ ds ≠ [] ∧ Forall (λ c, JS.is_digit c = true) ds).
  { intros k Hin.
    destruct (IH _ _ Hin) as (before & after & -> & -> & Hne & Hall).
    exists (String c before), after. simpl. split_and!; try done; lia. }
  destruct skip as [|k]; [|apply Hrest].
  destruct (match_at (String c s)) as [ds0|] eqn:Hm; [|apply Hrest].
  intros [[= -> ->]|Hin]%elem_of_cons; [|by eapply Hrest].
  apply match_at_spec in Hm as (Hne & Hall & after & Hs).
  exists "", after. simpl. split_and!; try done; lia.
Qed.

(** X14. Every occurrence that [extractFromText] reports for a text is
    a placeholder [{{digits}}] that stands in the text at the reported
    position, under the given component name; and it reports as many
    occurrences as [countVariables] counts. *)
Theorem extractFromText_sound (text componentName : string) :
  (∀ o, o ∈ extractFromText text componentName →
        Occurrence.component o = componentName
        ∧ ∃ before digits after,
            Occurrence.variable o = "{{" +:+ str digits +:+ "}}"
            ∧ digits ≠ [] ∧ Forall (λ c, JS.is_digit c = true) digits
            ∧ text = before +:+ Occurrence.variable o +:+ after
            ∧ Occurrence.position o = String.length before)
  ∧ length (extractFromText text componentName) = countVariables text.
Proof.
  split; [|apply length_extractFromText].
  intros o. unfold extractFromText.
  intros ([p ds] & -> & Hin)%list_elem_of_fmap. simpl.
  split; [done|].
  apply execAll_sound in Hin as (before & after & Hs & Hp & Hne & Hall).
  exists before, ds, after. split_and!; try done.
Qed.

(** ** Sorting the occurrences *)

Lemma insertBy_perm {A} (key : A → N) x l : insertBy key x l ≡ₚ x :: l.
Proof.
  induction l as [|y l IH]; simpl; [done|].
  destruct (key x <=? key y)%N; [done|].
  rewrite IH. apply Permutation_swap.
Qed.

Lemma sortBy_perm {A} (key : A → N) l : sortBy key l ≡ₚ l.
Proof.
  induction l as [|x l IH]; simpl; [done|].
  by rewrite insertBy_perm, IH.
Qed.

Definition keyLe {A} (key : A → N) (a b : A) : Prop := (key a ≤ key b)%N.

Lemma insertBy_sorted {A} (key : A → N) x l :
  StronglySorted (keyLe key) l → StronglySorted (keyLe key) (insertBy key x l).
Proof.
  induction 1 as [|y l Hl IH Hy]; simpl; [by repeat constructor|].
  destruct (N.leb_spec (key x) (key y)) as [Hle|Hgt].
  - constructor; [by constructor|]. constructor; [exact Hle|].
    eapply Forall_impl; [exact Hy|]. unfold keyLe. simpl. intros; lia.
  - constructor; [done|].
    rewrite insertBy_perm. constructor; [unfold keyLe; lia | done].
Qed.

Lemma sortBy_sorted {A} (key : A → N) l :
  StronglySorted (keyLe key) (sortBy key l).
Proof.
  induction l as [|x l IH]; simpl; [constructor|].
  by apply insertBy_sorted.
Qed.

(** Equal keys keep their order: the sub-list of the occurrences with a
    given key is unchanged. *)
Lemma insertBy_filter {A} (key : A → N) (k : N) x l :
  StronglySorted (keyLe key) l →
  filter (λ a, key a = k) (insertBy key x l)
  = filter (λ a, key a = k) (x :: l).
Proof.
  induction 1 as [|y l Hl IH Hy]; simpl; [done|].
  destruct (N.leb_spec (key x) (key y)) as [Hle|Hgt]; [done|].
  rewrite (filter_cons _ y (insertBy key x l)), IH.
  rewrite (filter_cons _ x (y :: l)), (filter_cons _ y l), (filter_cons _ x l).
  destruct (decide (key y = k)), (decide (key x = k)); try done. lia.
Qed.

Lemma sortBy_filter {A} (key : A → N) (k : N) l :
  filter (λ a, key a = k) (sortBy key l) = filter (λ a, key a = k) l.
Proof.
  induction l as [|x l IH]; simpl; [done|].
  rewrite insertBy_filter by apply sortBy_sorted.
  by rewrite !filter_cons, IH.
Qed.

(** X15. [extractVariables] returns the occurrences of the template, all
    of them and nothing else, ordered by placeholder number (for numbers
    below 2^53, which JavaScript compares exactly); occurrences with the
    same number keep the order in which they stand in the template. *)
Theorem extractVariables_sorted (template : WhatsAppTemplate) :
  Forall (λ o, (occurrenceNumber o < 2 ^ 53)%N) (extractedInOrder template) →
  extractVariables template ≡ₚ extractedInOrder template
  ∧ StronglySorted (λ a b, (occurrenceNumber a ≤ occurrenceNumber b)%N)
      (extractVariables template)
  ∧ ∀ k, filter (λ o, occurrenceNumber o = k) (extractVariables template)
         = filter (λ o, occurrenceNumber o = k) (extractedInOrder template).
Proof.
  intros _. unfold extractVariables. split_and!.
  - apply sortBy_perm.
  - apply sortBy_sorted.
  - intros k. apply sortBy_filter.
Qed.

Lemma extractVariables_sorted_witness :
  let template :=
    mkTemplate None "order_update" "en" UTILITY None None
      [BodyComponent "Hi {{2}}, order {{1}} left; {{2}}." None None] in
  Forall (λ o, (occurrenceNumber o < 2 ^ 53)%N) (extractedInOrder template)
  ∧ StronglySorted (λ a b, (occurrenceNumber a ≤ occurrenceNumber b)%N)
      (extractVariables template).
Proof.
  intros template.
  assert (H : Forall (λ o, (occurrenceNumber o < 2 ^ 53)%N)
                (extractedInOrder template)).
  { apply (bool_decide_unpack _). vm_compute. exact I. }
  split; [exact H|].
  exact (proj1 (proj2 (extractVariables_sorted template H))).
Defined.

(** ** Template statistics *)

Lemma count_types_total cs :
  count_type HEADER cs + count_type BODY cs + count_type FOOTER cs
  + count_type BUTTONS cs = length cs.
Proof.
  unfold count_type. induction cs as [|c cs IH]; [done|].
  destruct c; rewrite !filter_cons; simpl; lia.
Qed.

(** How many placeholders one component contributes. *)
Definition variablesIn (c : Component) : nat :=
  length (extractComponent 0 c).

Lemma length_concat_imap {A B} (f : nat → A → list B) (g : A → nat) l :
  (∀ i x, length (f i x) = g x) →
  length (concat (imap f l)) = sum_list (g <$> l).
Proof.
  revert f. induction l as [|x l IH]; intros f Hf; [done|].
  rewrite imap_cons. simpl. rewrite length_app, Hf. f_equal.
  apply IH. intros i y. apply Hf.
Qed.

Definition urlVariables (b : Button) : nat :=
  match button_url b with
  | Some url => if JS.truthy_str url then countVariables url else 0
  | None => 0
  end.

Lemma length_extractComponent i c :
  length (extractComponent i c) = variablesIn c.
Proof.
  unfold variablesIn.
  destruct c as [format text ex|text a ex|text m|buttons]; simpl; try done.
  - destruct text as [t|]; [|done].
    destruct (bool_decide _ && _); [|done].
    by rewrite !length_extractFromText.
  - by rewrite !length_extractFromText.
  - rewrite !(length_concat_imap _ urlVariables); [done|..].
    all: intros j b; unfold urlVariables; destruct (button_url b); [|done].
    all: destruct (JS.truthy_str _); [|done].
    all: by rewrite length_extractFromText.
Qed.

Lemma variablesIn_buttons buttons :
  variablesIn (ButtonsComponent buttons) = sum_list (urlVariables <$> buttons).
Proof.
  unfold variablesIn. simpl. apply length_concat_imap.
  intros j b; unfold urlVariables; destruct (button_url b); [|done].
  destruct (JS.truthy_str _); [|done]. by rewrite length_extractFromText.
Qed.

Lemma foldl_statsButton st buttons :
  let st' := foldl statsButton st buttons in
  Stats.l_componentCounts st' = Stats.l_componentCounts st
  ∧ Stats.l_buttonCount st' = Stats.l_buttonCount st
  ∧ Stats.l_variableCount st'
    = Stats.l_variableCount st + sum_list (urlVariables <$> buttons).
Proof.
  revert st. induction buttons as [|b buttons IH]; intros st.
  { simpl. split_and!; try done; lia. }
  cbn [foldl]. destruct (IH (statsButton st b)) as (Hc & Hb & Hv).
  cbv zeta. rewrite Hc, Hb, Hv, fmap_cons.
  change (sum_list (urlVariables b :: (urlVariables <$> buttons)))
    with (urlVariables b + sum_list (urlVariables <$> buttons)).
  generalize (sum_list (urlVariables <$> buttons)). intros n.
  unfold statsButton, urlVariables.
  cbn [Stats.l_componentCounts Stats.l_buttonCount Stats.l_variableCount].
  split_and!; try done.
  destruct (button_url b) as [url|]; [|lia].
  destruct (JS.truthy_str url); lia.
Qed.

(** The number of buttons of the last BUTTONS component. *)
Definition lastButtonCount (dflt : nat) (cs : list Component) : nat :=
  from_option length dflt (last (omap component_buttons cs)).

Lemma foldl_statsComponent st cs :
  let st' := foldl statsComponent st cs in
  let counts := Stats.l_componentCounts st in
  let counts' := Stats.l_componentCounts st' in
  Stats.header counts' = Stats.header counts + count_type HEADER cs
  ∧ Stats.body counts' = Stats.body counts + count_type BODY cs
  ∧ Stats.footer counts' = Stats.footer counts + count_type FOOTER cs
  ∧ Stats.buttons counts' = Stats.buttons counts + count_type BUTTONS cs
  ∧ Stats.l_variableCount st'
    = Stats.l_variableCount st + sum_list (variablesIn <$> cs)
  ∧ Stats.l_buttonCount st' = lastButtonCount (Stats.l_buttonCount st) cs.
Proof.
  revert st. induction cs as [|c cs IH]; intros st.
  { unfold count_type, lastButtonCount. simpl. split_and!; lia. }
  cbn [foldl]. destruct (IH (statsComponent st c))
    as (Hh & Hb & Hf & Hbt & Hv & Hbc).
  cbv zeta. rewrite Hh, Hb, Hf, Hbt, Hv, Hbc. clear IH Hh Hb Hf Hbt Hv Hbc.
  rewrite fmap_cons.
  change (sum_list (variablesIn c :: (variablesIn <$> cs)))
    with (variablesIn c + sum_list (variablesIn <$> cs)).
  generalize (sum_list (variablesIn <$> cs)). intros n.
  unfold count_type, lastButtonCount. rewrite !filter_cons.
  cbn [omap list_omap].
  destruct c as [format text ex|text a ex|text m|buttons];
    cbn [statsComponent component_type component_buttons].
  - assert (Hvars : variablesIn (HeaderComponent format text ex)
      = match text with
        | Some t => if bool_decide (format = Some TEXT) && JS.truthy_str t
                    then countVariables t else 0
        | None => 0
        end).
    { unfold variablesIn. simpl. destruct text as [t|]; [|done].
      destruct (bool_decide _ && _); [|done].
      apply length_extractFromText. }
    rewrite Hvars. clear Hvars.
    destruct text as [t|]; [destruct (bool_decide _ && _)|];
      simpl; split_and!; lia.
  - assert (Hvars : variablesIn (BodyComponent text a ex) = countVariables text)
      by apply length_extractFromText.
    rewrite Hvars. simpl. split_and!; lia.
  - assert (Hvars : variablesIn (FooterComponent text m) = 0) by done.
    rewrite Hvars. simpl. split_and!; lia.
  - rewrite variablesIn_buttons.
    match goal with |- context [foldl statsButton ?s0 buttons] =>
      pose proof (foldl_statsButton s0 buttons) as (Hc & Hb & Hv) end.
    cbv zeta in Hc, Hb, Hv. rewrite Hc, Hb, Hv. clear Hc Hb Hv.
    rewrite last_cons.
    destruct (last (omap component_buttons cs)); simpl; split_and!; lia.
Qed.

(** X16. In the statistics of a template, the four component counters
    are the numbers of HEADER, BODY, FOOTER and BUTTONS components and
    add up to the number of components; [variableCount] is the number of
    occurrences [extractVariables] returns; and [buttonCount] is the
    number of buttons of the last BUTTONS component (0 without one), not
    a total over several. *)
Theorem getTemplateStats_counts (template : WhatsAppTemplate) :
  let stats := getTemplateStats template in
  let counts := Stats.componentCounts stats in
  Stats.header counts = count_type HEADER (components template)
  ∧ Stats.body counts = count_type BODY (components template)
  ∧ Stats.footer counts = count_type FOOTER (components template)
  ∧ Stats.buttons counts = count_type BUTTONS (components template)
  ∧ Stats.header counts + Stats.body counts + Stats.footer counts
    + Stats.buttons counts = length (components template)
  ∧ Stats.variableCount stats = length (extractVariables template)
  ∧ Stats.buttonCount stats = lastButtonCount 0 (components template).
Proof.
  intros stats counts. subst stats counts. unfold getTemplateStats.
  cbn [Stats.componentCounts Stats.variableCount Stats.buttonCount].
  pose proof (foldl_statsComponent
    (Stats.mkLocals 0 0 0 (Stats.mkCounts 0 0 0 0)) (components template))
    as (Hh & Hb & Hf & Hbt & Hv & Hbc).
  cbv zeta in *. simpl in Hh, Hb, Hf, Hbt, Hv, Hbc.
  rewrite Hh, Hb, Hf, Hbt, Hv, Hbc.
  split_and!; try done.
  - apply count_types_total.
  - unfold extractVariables. rewrite sortBy_perm.
    unfold extractedInOrder.
    symmetry. apply length_concat_imap. apply length_extractComponent.
Qed.

(** * The report as a whole *)

(** The eight passes, in the order [validate] runs them. *)
Definition passes (template : WhatsAppTemplate) : list Pass :=
  [ validateBasicStructure template;
    validateCategorySpecificRules template;
    validateComponentCombinations template;
    validateVariableUsage template;
    validateCharacterLimits template;
    validateButtonCombinations template;
    validateMediaRequirements template;
    validateTTLSettings template ].

Lemma andThen_acc_app okE p q this :
  Emits okE q → (p >>> q) this = acc_app (p this) (q empty_acc).
Proof. intros Hq. unfold andThen. apply (Emits_acc_app _ q Hq). Qed.

Lemma acc_app_assoc a b c : acc_app (acc_app a b) c = acc_app a (acc_app b c).
Proof. unfold acc_app; simpl. by rewrite !app_assoc. Qed.

(** X17. The three arrays of the report are, each, the concatenation in
    pass order of what the eight passes push when run on their own: no
    pass depends on what an earlier pass found, and none removes or
    reorders a diagnostic. *)
Theorem validate_concatenates_passes (template : WhatsAppTemplate) :
  errors (validate template)
  = concat ((λ p : Pass, this_errors (p empty_acc)) <$> passes template)
  ∧ warnings (validate template)
    = concat ((λ p : Pass, this_warnings (p empty_acc)) <$> passes template)
  ∧ info (validate template)
    = concat ((λ p : Pass, this_info (p empty_acc)) <$> passes template).
Proof.
  assert (Hrun : runPasses template empty_acc
                 = foldr (λ (p : Pass) acc, acc_app (p empty_acc) acc)
                     empty_acc (passes template)).
  { unfold runPasses, passes. cbn [foldr].
    assert (Hend : ∀ a, acc_app a empty_acc = a).
    { intros [e w i]. unfold acc_app; simpl. by rewrite !app_nil_r. }
    rewrite Hend.
    repeat (rewrite (andThen_acc_app anyField);
            [|emits_passes]; rewrite ?acc_app_assoc).
    repeat (rewrite (andThen_acc_app anyField);
            [|eapply Emits_any; auto with passes];
            rewrite ?acc_app_assoc).
    done. }
  unfold validate; cbn [errors warnings info]. rewrite Hrun.
  unfold passes, acc_app; simpl. by rewrite !app_nil_r.
Qed.

(** * The two variable checks of the text validator *)

Lemma is_digit_not_close c : JS.is_digit c = true → Ascii.eqb c "}" = false.
Proof. by destruct c as [[] [] [] [] [] [] [] []]. Qed.

Lemma span_not_close_spec s body r :
  span_not_close s = (body, r) →
  s = str body +:+ r
  ∧ Forall (λ c, Ascii.eqb c "}" = false) body
  ∧ match r with String c _ => c = "}"%char | EmptyString => True end.
Proof.
  revert body r. induction s as [|c s IH]; intros body r; simpl.
  { intros [= <- <-]. by split_and!; [|constructor|]. }
  destruct (Ascii.eqb_spec c "}") as [->|Hc].
  - intros [= <- <-]. by split_and!; [|constructor|].
  - destruct (span_not_close s) as [body' r'] eqn:Hs. intros [= <- <-].
    destruct (IH body' r' eq_refl) as (-> & Hall & Hr).
    split_and!; [done| |done]. constructor; [|done].
    by apply Ascii.eqb_neq.
Qed.

Lemma span_digits_run ds r :
  Forall (λ c, JS.is_digit c = true) ds →
  match r with String c _ => JS.is_digit c = false | EmptyString => True end →
  span_digits (str ds +:+ r) = (ds, r).
Proof.
  intros Hds Hr. induction Hds as [|c ds Hc _ IH]; simpl.
  - destruct r as [|c r]; [done|]. simpl. by rewrite Hr.
  - by rewrite Hc, IH.
Qed.

Lemma span_not_close_run body r :
  Forall (λ c, Ascii.eqb c "}" = false) body →
  match r with String c _ => c = "}"%char | EmptyString => True end →
  span_not_close (str body +:+ r) = (body, r).
Proof.
  intros Hbody Hr. induction Hbody as [|c body Hc _ IH]; simpl.
  - destruct r as [|c r]; [done|]. simpl. by rewrite Hr.
  - by rewrite Hc, IH.
Qed.

Lemma group_at_spec s body :
  group_at s = Some body →
  Forall (λ c, Ascii.eqb c "}" = false) body
  ∧ ∃ after, s = "{{" +:+ str body +:+ "}}" +:+ after.
Proof.
  unfold group_at.
  destruct s as [|a s]; [done|].
  destruct (Ascii.eqb_spec a "{") as [->|Ha];
    [|by destruct a as [[] [] [] [] [] [] [] []]].
  destruct s as [|b r]; [done|].
  destruct (Ascii.eqb_spec b "{") as [->|Hb];
    [|by destruct b as [[] [] [] [] [] [] [] []]].
  destruct (span_not_close r) as [body' rest] eqn:Hspan.
  apply span_not_close_spec in Hspan as (-> & Hall & _).
  destruct rest as [|x rest]; [done|].
  destruct (Ascii.eqb_spec x "}") as [->|Hx];
    [|by destruct x as [[] [] [] [] [] [] [] []]].
  destruct rest as [|y after]; [done|].
  destruct (Ascii.eqb_spec y "}") as [->|Hy];
    [|by destruct y as [[] [] [] [] [] [] [] []]].
  intros [= <-]. split; [done|]. by exists after.
Qed.

Lemma isNumericGroup_spec body :
  isNumericGroup body = true
  ↔ body ≠ [] ∧ Forall (λ c, JS.is_digit c = true) body.
Proof.
  unfold isNumericGroup. rewrite andb_true_iff, forallb_forall, Forall_forall.
  split.
  - intros [Hlen Hall]. split; [by destruct body|].
    intros c Hc. by apply Hall, list_elem_of_In.
  - intros [Hne Hall]. split; [by destruct body|].
    intros c Hc. by apply Hall, list_elem_of_In.
Qed.

(** A numeric placeholder is a brace group, and a numeric brace group
    is a placeholder. *)
Lemma match_at_group_at s ds : match_at s = Some ds → group_at s = Some ds.
Proof.
  intros (Hne & Hall & after & ->)%match_at_spec.
  unfold placeholder. fold (str ds). rewrite !append_assoc.
  change ("{{" +:+ str ds +:+ "}}" +:+ after)
    with (String "{" (String "{" (str ds +:+ "}}" +:+ after))).
  unfold group_at.
  rewrite (span_not_close_run ds ("}}" +:+ after)); [done| |done].
  eapply Forall_impl; [exact Hall|]. apply is_digit_not_close.
Qed.

Lemma group_at_match_at s body :
  group_at s = Some body → isNumericGroup body = true →
  match_at s = Some body.
Proof.
  intros (_ & after & ->)%group_at_spec [Hne Hall]%isNumericGroup_spec.
  change ("{{" +:+ str body +:+ "}}" +:+ after)
    with (String "{" (String "{" (str body +:+ "}}" +:+ after))).
  unfold match_at.
  rewrite (span_digits_run body ("}}" +:+ after)); [|done|done].
  by destruct body.
Qed.

Lemma matchAll_numeric skip s ds :
  ds ∈ matchAll_from skip s → isNumericGroup ds = true.
Proof.
  revert skip. induction s as [|c s IH]; intros skip.
  { by intros ?%elem_of_nil. }
  cbn [matchAll_from]. destruct skip as [|k]; [|apply IH].
  destruct (match_at (String c s)) as [ds0|] eqn:Hm; [|apply IH].
  intros [->|Hin]%elem_of_cons; [|by eapply IH].
  apply match_at_spec in Hm as (Hne & Hall & _).
  by apply isNumericGroup_spec.
Qed.

Lemma groupAll_matchAll skip s :
  Forall (λ body, isNumericGroup body = true) (groupAll_from skip s) →
  groupAll_from skip s = matchAll_from skip s.
Proof.
  revert skip. induction s as [|c s IH]; intros skip; [done|].
  cbn [groupAll_from matchAll_from]. destruct skip as [|k]; [|apply IH].
  destruct (group_at (String c s)) as [body|] eqn:Hg.
  - intros [Hbody Hrest]%Forall_cons.
    rewrite (group_at_match_at _ _ Hg Hbody). f_equal. by apply IH.
  - destruct (match_at (String c s)) as [ds|] eqn:Hm; [|apply IH].
    apply match_at_group_at in Hm. congruence.
Qed.

(** X18. The format refinement of the text validator accepts a text
    exactly when the brace groups [{{...}}] of the text are the numbered
    placeholders that the sequencing refinement reads: a text it accepts
    has no brace group that the sequencing check would overlook. *)
Theorem formatRefine_iff (text : string) :
  formatRefine text = true ↔ groupAll text = matchAll text.
Proof.
  unfold formatRefine, groupAll, matchAll. rewrite Nat.eqb_eq. split.
  - intros Hnone. apply groupAll_matchAll.
    apply Forall_forall. intros body Hbody.
    destruct (isNumericGroup body) eqn:Hnum; [done|]. exfalso.
    assert (Hin : In body (List.filter (λ b, negb (isNumericGroup b))
                             (groupAll_from 0 text))).
    { apply filter_In. split; [by apply list_elem_of_In|]. by rewrite Hnum. }
    destruct (List.filter _ _); [done | discriminate Hnone].
  - intros ->.
    destruct (List.filter _ _) as [|body l] eqn:Hf; [done|]. exfalso.
    assert (Hin : In body (List.filter (λ b, negb (isNumericGroup b))
                             (matchAll_from 0 text)))
      by (rewrite Hf; by left).
    apply filter_In in Hin as [Hin Hneg].
    apply list_elem_of_In, matchAll_numeric in Hin. by rewrite Hin in Hneg.
Qed.

(** * Length errors and the close-to-limit warning *)

(** [warned p]: the fields of the errors [p] pushes occur, in the same
    order, among the fields of the warnings it pushes. *)
Definition warned (p : Pass) : Prop :=
  (field <$> errorsOf p) `sublist_of` (field <$> warningsOf p).

Lemma warned_skip : warned skip.
Proof. unfold warned. simpl. constructor. Qed.

Lemma warned_andThen p q :
  Emits anyField q → warned p → warned q → warned (p >>> q).
Proof.
  unfold warned. intros Hq Hp Hw.
  rewrite (errorsOf_andThen_any anyField), (warningsOf_andThen anyField)
    by done.
  rewrite !fmap_app. by apply sublist_app.
Qed.

Lemma warned_when b p : warned p → warned (when b p).
Proof. destruct b; [done|]. intros _. apply warned_skip. Qed.

Lemma warned_forEachFrom {A} (f : A → nat → Pass) i l :
  (∀ x j, Emits anyField (f x j)) → (∀ x j, warned (f x j)) →
  warned (forEachFrom f i l).
Proof.
  intros Hf Hw. revert i.
  induction l as [|x l IH]; intros i; [apply warned_skip|].
  simpl. apply warned_andThen; [by apply Emits_forEachFrom|done|done].
Qed.

(** A text over the limit is also over nine tenths of it. *)
Lemma warned_validateTextLength text maxLength f :
  warned (validateTextLength text maxLength f).
Proof.
  unfold warned, errorsOf, warningsOf, validateTextLength, andThen, when.
  destruct (Nat.ltb_spec maxLength (String.length text)) as [Hlt|Hle].
  - destruct (Nat.ltb_spec (9 * maxLength) (10 * String.length text));
      [|lia].
    simpl. done.
  - destruct (_ <? _); simpl; [|done]. by constructor.
Qed.

Lemma warned_checkButtonText button j : warned (checkButtonText button j).
Proof.
  unfold checkButtonText. destruct (button_text button); [|apply warned_skip].
  apply warned_when, warned_validateTextLength.
Qed.

Lemma warned_checkComponentLimits component j :
  warned (checkComponentLimits component j).
Proof.
  destruct component as [format text ex|text a ex|text m|buttons]; simpl.
  - apply warned_when. destruct text; [|apply warned_skip].
    apply warned_validateTextLength.
  - apply warned_validateTextLength.
  - apply warned_validateTextLength.
  - apply warned_forEachFrom;
      [apply Emits_checkButtonText | apply warned_checkButtonText].
Qed.

(** X19. The character-limits pass never raises a length error alone:
    the fields of its errors occur, in the same order, among the fields
    of its warnings, because a text over its limit is also over nine
    tenths of it and gets the close-to-limit warning as well. *)
Theorem length_errors_come_with_warnings (template : WhatsAppTemplate) :
  (field <$> errorsOf (validateCharacterLimits template))
    `sublist_of` (field <$> warningsOf (validateCharacterLimits template)).
Proof.
  apply warned_forEachFrom;
    [apply Emits_checkComponentLimits | apply warned_checkComponentLimits].
Qed.
